(** * finance-app: the budget dashboard's classification and aggregation core

    A shallow embedding of the component [App]: the category rule table,
    [classifyItem], [analyzedData], [categorySummary], the totals,
    [handleDownloadCSV], [handleAddItem] and [deleteItem].

    Conventions of the embedding.
    - A JavaScript string is a [string] holding its UTF-8 bytes.  The literals
      of the source are written as they stand there.
    - A JavaScript Number is a primitive [float] (IEEE 754 binary64), with the
      kernel's [+], [*], [/] and comparisons.
    - React state ([data], [newItem]) is passed explicitly; a handler is a
      function from the state it closes over to the state it sets.
    - The spend and the budget fields are number inputs; what they hand to
      their [onChange] is [Html.numberInputValue] of the text typed. *)

From Stdlib Require Import List String Ascii ZArith Zpower Bool Lia.
From Stdlib Require Import Floats DecimalString DecimalN DecimalPos.
Import ListNotations.

Local Open Scope list_scope.
Local Open Scope string_scope.

(** ** Strings *)

Module Str.

(** [s.startsWith(p)] *)
Fixpoint startsWith (s p : string) {struct p} : bool :=
  match p, s with
  | EmptyString, _ => true
  | String _ _, EmptyString => false
  | String a p', String b s' => Ascii.eqb a b && startsWith s' p'
  end.

(** [s.includes(sub)]: [sub] occurs at some position of [s]. *)
Fixpoint includes (s sub : string) : bool :=
  startsWith s sub
  || match s with
     | EmptyString => false
     | String _ s' => includes s' sub
     end.

(** [sub] occurs in [s]. *)
Definition occurs (sub s : string) : Prop :=
  exists pre post, s = pre ++ sub ++ post.

(** [s.slice(n)] and [s.slice(0, n)] for [0 <= n]. *)
Fixpoint drop (n : nat) (s : string) : string :=
  match n, s with
  | S n', String _ s' => drop n' s'
  | _, _ => s
  end.

Fixpoint take (n : nat) (s : string) : string :=
  match n, s with
  | S n', String c s' => String c (take n' s')
  | _, _ => EmptyString
  end.

(** [c.repeat(n)] *)
Fixpoint repeat (c : ascii) (n : nat) : string :=
  match n with
  | O => EmptyString
  | S n' => String c (repeat c n')
  end.

(** [parts.join(sep)] on an array of strings. *)
Fixpoint join (sep : string) (parts : list string) : string :=
  match parts with
  | [] => ""
  | [p] => p
  | p :: rest => p ++ sep ++ join sep rest
  end.

(** ASCII upper-casing: what [toUpperCase] does to a string whose cased
    letters are all ASCII (every byte of a multi-byte UTF-8 sequence is
    above 127 and is left alone). *)
Definition upperAscii (c : ascii) : ascii :=
  let n := nat_of_ascii c in
  if (97 <=? n)%nat && (n <=? 122)%nat then ascii_of_nat (n - 32) else c.

Fixpoint asciiUpperCase (s : string) : string :=
  match s with
  | EmptyString => EmptyString
  | String c s' => String (upperAscii c) (asciiUpperCase s')
  end.

End Str.

(** ** Numbers and their decimal forms

    The conversions of ECMAScript between Numbers and strings that the
    program calls: [parseFloat], [Number.prototype.toFixed] and the
    Number-to-string conversion of [join] and of template literals. *)

Module Num.

(** The Number value for the decimal [±M × 10^E]: the nearest binary64
    value, ties to the even mantissa. *)
Definition ofDecimal (neg : bool) (M : Z) (E : Z) : float :=
  match M with
  | Zpos p =>
      if (0 <=? E)%Z
      then SF2Prim (binary_normalize prec emax (cond_Zopp neg (M * 10 ^ E)) 0 false)
      else SF2Prim (SFdiv prec emax (S754_finite neg p 0)
                          (S754_finite false (Z.to_pos (10 ^ (- E))) 0))
  | _ => if neg then neg_zero else zero
  end.

Definition isDigit (c : ascii) : bool :=
  let n := nat_of_ascii c in (48 <=? n)%nat && (n <=? 57)%nat.

Definition digitVal (c : ascii) : Z := Z.of_nat (nat_of_ascii c) - 48.

(** Reads a run of decimal digits: the value of [acc] followed by the run,
    the length of the run, and what follows it. *)
Fixpoint digits (s : string) (acc : Z) (len : Z) : Z * Z * string :=
  match s with
  | String c s' =>
      if isDigit c then digits s' (10 * acc + digitVal c) (len + 1) else (acc, len, s)
  | EmptyString => (acc, len, s)
  end.

(** StrWhiteSpaceChar, as UTF-8: TAB, LF, VT, FF, CR, SP, U+00A0, U+1680,
    U+2000..U+200A, U+2028, U+2029, U+202F, U+205F, U+3000, U+FEFF. *)
Definition whiteSpaceLen (s : string) : nat :=
  match s with
  | String c1 r1 =>
      let n1 := nat_of_ascii c1 in
      if ((9 <=? n1) && (n1 <=? 13) || (n1 =? 32))%nat then 1%nat
      else match r1 with
      | String c2 r2 =>
          let n2 := nat_of_ascii c2 in
          if ((n1 =? 194) && (n2 =? 160))%nat then 2%nat
          else match r2 with
          | String c3 _ =>
              let n3 := nat_of_ascii c3 in
              if ((n1 =? 225) && (n2 =? 154) && (n3 =? 128)
                  || (n1 =? 226) && (n2 =? 128)
                     && ((128 <=? n3) && (n3 <=? 138) || (n3 =? 168) || (n3 =? 169) || (n3 =? 175))
                  || (n1 =? 226) && (n2 =? 129) && (n3 =? 159)
                  || (n1 =? 227) && (n2 =? 128) && (n3 =? 128)
                  || (n1 =? 239) && (n2 =? 187) && (n3 =? 191))%nat
              then 3%nat else 0%nat
          | EmptyString => 0%nat
          end
      | EmptyString => 0%nat
      end
  | EmptyString => 0%nat
  end.

Fixpoint trimStartFuel (fuel : nat) (s : string) : string :=
  match fuel with
  | O => s
  | S fuel' =>
      match whiteSpaceLen s with
      | O => s
      | n => trimStartFuel fuel' (Str.drop n s)
      end
  end.

Definition trimStart (s : string) : string := trimStartFuel (String.length s) s.

(** The ExponentPart of a StrDecimalLiteral at the head of [s], 0 when
    there is none ([e] or [E], an optional sign, at least one digit). *)
Definition exponentPart (s : string) : Z :=
  match s with
  | String c r =>
      if Ascii.eqb c "e" || Ascii.eqb c "E" then
        let '(neg, r') :=
          match r with
          | String "-" r' => (true, r')
          | String "+" r' => (false, r')
          | _ => (false, r)
          end in
        let '(v, len, _) := digits r' 0 0 in
        if (len =? 0)%Z then 0%Z else if neg then (- v)%Z else v
      else 0%Z
  | EmptyString => 0%Z
  end.

(** [parseFloat(s)]: the longest prefix of the trimmed string that is a
    StrDecimalLiteral, as a Number; [NaN] when there is none. *)
Definition parseFloat (s : string) : float :=
  let t := trimStart s in
  let '(neg, u) :=
    match t with
    | String "-" u => (true, u)
    | String "+" u => (false, u)
    | _ => (false, t)
    end in
  if Str.startsWith u "Infinity" then (if neg then neg_infinity else infinity)
  else
    let '(int, ilen, r1) := digits u 0 0 in
    match r1 with
    | String "." r2 =>
        let '(M, flen, r3) := digits r2 int 0 in
        if ((ilen =? 0) && (flen =? 0))%Z then nan
        else ofDecimal neg M (exponentPart r3 - flen)
    | _ =>
        if (ilen =? 0)%Z then nan else ofDecimal neg int (exponentPart r1)
    end.

(** The decimal digits of a natural number ("0" for zero). *)
Definition decimal (n : Z) : string := NilZero.string_of_uint (N.to_uint (Z.to_N n)).

(** [floor (m × 2^e × 10^f + 1/2)] *)
Definition roundScaled (m : positive) (e : Z) (f : Z) : Z :=
  if (0 <=? e)%Z then Zpos m * 2 ^ e * 10 ^ f
  else (2 * Zpos m * 10 ^ f + 2 ^ (- e)) / 2 ^ (- e + 1).

(** [m × 2^e < 10^n] and [10^n <= m × 2^e], for any integer [n] and [e]. *)
Definition ltPow10 (m : positive) (e : Z) (n : Z) : bool :=
  (Zpos m * 2 ^ (Z.max e 0) * 10 ^ (Z.max (- n) 0) <? 10 ^ (Z.max n 0) * 2 ^ (Z.max (- e) 0))%Z.

(** The least [n] from [lo] on, within [fuel] steps, with [m × 2^e < 10^n]. *)
Fixpoint magnitudeFrom (fuel : nat) (m : positive) (e : Z) (lo : Z) : Z :=
  match fuel with
  | O => lo
  | S fuel' => if ltPow10 m e lo then lo else magnitudeFrom fuel' m e (lo + 1)
  end.

(** [n] with [10^(n-1) <= m × 2^e < 10^n]. *)
Definition magnitude (m : positive) (e : Z) : Z := magnitudeFrom 640 m e (-324).

(** [floor (m × 2^e / 10^p)] for any integer [p]. *)
Definition floorScaled (m : positive) (e : Z) (p : Z) : Z :=
  (Zpos m * 2 ^ (Z.max e 0) * 10 ^ (Z.max (- p) 0)) / (2 ^ (Z.max (- e) 0) * 10 ^ (Z.max p 0)).

(** [|s × 10^p - m × 2^e|] scaled by the common denominator [2^max(-e,0) × 10^max(-p,0)]. *)
Definition distScaled (m : positive) (e : Z) (s p : Z) : Z :=
  Z.abs (s * 10 ^ (Z.max p 0) * 2 ^ (Z.max (- e) 0)
         - Zpos m * 2 ^ (Z.max e 0) * 10 ^ (Z.max (- p) 0)).

(** The digits [s] and the exponent [n] of Number::toString for the positive
    finite [x = m × 2^e] with [k] digits, when some [k]-digit decimal
    [s × 10^(n-k)] has [x] for its Number value: the one closest to [x], the
    even [s] on a tie. *)
Definition shortestWith (x : float) (m : positive) (e : Z) (k : Z) : option (Z * Z) :=
  let n := magnitude m e in
  let lo := floorScaled m e (n - k) in
  let hi := (lo + 1)%Z in
  let okLo := Leibniz.eqb (ofDecimal false lo (n - k)) x in
  let okHi := Leibniz.eqb (ofDecimal false hi (n - k)) x in
  let norm := fun s => if (s =? 10 ^ k)%Z then (10 ^ (k - 1), n + 1)%Z else (s, n) in
  match okLo, okHi with
  | false, false => None
  | true, false => Some (norm lo)
  | false, true => Some (norm hi)
  | true, true =>
      match (distScaled m e lo (n - k) ?= distScaled m e hi (n - k))%Z with
      | Lt => Some (norm lo)
      | Gt => Some (norm hi)
      | Eq => Some (norm (if Z.even lo then lo else hi))
      end
  end.

Fixpoint shortestFrom (fuel : nat) (x : float) (m : positive) (e : Z) (k : Z) : Z * Z * Z :=
  match fuel with
  | O => (k, 0, 0)%Z
  | S fuel' =>
      match shortestWith x m e k with
      | Some (s, n) => (k, s, n)
      | None => shortestFrom fuel' x m e (k + 1)
      end
  end.

(** Number::toString(x), radix 10.  The digits are the fewest that give [x]
    back; no Number needs more than 17, and a whole Number is given back by
    its own digits, at most 309, so that the search for them ends. *)
Definition toString (x : float) : string :=
  match Prim2SF x with
  | S754_nan => "NaN"
  | S754_zero _ => "0"
  | S754_infinity neg => if neg then "-Infinity" else "Infinity"
  | S754_finite neg m e =>
      let '(k, s, n) := shortestFrom 310 (abs x) m e 1 in
      let ds := decimal s in
      let body :=
        if ((k <=? n) && (n <=? 21))%Z then
          ds ++ Str.repeat "0" (Z.to_nat (n - k))
        else if ((0 <? n) && (n <=? 21))%Z then
          Str.take (Z.to_nat n) ds ++ "." ++ Str.drop (Z.to_nat n) ds
        else if ((-6 <? n) && (n <=? 0))%Z then
          "0." ++ Str.repeat "0" (Z.to_nat (- n)) ++ ds
        else
          let ex := (if (n - 1 <? 0)%Z then "-" else "+") ++ decimal (Z.abs (n - 1)) in
          if (k =? 1)%Z then ds ++ "e" ++ ex
          else Str.take 1 ds ++ "." ++ Str.drop 1 ds ++ "e" ++ ex
      in
      if neg then "-" ++ body else body
  end.

(** The decimal digits of [n] with a point before the last [f] of them, and
    zeros in front so that a digit stands before the point. *)
Definition fixedDigits (n : Z) (f : nat) : string :=
  let ds := decimal n in
  if (f =? 0)%nat then ds
  else
    let k := String.length ds in
    let ds' := if (k <=? f)%nat then Str.repeat "0" (f + 1 - k) ++ ds else ds in
    let a := (String.length ds' - f)%nat in
    Str.take a ds' ++ "." ++ Str.drop a ds'.

(** [x.toFixed(f)] for [0 <= f <= 100]: below [10^21] the digits of the
    integer [n] nearest to [|x| × 10^f], the larger one of two. *)
Definition toFixed (x : float) (f : nat) : string :=
  match Prim2SF x with
  | S754_nan => "NaN"
  | S754_infinity neg => if neg then "-Infinity" else "Infinity"
  | S754_zero _ => fixedDigits 0 f
  | S754_finite neg m e =>
      let body :=
        if ltPow10 m e 21 then fixedDigits (roundScaled m e (Z.of_nat f)) f
        else toString (abs x)
      in
      if neg then "-" ++ body else body
  end.

End Num.

(** ** The number inputs

    The spend and the budget fields of the form are [<input type="number">]:
    what their [onChange] reads in [e.target.value] is the text in the field
    when it is a valid floating-point number of HTML, and the empty string
    otherwise (the value sanitization of the input). *)

Module Html.

(** The exponent of a valid floating-point number, which ends the text:
    nothing, or [e] or [E], an optional sign and at least one digit. *)
Definition exponentOk (r : string) : bool :=
  match r with
  | EmptyString => true
  | String c r1 =>
      (Ascii.eqb c "e" || Ascii.eqb c "E")
      && (let r2 :=
            match r1 with
            | String "-" r' => r'
            | String "+" r' => r'
            | _ => r1
            end in
          let '(_, len, rest) := Num.digits r2 0 0 in
          negb (len =? 0)%Z && String.eqb rest "")
  end.

(** A valid floating-point number: an optional [-]; digits, or digits, a
    point and digits, or a point and digits; an optional exponent. *)
Definition validFloatingPointNumber (s : string) : bool :=
  let u := match s with String "-" u => u | _ => s end in
  let '(_, ilen, r1) := Num.digits u 0 0 in
  match r1 with
  | String "." r2 =>
      let '(_, flen, r3) := Num.digits r2 0 0 in
      negb (flen =? 0)%Z && exponentOk r3
  | _ => negb (ilen =? 0)%Z && exponentOk r1
  end.

(** [e.target.value] of a number input that holds the text [typed]. *)
Definition numberInputValue (typed : string) : string :=
  if validFloatingPointNumber typed then typed else "".

End Html.

(** ** The data model *)

(** An entry of [data]: [{ id, name, spend, budget }]. *)
Module Item.
Record t := mk { id : Z; name : string; spend : float; budget : float }.
End Item.

(** An entry of [analyzedData]: [{ ...item, category, percentage }]. *)
Module AnalyzedItem.
Record t := mk {
  id : Z; name : string; spend : float; budget : float;
  category : string; percentage : float }.
End AnalyzedItem.

(** An entry of [categorySummary]: [{ name, spend, budget }]. *)
Module CategorySummary.
Record t := mk { name : string; spend : float; budget : float }.
End CategorySummary.

(** The form state [newItem]: the three input values, as strings. *)
Module NewItem.
Record t := mk { name : string; spend : string; budget : string }.
Definition empty : t := mk "" "" "".
End NewItem.

(** The component's state: [data] and [newItem]. *)
Module State.
Record t := mk { data : list Item.t; newItem : NewItem.t }.
End State.

(** ** The category rule table *)

Definition CATEGORY_RULES : list (string * list string) :=
  [ ("行銷推廣", ["廣告"; "FB"; "Google"; "行銷"; "推廣"; "SEO"; "展覽"]);
    ("營運成本", ["租金"; "水電"; "文具"; "維護"; "清潔"; "辦公室"; "保險"]);
    ("人力資源", ["薪資"; "獎金"; "勞健保"; "午餐"; "培訓"; "福利"; "差旅"]);
    ("資訊技術", ["伺服器"; "雲端"; "AWS"; "軟體"; "授權"; "IT"; "電腦"; "網域"]) ].

(** The category [classifyItem] falls back to ("other"). *)
Definition DEFAULT_CATEGORY : string := "其他".

(** The initial [data]. *)
Definition initialData : list Item.t :=
  [ Item.mk 1 "辦公室租金" 50000 50000;
    Item.mk 2 "AWS 雲端伺服器" 12500 15000;
    Item.mk 3 "Facebook 廣告投放" 32000 30000;
    Item.mk 4 "員工午餐補助" 6800 8000;
    Item.mk 5 "辦公室文具" 1500 1000;
    Item.mk 6 "專業責任保險" 15000 15000;
    Item.mk 7 "Google 關鍵字" 18000 25000 ].

Definition initialState : State.t := State.mk initialData NewItem.empty.

(** ** The component *)

Section App.

(** [String.prototype.toUpperCase]: the Unicode upper-casing of the host,
    which the program takes from its runtime. *)
Variable toUpperCase : string -> string.

(** *** classifyItem *)

(** [keywords.some(kw => name.toUpperCase().includes(kw.toUpperCase()))] *)
Definition someKeyword (name : string) (keywords : list string) : bool :=
  existsb (fun kw => Str.includes (toUpperCase name) (toUpperCase kw)) keywords.

(** The [for ... of Object.entries(rules)] loop with its early [return].
    The keys of [CATEGORY_RULES] are no array indices, so [Object.entries]
    lists them in the order they are written. *)
Fixpoint classifyIn (rules : list (string * list string)) (name : string) : string :=
  match rules with
  | [] => DEFAULT_CATEGORY
  | (category, keywords) :: rest =>
      if someKeyword name keywords then category else classifyIn rest name
  end.

Definition classifyItem (name : string) : string :=
  classifyIn CATEGORY_RULES name.

(** *** analyzedData *)

Definition analyzeItem (item : Item.t) : AnalyzedItem.t :=
  let category := classifyItem (Item.name item) in
  let percentage :=
    if (0 <? Item.budget item)%float
    then (Item.spend item / Item.budget item * 100)%float
    else 0%float in
  AnalyzedItem.mk (Item.id item) (Item.name item) (Item.spend item) (Item.budget item)
    category (Num.parseFloat (Num.toFixed percentage 2)).

Definition analyzedData (data : list Item.t) : list AnalyzedItem.t :=
  map analyzeItem data.

(** *** categorySummary *)

(** The object [summary]: its own properties, in the order they were
    created.  Its keys are categories, none of them an array index, so
    [Object.values] lists the values in that order. *)
Definition SummaryObject := list (string * CategorySummary.t).

(** [summary[key]], [None] for [undefined]. *)
Fixpoint getProperty (summary : SummaryObject) (key : string) : option CategorySummary.t :=
  match summary with
  | [] => None
  | (k, v) :: rest => if String.eqb k key then Some v else getProperty rest key
  end.

(** An assignment to a field of the object [summary[key]]. *)
Definition updateProperty (key : string) (f : CategorySummary.t -> CategorySummary.t)
    (summary : SummaryObject) : SummaryObject :=
  map (fun kv => if String.eqb (fst kv) key then (fst kv, f (snd kv)) else kv) summary.

(** The body of the [forEach] callback. *)
Definition summaryStep (summary : SummaryObject) (item : AnalyzedItem.t) : SummaryObject :=
  let category := AnalyzedItem.category item in
  let summary1 :=
    match getProperty summary category with
    | None => (summary ++ [(category, CategorySummary.mk category 0 0)])%list
    | Some _ => summary
    end in
  let summary2 :=
    updateProperty category
      (fun s => CategorySummary.mk (CategorySummary.name s)
                  (CategorySummary.spend s + AnalyzedItem.spend item)
                  (CategorySummary.budget s))
      summary1 in
  updateProperty category
    (fun s => CategorySummary.mk (CategorySummary.name s)
                (CategorySummary.spend s)
                (CategorySummary.budget s + AnalyzedItem.budget item))
    summary2.

Definition categorySummary (analyzed : list AnalyzedItem.t) : list CategorySummary.t :=
  map snd (fold_left summaryStep analyzed []).

(** *** Totals *)

Definition totalSpend (analyzed : list AnalyzedItem.t) : float :=
  fold_left (fun sum i => (sum + AnalyzedItem.spend i)%float) analyzed 0%float.

Definition totalBudget (analyzed : list AnalyzedItem.t) : float :=
  fold_left (fun sum i => (sum + AnalyzedItem.budget i)%float) analyzed 0%float.

Definition overallPercentage (analyzed : list AnalyzedItem.t) : float :=
  (totalSpend analyzed / totalBudget analyzed * 100)%float.

(** *** handleDownloadCSV *)

(** What the handler hands to the browser: the text of the [Blob], its type
    and the [download] name of the link it clicks. *)
Record Download := mkDownload {
  csvContent : string; blobType : string; downloadName : string }.

Definition LF : string := String "010" "".

(** The byte-order mark U+FEFF that starts the file, as UTF-8. *)
Definition BOM : string := String "239" (String "187" (String "191" "")).

Definition headers : list string :=
  ["項目名稱"; "類別"; "支出金額"; "預算額度"; "使用百分比(%)"].

(** The row of one item: the array's [join(',')] turns the two Numbers
    into strings. *)
Definition csvRow (item : AnalyzedItem.t) : string :=
  Str.join ","
    [ AnalyzedItem.name item;
      AnalyzedItem.category item;
      Num.toString (AnalyzedItem.spend item);
      Num.toString (AnalyzedItem.budget item);
      Num.toString (AnalyzedItem.percentage item) ++ "%" ].

(** [today] is [new Date().toLocaleDateString()].  [None]: the handler
    returned at its first line and did nothing. *)
Definition handleDownloadCSV (today : string) (analyzed : list AnalyzedItem.t)
    : option Download :=
  if (List.length analyzed =? 0)%nat then None
  else
    let csvRows := map csvRow analyzed in
    let content := BOM ++ Str.join LF (Str.join "," headers :: csvRows) in
    Some (mkDownload content "text/csv;charset=utf-8;"
            ("財務分析報告_" ++ today ++ ".csv")).

(** *** handleAddItem and deleteItem *)

(** [!s] for a string [s]. *)
Definition falsy (s : string) : bool :=
  match s with
  | EmptyString => true
  | _ => false
  end.

(** [now] is [Date.now()], the clock's milliseconds. *)
Definition handleAddItem (now : Z) (st : State.t) : State.t :=
  let newItem := State.newItem st in
  if falsy (NewItem.name newItem) || falsy (NewItem.spend newItem)
     || falsy (NewItem.budget newItem)
  then st
  else
    let item :=
      Item.mk now (NewItem.name newItem)
        (Num.parseFloat (NewItem.spend newItem))
        (Num.parseFloat (NewItem.budget newItem)) in
    State.mk (State.data st ++ [item])%list NewItem.empty.

Definition deleteItem (id : Z) (st : State.t) : State.t :=
  State.mk (filter (fun i => negb (Item.id i =? id)%Z) (State.data st))
    (State.newItem st).

(** *** The form's inputs *)

(** The three [onChange] callbacks of the form,
    [e => setNewItem({...newItem, name: e.target.value})] and the two like
    it; [value] is [e.target.value]. *)
Definition onChangeName (value : string) (st : State.t) : State.t :=
  State.mk (State.data st)
    (NewItem.mk value (NewItem.spend (State.newItem st)) (NewItem.budget (State.newItem st))).

Definition onChangeSpend (value : string) (st : State.t) : State.t :=
  State.mk (State.data st)
    (NewItem.mk (NewItem.name (State.newItem st)) value (NewItem.budget (State.newItem st))).

Definition onChangeBudget (value : string) (st : State.t) : State.t :=
  State.mk (State.data st)
    (NewItem.mk (NewItem.name (State.newItem st)) (NewItem.spend (State.newItem st)) value).

(** *** What the header, the chart and the table show *)

Definition COLORS : list string :=
  ["#3B82F6"; "#10B981"; "#F59E0B"; "#EF4444"; "#8B5CF6"].

(** The [fill] of the pie's cell number [index]:
    [COLORS[index % COLORS.length]], [None] for [undefined]. *)
Definition cellFill (index : nat) : option string :=
  nth_error COLORS (index mod List.length COLORS).

(** The fills of the cells, one per summary:
    [categorySummary.map((entry, index) => ...)]. *)
Definition cellFills (summaries : list CategorySummary.t) : list (option string) :=
  map cellFill (seq 0 (List.length summaries)).

(** The class and the text of the header's rate:
    [overallPercentage > 100 ? 'text-red-500' : 'text-emerald-500'] and
    [{overallPercentage.toFixed(1)}%]. *)
Definition overallClass (analyzed : list AnalyzedItem.t) : string :=
  "text-lg font-semibold "
  ++ (if (100 <? overallPercentage analyzed)%float then "text-red-500" else "text-emerald-500").

Definition overallText (analyzed : list AnalyzedItem.t) : string :=
  Num.toFixed (overallPercentage analyzed) 1 ++ "%".

(** [Math.min(a, b)]: [NaN] when one of the two is, and [-0] below [+0]. *)
Definition Math_min (a b : float) : float :=
  if is_nan a || is_nan b then nan
  else if (a <? b)%float then a
  else if (b <? a)%float then b
  else if is_zero a && get_sign a then a
  else b.

(** The bar of a row: its class and its width,
    [`${Math.min(item.percentage, 100)}%`]. *)
Definition barClass (percentage : float) : string :=
  "h-full rounded-full "
  ++ (if (100 <? percentage)%float then "bg-red-500"
      else if (85 <? percentage)%float then "bg-amber-500"
      else "bg-emerald-500").

Definition barWidth (percentage : float) : string :=
  Num.toString (Math_min percentage 100) ++ "%".

(** The class of the percentage's text. *)
Definition percentageClass (percentage : float) : string :=
  "text-sm font-bold "
  ++ (if (100 <? percentage)%float then "text-red-500" else "text-slate-500").

(** The icon beside the percentage, [None] for [null]. *)
Inductive Icon := AlertTriangle | CheckCircle2.

Definition statusIcon (percentage : float) : option Icon :=
  if (100 <? percentage)%float then Some AlertTriangle
  else if (percentage =? 100)%float then Some CheckCircle2
  else None.

End App.

(** ** Specification vocabulary *)

Section Vocabulary.

Variable toUpperCase : string -> string.

(** [kw] occurs in [name] when case is ignored: both are compared in upper
    case. *)
Definition ci_substring (kw name : string) : Prop :=
  Str.occurs (toUpperCase kw) (toUpperCase name).

(** Some keyword of the list occurs in [name], case ignored. *)
Definition hits (name : string) (keywords : list string) : Prop :=
  exists kw, In kw keywords /\ ci_substring kw name.

(** The rule at position [i] is the first one that hits [name]. *)
Definition firstHit (rules : list (string * list string)) (name : string)
    (i : nat) (category : string) : Prop :=
  exists keywords,
    nth_error rules i = Some (category, keywords) /\
    hits name keywords /\
    forall j c k, (j < i)%nat -> nth_error rules j = Some (c, k) -> ~ hits name k.

(** No rule hits [name]. *)
Definition noHit (rules : list (string * list string)) (name : string) : Prop :=
  forall c k, In (c, k) rules -> ~ hits name k.

End Vocabulary.

(** *** The item store *)

(** The ids of the items, in the order of the list. *)
Definition ids (data : list Item.t) : list Z := map Item.id data.

(** The handler returns at its guard exactly when a field is empty. *)
Definition someFieldEmpty (n : NewItem.t) : Prop :=
  NewItem.name n = "" \/ NewItem.spend n = "" \/ NewItem.budget n = "".

(** The form once the three texts are typed into its fields: the name as it
    is typed, the spend and the budget as their number inputs hand them to
    [onChange]. *)
Definition fillForm (name spend budget : string) (st : State.t) : State.t :=
  onChangeBudget (Html.numberInputValue budget)
    (onChangeSpend (Html.numberInputValue spend) (onChangeName name st)).

(** add(name, spend, budget): the form filled with the three texts and
    submitted when the clock reads [now]. *)
Definition addItem (now : Z) (name spend budget : string) (st : State.t) : State.t :=
  handleAddItem now (fillForm name spend budget st).

(** The text is missing, or [parseFloat] reads no number in it. *)
Definition unparseable (text : string) : Prop :=
  text = "" \/ Prim2SF (Num.parseFloat text) = S754_nan.

(** *** The CSV text *)

(** The header row as the file shows it. *)
Definition headerRow : string := "項目名稱,類別,支出金額,預算額度,使用百分比(%)".

(** One line of the file after the header: a line feed, then the five fields
    with commas between them, the text of each as it is. *)
Definition rowLine (item : AnalyzedItem.t) : string :=
  LF ++ AnalyzedItem.name item ++ "," ++ AnalyzedItem.category item ++ ","
     ++ Num.toString (AnalyzedItem.spend item) ++ ","
     ++ Num.toString (AnalyzedItem.budget item) ++ ","
     ++ Num.toString (AnalyzedItem.percentage item) ++ "%".

(** The lines of the items, in the order of the list. *)
Fixpoint rowLines (analyzed : list AnalyzedItem.t) : string :=
  match analyzed with
  | [] => ""
  | item :: rest => rowLine item ++ rowLines rest
  end.

(** The same text written out byte by byte, with no constant of the handler
    in it: the three bytes EF BB BF of U+FEFF, the header row, and for every
    item the byte 10 of a line feed and its five fields. *)
Definition fileFields (item : AnalyzedItem.t) : string :=
  AnalyzedItem.name item ++ "," ++ AnalyzedItem.category item ++ ","
     ++ Num.toString (AnalyzedItem.spend item) ++ ","
     ++ Num.toString (AnalyzedItem.budget item) ++ ","
     ++ Num.toString (AnalyzedItem.percentage item) ++ "%".

Fixpoint fileLines (analyzed : list AnalyzedItem.t) : string :=
  match analyzed with
  | [] => ""
  | item :: rest => String "010" (fileFields item ++ fileLines rest)
  end.

Definition fileText (analyzed : list AnalyzedItem.t) : string :=
  String "239" (String "187" (String "191"
    ("項目名稱,類別,支出金額,預算額度,使用百分比(%)" ++ fileLines analyzed))).

(** *** Categories and sums *)

(** The distinct elements of a list, each at the place of its first
    occurrence. *)
Fixpoint firstSeen (l : list string) : list string :=
  match l with
  | [] => []
  | c :: rest => c :: filter (fun d => negb (String.eqb d c)) (firstSeen rest)
  end.

(** The categories of the items, in the order of the list. *)
Definition categories (analyzed : list AnalyzedItem.t) : list string :=
  map AnalyzedItem.category analyzed.

(** The items of one category, in the order of the list. *)
Definition itemsOf (c : string) (analyzed : list AnalyzedItem.t) : list AnalyzedItem.t :=
  filter (fun a => String.eqb (AnalyzedItem.category a) c) analyzed.

(** The sum of a list of Numbers, added from the left to 0. *)
Definition sumOf (xs : list float) : float :=
  fold_left (fun acc x => (acc + x)%float) xs 0%float.

(** [c] first occurs in [l] at a position before every occurrence of [d]. *)
Definition seenBefore (l : list string) (c d : string) : Prop :=
  exists p, nth_error l p = Some c /\ forall q, nth_error l q = Some d -> (p < q)%nat.

(** What the entry of key [k] holds after the items of [l]. *)
Definition entryOk (l : list AnalyzedItem.t) (kv : string * CategorySummary.t) : Prop :=
  CategorySummary.name (snd kv) = fst kv
  /\ CategorySummary.spend (snd kv) = sumOf (map AnalyzedItem.spend (itemsOf (fst kv) l))
  /\ CategorySummary.budget (snd kv) = sumOf (map AnalyzedItem.budget (itemsOf (fst kv) l)).

(** The loop invariant of the [forEach]. *)
Definition summaryInv (l : list AnalyzedItem.t) (o : SummaryObject) : Prop :=
  map fst o = firstSeen (categories l) /\ Forall (entryOk l) o.

(** *** Numbers *)

(** A Number that is no value: [NaN] or an infinity. *)
Definition indeterminate (x : float) : Prop :=
  x = nan \/ x = infinity \/ x = neg_infinity.

(** Every character of the string is a decimal digit. *)
Fixpoint allDigits (s : string) : bool :=
  match s with
  | EmptyString => true
  | String c s' => Num.isDigit c && allDigits s'
  end.

(** The value of [acc] followed by the digits of [s]. *)
Fixpoint valFrom (acc : Z) (s : string) : Z :=
  match s with
  | EmptyString => acc
  | String c s' => valFrom (10 * acc + Num.digitVal c) s'
  end.

(** [x] rounded to two decimals: with [n] the integer nearest to
    [|x| × 100] (the larger one when two are as near), the Number nearest to
    [n / 100], with the sign of [x]; a zero gives 0, [NaN] and the
    infinities themselves.  Stated for [|x| < 10^21]. *)
Definition roundTo2 (x : float) : option float :=
  match Prim2SF x with
  | S754_nan => Some nan
  | S754_infinity neg => Some (if neg then neg_infinity else infinity)
  | S754_zero _ => Some 0%float
  | S754_finite neg m e =>
      if Num.ltPow10 m e 21
      then Some (Num.ofDecimal neg (Num.roundScaled m e 2) (-2))
      else None
  end.

(** [parseFloat(x.toFixed(2))] *)
Definition round2 (x : float) : float := Num.parseFloat (Num.toFixed x 2).

(** Rounding to two decimals in terms of the integers and of IEEE 754 only,
    for every Number.  [n] is the integer nearest to [m × 2^e × 100], the
    larger one when two are as near: [n - 1/2 <= m × 2^e × 100 < n + 1/2],
    with the powers of two moved to the side where they are whole. *)
Definition nearestHundredths (m : positive) (e : Z) (n : Z) : Prop :=
  ((2 * n - 1) * 2 ^ Z.max (- e) 0 <= 200 * (Zpos m * 2 ^ Z.max e 0)
   /\ 200 * (Zpos m * 2 ^ Z.max e 0) < (2 * n + 1) * 2 ^ Z.max (- e) 0)%Z.

(** The Number nearest to [n / d], ties to the even mantissa, with the sign
    [neg]: the IEEE 754 quotient of the integers [n] and [d]. *)
Definition nearestQuotient (neg : bool) (n : Z) (d : positive) : float :=
  match n with
  | Zpos p => SF2Prim (SFdiv prec emax (S754_finite neg p 0) (S754_finite false d 0))
  | _ => if neg then neg_zero else zero
  end.

(** [r] is [x] rounded to two decimals: the Number nearest to [n / 100],
    where [n / 100] is the hundredth nearest to [|x|], with the sign of [x];
    a zero gives 0, [NaN] and the infinities themselves. *)
Definition roundedTo2 (x r : float) : Prop :=
  match Prim2SF x with
  | S754_nan => r = nan
  | S754_infinity neg => r = if neg then neg_infinity else infinity
  | S754_zero _ => r = 0%float
  | S754_finite neg m e =>
      exists n, nearestHundredths m e n /\ r = nearestQuotient neg n 100
  end.

(** No digit comes first in [rest]. *)
Definition noDigitHead (rest : string) : Prop :=
  match rest with
  | EmptyString => True
  | String c _ => Num.isDigit c = false
  end.

(** The Number of the integer [z]; exact for [|z| <= 2^53]. *)
Definition ofInteger (z : Z) : float :=
  SF2Prim (binary_normalize prec emax z 0 false).

(** The binary64 representation of an integer [0 < z < 2^53]: its mantissa
    has 53 bits. *)
Definition canon (z : Z) : spec_float :=
  match z with
  | Zpos _ => S754_finite false (Z.to_pos (z * 2 ^ (52 - Z.log2 z))%Z) (Z.log2 z - 52)%Z
  | _ => S754_zero false
  end.

(** The integer a Number stands for, when it stands for one. *)
Definition toInteger (x : float) : Z :=
  match Prim2SF x with
  | S754_finite false m e =>
      if (0 <=? e)%Z then (Zpos m * 2 ^ e)%Z else (Zpos m / 2 ^ (- e))%Z
  | _ => 0%Z
  end.

(** [x] is a whole, non-negative amount below [2^53]. *)
Definition wholeAmount (x : float) : Prop :=
  (0 <= toInteger x < 2 ^ 53)%Z /\ x = ofInteger (toInteger x).

(** The sum of a list of integers. *)
Definition Zsum (zs : list Z) : Z := fold_right Z.add 0%Z zs.

(** The sum of [g] over the elements of [l] whose key is [c]. *)
Definition groupSum {A : Type} (key : A -> string) (g : A -> Z) (l : list A) (c : string) : Z :=
  Zsum (map g (filter (fun a => String.eqb (key a) c) l)).

(** *** The rule table and the store *)

(** The keywords of a rule table. *)
Definition allKeywords (rules : list (string * list string)) : list string :=
  flat_map snd rules.

(** Every keyword, taken as a name, falls in the category that lists it. *)
Definition keywordsKeepTheirCategory (toUpperCase : string -> string) : bool :=
  forallb
    (fun rule =>
       forallb (fun kw => String.eqb (classifyItem toUpperCase kw) (fst rule)) (snd rule))
    CATEGORY_RULES.

(** Every item of the list has a whole spend and a whole budget. *)
Definition wholeData (data : list Item.t) : Prop :=
  Forall (fun i => wholeAmount (Item.spend i) /\ wholeAmount (Item.budget i)) data.

(** The two number fields of the form hold digits only, of a value below
    [2^53]. *)
Definition wholeFields (n : NewItem.t) : Prop :=
  allDigits (NewItem.spend n) = true /\ allDigits (NewItem.budget n) = true
  /\ (valFrom 0 (NewItem.spend n) < 2 ^ 53)%Z /\ (valFrom 0 (NewItem.budget n) < 2 ^ 53)%Z.

(** ** Strings: search *)

Lemma startsWith_spec (s p : string) :
  Str.startsWith s p = true <-> exists post, s = p ++ post.
Proof.
  revert s; induction p as [|a p IH]; intros s; simpl.
  - split; [intros _; now exists s | reflexivity].
  - destruct s as [|b s]; simpl.
    + split; [discriminate | intros [post H]; discriminate].
    + rewrite andb_true_iff, Ascii.eqb_eq, IH. split.
      * intros [-> [post ->]]. now exists post.
      * intros [post H]. injection H as -> ->. split; [reflexivity | now exists post].
Qed.

Lemma includes_spec (s sub : string) :
  Str.includes s sub = true <-> Str.occurs sub s.
Proof.
  unfold Str.occurs. induction s as [|c s IH].
  - simpl. rewrite orb_false_r, startsWith_spec. split.
    + intros [post H]. now exists "", post.
    + intros [pre [post H]]. destruct pre; [now exists post | discriminate].
  - cbn [Str.includes]. rewrite orb_true_iff, startsWith_spec, IH. split.
    + intros [[post H] | [pre [post H]]].
      * now exists "", post.
      * exists (String c pre), post. simpl. now rewrite H.
    + intros [pre [post H]]. destruct pre as [|c' pre].
      * left. now exists post.
      * right. simpl in H. injection H as _ H. now exists pre, post.
Qed.

Lemma includes_empty_l (sub : string) :
  Str.includes "" sub = true -> sub = "".
Proof.
  destruct sub; [reflexivity | discriminate].
Qed.

(** ** The classifier *)

Section ClassifierFacts.

Variable toUpperCase : string -> string.

Lemma someKeyword_spec (name : string) (keywords : list string) :
  someKeyword toUpperCase name keywords = true <-> hits toUpperCase name keywords.
Proof.
  unfold someKeyword, hits, ci_substring. rewrite existsb_exists.
  split; intros [kw [Hin H]]; exists kw; split; auto; now apply includes_spec.
Qed.

Lemma someKeyword_false (name : string) (keywords : list string) :
  someKeyword toUpperCase name keywords = false <-> ~ hits toUpperCase name keywords.
Proof.
  rewrite <- someKeyword_spec. destruct (someKeyword _ _ _); split; congruence.
Qed.

Lemma classifyIn_firstHit rules name i category :
  firstHit toUpperCase rules name i category ->
  classifyIn toUpperCase rules name = category.
Proof.
  revert i. induction rules as [|[c k] rest IH]; intros i [keywords [Hnth [Hhit Hbefore]]].
  - destruct i; discriminate.
  - simpl. destruct i as [|i]; simpl in Hnth.
    + injection Hnth as -> ->.
      apply someKeyword_spec in Hhit. now rewrite Hhit.
    + assert (Hk : someKeyword toUpperCase name k = false).
      { apply someKeyword_false. apply (Hbefore 0%nat c k); [lia | reflexivity]. }
      rewrite Hk. apply (IH i). exists keywords. repeat split; auto.
      intros j c' k' Hj Hn. apply (Hbefore (S j) c' k'); [lia | exact Hn].
Qed.

Lemma classifyIn_noHit rules name :
  noHit toUpperCase rules name ->
  classifyIn toUpperCase rules name = DEFAULT_CATEGORY.
Proof.
  induction rules as [|[c k] rest IH]; intros Hno; simpl.
  - reflexivity.
  - assert (Hk : someKeyword toUpperCase name k = false).
    { apply someKeyword_false. apply (Hno c). now left. }
    rewrite Hk. apply IH. intros c' k' Hin. apply (Hno c'). now right.
Qed.

(** The loop always ends in one of the two ways. *)
Lemma classifyIn_cases rules name :
  (exists i category, firstHit toUpperCase rules name i category)
  \/ noHit toUpperCase rules name.
Proof.
  induction rules as [|[c k] rest IH].
  - right. intros c k [].
  - destruct (someKeyword toUpperCase name k) eqn:Hk.
    + left. exists 0%nat, c, k. repeat split.
      * now apply someKeyword_spec.
      * intros j c' k' Hj. lia.
    + apply someKeyword_false in Hk. destruct IH as [[i [category [kws [Hn [Hh Hb]]]]] | Hno].
      * left. exists (S i), category, kws. repeat split; auto.
        intros [|j] c' k' Hj Hnth; simpl in Hnth.
        -- injection Hnth as <- <-. exact Hk.
        -- apply (Hb j c' k'); [lia | exact Hnth].
      * right. intros c' k' [Heq | Hin].
        -- injection Heq as <- <-. exact Hk.
        -- now apply (Hno c').
Qed.

(** The range of the classifier. *)
Lemma classifyIn_range rules name :
  In (classifyIn toUpperCase rules name) (map fst rules ++ [DEFAULT_CATEGORY])%list.
Proof.
  induction rules as [|[c k] rest IH]; simpl.
  - now left.
  - destruct (someKeyword toUpperCase name k); [now left | now right].
Qed.

(** C1, as the code has it.  [classifyItem] walks the rule table in the order it is declared
    (行銷推廣, 營運成本, 人力資源, 資訊技術) and returns the category of the
    first rule one of whose keywords occurs in the name, case ignored; when
    no rule hits it returns the default category 其他.  One of the two
    always happens (the function is total), and the empty name gets the
    default category, upper-casing being the empty string on the empty
    string only. *)
Theorem classifyItem_first_match :
  (forall s, toUpperCase s = "" <-> s = "") ->
  forall name,
    map fst CATEGORY_RULES = ["行銷推廣"; "營運成本"; "人力資源"; "資訊技術"]
    /\ (forall i category,
          firstHit toUpperCase CATEGORY_RULES name i category ->
          classifyItem toUpperCase name = category)
    /\ (noHit toUpperCase CATEGORY_RULES name ->
        classifyItem toUpperCase name = DEFAULT_CATEGORY)
    /\ ((exists i category, firstHit toUpperCase CATEGORY_RULES name i category)
        \/ noHit toUpperCase CATEGORY_RULES name)
    /\ classifyItem toUpperCase "" = DEFAULT_CATEGORY
    /\ DEFAULT_CATEGORY = "其他".
Proof.
  intros Hupper name. split; [reflexivity|].
  split; [intros i category; apply classifyIn_firstHit|].
  split; [apply classifyIn_noHit|].
  split; [apply classifyIn_cases|].
  split; [|reflexivity].
  apply classifyIn_noHit. intros c k Hin [kw [Hkw Hocc]].
  unfold ci_substring in Hocc. apply includes_spec in Hocc.
  rewrite (proj2 (Hupper "") eq_refl) in Hocc.
  apply includes_empty_l in Hocc. apply (proj1 (Hupper kw)) in Hocc. subst kw.
  simpl in Hin.
  repeat (destruct Hin as [Hin | Hin];
          [injection Hin as <- <-; simpl in Hkw; intuition discriminate|]).
  exact Hin.
Qed.

End ClassifierFacts.

(** ASCII upper-casing gives the empty string on the empty string only. *)
Lemma asciiUpperCase_empty (s : string) : Str.asciiUpperCase s = "" <-> s = "".
Proof.
  destruct s; simpl; split; congruence.
Qed.

(** The classifier on a lower-case spelling of a keyword and on the empty
    name, with ASCII upper-casing. *)
Lemma classifyItem_first_match_witness :
  (forall s, Str.asciiUpperCase s = "" <-> s = "")
  /\ classifyItem Str.asciiUpperCase "google 關鍵字" = "行銷推廣"
  /\ classifyItem Str.asciiUpperCase "" = "其他".
Proof.
  split; [exact asciiUpperCase_empty|].
  destruct (classifyItem_first_match Str.asciiUpperCase asciiUpperCase_empty "google 關鍵字")
    as [_ [Hfirst [_ [_ [Hempty _]]]]].
  split; [|exact Hempty].
  apply (Hfirst 0%nat). eexists. split; [reflexivity|]. split.
  - exists "Google". split; [simpl; tauto|]. apply includes_spec. vm_compute. reflexivity.
  - intros j c k Hj. lia.
Defined.

(** C1 as stated names the default category "Other"; the constant of the
    code is 其他, and that is what a name without a keyword gets. *)
Lemma classifyItem_default_counterexample :
  classifyItem Str.asciiUpperCase "" = "其他"
  /\ classifyItem Str.asciiUpperCase "雜項支出" = "其他"
  /\ classifyItem Str.asciiUpperCase "" <> "Other".
Proof.
  split; [reflexivity|]. split; [reflexivity|]. discriminate.
Qed.

(** ** The item store: [deleteItem] and [handleAddItem] *)

Lemma filter_id_absent (id : Z) (data : list Item.t) :
  ~ In id (ids data) ->
  filter (fun i => negb (Item.id i =? id)%Z) data = data.
Proof.
  induction data as [|x data IH]; simpl; intros Hni; [reflexivity|].
  destruct (Z.eqb_spec (Item.id x) id) as [Heq | Hne]; simpl.
  - exfalso. apply Hni. now left.
  - f_equal. apply IH. intros Hin. apply Hni. now right.
Qed.

Lemma filter_id_unique (id : Z) (data : list Item.t) :
  NoDup (ids data) -> In id (ids data) ->
  exists l1 x l2,
    data = (l1 ++ x :: l2)%list /\ Item.id x = id
    /\ filter (fun i => negb (Item.id i =? id)%Z) data = (l1 ++ l2)%list.
Proof.
  induction data as [|y data IH]; simpl; intros Hnd Hin; [contradiction|].
  inversion Hnd as [|? ? Hny Hnd']; subst.
  destruct (Z.eqb_spec (Item.id y) id) as [Heq | Hne]; simpl.
  - exists [], y, data. repeat split; auto.
    simpl. apply filter_id_absent. now rewrite <- Heq.
  - destruct Hin as [Hin | Hin]; [contradiction|].
    destruct (IH Hnd' Hin) as [l1 [x [l2 [Hd [Hx Hf]]]]].
    exists (y :: l1), x, l2. repeat split; auto.
    + simpl. now rewrite <- Hd.
    + simpl. now rewrite Hf.
Qed.

(** C7. Deleting an id that no item carries leaves the state as it is, the
    list in length and content; when the id is there, ids being unique, the
    one item that carries it is taken out and the others stay in their
    order.  In every case what is left is the items with another id, in
    their order, and the form state is not touched. *)
Theorem deleteItem_removes_the_item (id : Z) (st : State.t) :
  (~ In id (ids (State.data st)) -> deleteItem id st = st)
  /\ (NoDup (ids (State.data st)) -> In id (ids (State.data st)) ->
      exists l1 x l2,
        State.data st = (l1 ++ x :: l2)%list /\ Item.id x = id
        /\ State.data (deleteItem id st) = (l1 ++ l2)%list
        /\ List.length (State.data (deleteItem id st)) = pred (List.length (State.data st)))
  /\ State.data (deleteItem id st)
     = filter (fun i => negb (Item.id i =? id)%Z) (State.data st)
  /\ (forall x, In x (State.data (deleteItem id st))
                <-> In x (State.data st) /\ Item.id x <> id)
  /\ State.newItem (deleteItem id st) = State.newItem st.
Proof.
  destruct st as [data newItem]. unfold deleteItem. simpl.
  split; [intros Hni; now rewrite filter_id_absent|].
  split.
  - intros Hnd Hin. destruct (filter_id_unique id data Hnd Hin) as [l1 [x [l2 [Hd [Hx Hf]]]]].
    exists l1, x, l2. repeat split; auto.
    rewrite Hf, Hd, !length_app. simpl. lia.
  - split; [reflexivity|]. split; [|reflexivity].
    intros x. rewrite filter_In, negb_true_iff, Z.eqb_neq. tauto.
Qed.

Lemma falsy_spec (s : string) : falsy s = true <-> s = "".
Proof.
  destruct s; simpl; split; congruence.
Qed.

Lemma guard_spec (n : NewItem.t) :
  falsy (NewItem.name n) || falsy (NewItem.spend n) || falsy (NewItem.budget n) = true
  <-> someFieldEmpty n.
Proof.
  unfold someFieldEmpty. rewrite !orb_true_iff, !falsy_spec. tauto.
Qed.

(** ** The CSV export *)

Lemma append_assoc (a b c : string) : (a ++ b) ++ c = a ++ (b ++ c).
Proof.
  induction a as [|x a IH]; simpl; [reflexivity | now rewrite IH].
Qed.

Lemma append_nil_r (a : string) : a ++ "" = a.
Proof.
  induction a as [|x a IH]; simpl; [reflexivity | now rewrite IH].
Qed.

Lemma join_rows (h : string) (analyzed : list AnalyzedItem.t) :
  Str.join LF (h :: map csvRow analyzed) = h ++ rowLines analyzed.
Proof.
  revert h. induction analyzed as [|item rest IH]; intros h.
  - simpl. now rewrite append_nil_r.
  - change (Str.join LF (h :: map csvRow (item :: rest)))
      with (h ++ LF ++ Str.join LF (csvRow item :: map csvRow rest)).
    rewrite IH. cbn [rowLines].
    change (rowLine item) with (LF ++ csvRow item).
    now rewrite !append_assoc.
Qed.

Lemma rowLines_fileLines (analyzed : list AnalyzedItem.t) :
  rowLines analyzed = fileLines analyzed.
Proof.
  induction analyzed as [|item rest IH]; [reflexivity|].
  cbn [rowLines fileLines]. rewrite <- IH. reflexivity.
Qed.

(** C8. For a list that is not empty the handler produces a text that is the
    byte-order mark (the bytes EF BB BF of U+FEFF), the header row
    項目名稱,類別,支出金額,預算額度,使用百分比(%), and then one line per analyzed
    item, each begun by a line feed (byte 10), in the order of the list: name,
    category, spend, budget and the percentage followed by %, with commas
    between them and the name copied as it is, commas and quotes included. *)
Theorem handleDownloadCSV_text (today : string) (analyzed : list AnalyzedItem.t) :
  analyzed <> [] ->
  exists d,
    handleDownloadCSV today analyzed = Some d
    /\ csvContent d = fileText analyzed
    /\ csvContent d = BOM ++ headerRow ++ rowLines analyzed
    /\ Str.startsWith (csvContent d)
         (String "239" (String "187" (String "191"
            ("項目名稱,類別,支出金額,預算額度,使用百分比(%)" ++ String "010" "")))) = true
    /\ Str.startsWith (csvContent d) (BOM ++ headerRow ++ LF) = true.
Proof.
  intros Hne. unfold handleDownloadCSV.
  destruct analyzed as [|item rest]; [congruence|].
  cbn [List.length Nat.eqb]. eexists. split; [reflexivity|].
  cbn [csvContent]. rewrite join_rows.
  split; [unfold fileText; rewrite <- (rowLines_fileLines (item :: rest)); reflexivity|].
  split; [reflexivity|].
  split; apply startsWith_spec; eexists;
    cbn [rowLines]; unfold rowLine; rewrite ?append_assoc; reflexivity.
Qed.

(** The file of the seven initial items, byte-order mark and line feeds
    written out. *)
Lemma handleDownloadCSV_text_witness :
  analyzedData Str.asciiUpperCase initialData <> []
  /\ exists d,
       handleDownloadCSV "2024/1/31" (analyzedData Str.asciiUpperCase initialData) = Some d
       /\ csvContent d
          = String "239" (String "187" (String "191"
              ("項目名稱,類別,支出金額,預算額度,使用百分比(%)"
               ++ String "010" "辦公室租金,營運成本,50000,50000,100%"
               ++ String "010" "AWS 雲端伺服器,資訊技術,12500,15000,83.33%"
               ++ String "010" "Facebook 廣告投放,行銷推廣,32000,30000,106.67%"
               ++ String "010" "員工午餐補助,人力資源,6800,8000,85%"
               ++ String "010" "辦公室文具,營運成本,1500,1000,150%"
               ++ String "010" "專業責任保險,營運成本,15000,15000,100%"
               ++ String "010" "Google 關鍵字,行銷推廣,18000,25000,72%"))).
Proof.
  assert (Hne : analyzedData Str.asciiUpperCase initialData <> []) by discriminate.
  split; [exact Hne|].
  destruct (handleDownloadCSV_text "2024/1/31" _ Hne) as [d [Hd [Hc _]]].
  exists d. split; [exact Hd|]. rewrite Hc. vm_compute. reflexivity.
Defined.

(** C9. On the empty list the handler returns at its first line: there is no
    text, no blob and no download, and nothing fails.  The empty list is the
    only one on which it does so. *)
Theorem handleDownloadCSV_empty (toUpperCase : string -> string) (today : string) :
  handleDownloadCSV today [] = None
  /\ handleDownloadCSV today (analyzedData toUpperCase []) = None
  /\ forall analyzed, handleDownloadCSV today analyzed = None <-> analyzed = [].
Proof.
  split; [reflexivity|]. split; [reflexivity|].
  intros [|item rest]; unfold handleDownloadCSV; simpl; split; congruence.
Qed.

(** ** The aggregator *)

Lemma firstSeen_In (l : list string) (c : string) : In c (firstSeen l) <-> In c l.
Proof.
  induction l as [|x l IH]; simpl; [tauto|].
  rewrite filter_In, IH, negb_true_iff, String.eqb_neq.
  destruct (string_dec x c) as [-> | Hne]; [tauto|].
  split; [tauto|]. intros [H | H]; [tauto|]. right. split; congruence.
Qed.

Lemma firstSeen_NoDup (l : list string) : NoDup (firstSeen l).
Proof.
  induction l as [|x l IH]; simpl; constructor.
  - rewrite filter_In, negb_true_iff, String.eqb_neq. tauto.
  - now apply NoDup_filter.
Qed.

Lemma firstSeen_snoc (l : list string) (c : string) :
  firstSeen (l ++ [c])
  = (firstSeen l ++ if in_dec string_dec c l then [] else [c])%list.
Proof.
  induction l as [|x l IH]; simpl; [reflexivity|].
  f_equal. rewrite IH, filter_app. f_equal.
  destruct (in_dec string_dec c l) as [Hin | Hni]; simpl.
  - destruct (string_dec x c); [reflexivity | now destruct (in_dec string_dec c l)].
  - destruct (String.eqb_spec c x) as [-> | Hne]; simpl.
    + now destruct (string_dec x x).
    + destruct (string_dec x c); [congruence|].
      now destruct (in_dec string_dec c l).
Qed.

Lemma firstSeen_snoc_old (l : list string) (c : string) :
  In c l -> firstSeen (l ++ [c]) = firstSeen l.
Proof.
  intros Hin. rewrite firstSeen_snoc.
  destruct (in_dec string_dec c l); [apply app_nil_r | contradiction].
Qed.

Lemma firstSeen_snoc_new (l : list string) (c : string) :
  ~ In c l -> firstSeen (l ++ [c]) = (firstSeen l ++ [c])%list.
Proof.
  intros Hni. rewrite firstSeen_snoc.
  destruct (in_dec string_dec c l); [contradiction | reflexivity].
Qed.

Lemma filter_keeps_order {A : Type} (f : A -> bool) (l : list A) (i j : nat) (c d : A) :
  (i < j)%nat ->
  nth_error (filter f l) i = Some c -> nth_error (filter f l) j = Some d ->
  exists i' j', (i' < j')%nat /\ nth_error l i' = Some c /\ nth_error l j' = Some d.
Proof.
  revert i j. induction l as [|x l IH]; intros i j Hij Hi Hj; simpl in *.
  - destruct i; discriminate.
  - destruct (f x).
    + destruct j as [|j]; [lia|]. destruct i as [|i]; simpl in *.
      * assert (Hd : In d (filter f l)) by (eapply nth_error_In; eauto).
        apply filter_In in Hd. destruct Hd as [Hd _].
        apply In_nth_error in Hd. destruct Hd as [q Hq].
        exists 0%nat, (S q). repeat split; auto. lia.
      * destruct (IH i j ltac:(lia) Hi Hj) as [i' [j' [Hlt [Hc Hd]]]].
        exists (S i'), (S j'). repeat split; auto. lia.
    + destruct (IH i j Hij Hi Hj) as [i' [j' [Hlt [Hc Hd]]]].
      exists (S i'), (S j'). repeat split; auto. lia.
Qed.

Lemma firstSeen_order (l : list string) (i j : nat) (c d : string) :
  (i < j)%nat ->
  nth_error (firstSeen l) i = Some c -> nth_error (firstSeen l) j = Some d ->
  seenBefore l c d.
Proof.
  revert i j. induction l as [|x l IH]; intros i j Hij Hi Hj; simpl in *.
  - destruct i; discriminate.
  - destruct j as [|j]; [lia|]. simpl in Hj.
    assert (Hdx : d <> x).
    { apply nth_error_In in Hj. apply filter_In in Hj.
      destruct Hj as [_ Hj]. now apply negb_true_iff, String.eqb_neq in Hj. }
    destruct i as [|i]; simpl in Hi.
    + injection Hi as <-. exists 0%nat. split; [reflexivity|].
      intros [|q] Hq; simpl in Hq; [congruence | lia].
    + destruct (filter_keeps_order _ _ i j c d ltac:(lia) Hi Hj) as [i' [j' [Hlt [Hc Hd]]]].
      destruct (IH i' j' Hlt Hc Hd) as [p [Hp Hall]].
      exists (S p). split; [exact Hp|].
      intros [|q] Hq; simpl in Hq; [congruence|]. apply Hall in Hq. lia.
Qed.

Lemma getProperty_None (o : SummaryObject) (k : string) :
  getProperty o k = None <-> ~ In k (map fst o).
Proof.
  induction o as [|[k' v] o IH]; simpl; [tauto|].
  destruct (String.eqb_spec k' k) as [-> | Hne].
  - split; [discriminate | tauto].
  - rewrite IH. tauto.
Qed.

Lemma updateProperty_keys k f (o : SummaryObject) :
  map fst (updateProperty k f o) = map fst o.
Proof.
  unfold updateProperty. rewrite map_map. apply map_ext.
  intros [k' v]. simpl. now destruct (String.eqb k' k).
Qed.

Lemma updateProperty_absent k f (o : SummaryObject) :
  ~ In k (map fst o) -> updateProperty k f o = o.
Proof.
  unfold updateProperty. induction o as [|[k' v] o IH]; simpl; intros Hni; [reflexivity|].
  destruct (String.eqb_spec k' k) as [-> | Hne]; [tauto|].
  f_equal. apply IH. tauto.
Qed.

Lemma updateProperty_app k f (o1 o2 : SummaryObject) :
  updateProperty k f (o1 ++ o2)%list = (updateProperty k f o1 ++ updateProperty k f o2)%list.
Proof.
  unfold updateProperty. apply map_app.
Qed.

Lemma sumOf_snoc (xs : list float) (x : float) :
  sumOf (xs ++ [x]) = (sumOf xs + x)%float.
Proof.
  unfold sumOf. now rewrite fold_left_app.
Qed.

Lemma itemsOf_snoc c (l : list AnalyzedItem.t) (a : AnalyzedItem.t) :
  itemsOf c (l ++ [a])
  = (itemsOf c l ++ if String.eqb (AnalyzedItem.category a) c then [a] else [])%list.
Proof.
  unfold itemsOf. now rewrite filter_app.
Qed.

Lemma itemsOf_absent c (l : list AnalyzedItem.t) :
  ~ In c (categories l) -> itemsOf c l = [].
Proof.
  unfold itemsOf, categories. induction l as [|a l IH]; simpl; intros Hni; [reflexivity|].
  destruct (String.eqb_spec (AnalyzedItem.category a) c) as [Heq | Hne]; [tauto|].
  apply IH. tauto.
Qed.

Lemma entryOk_step_other l a k v :
  k <> AnalyzedItem.category a -> entryOk l (k, v) -> entryOk (l ++ [a]) (k, v).
Proof.
  unfold entryOk. simpl. intros Hne [Hn [Hs Hb]].
  rewrite itemsOf_snoc.
  destruct (String.eqb_spec (AnalyzedItem.category a) k) as [Heq | _]; [congruence|].
  now rewrite app_nil_r.
Qed.

Lemma entryOk_step_same l a v :
  entryOk l (AnalyzedItem.category a, v) ->
  entryOk (l ++ [a])
    (AnalyzedItem.category a,
     CategorySummary.mk (CategorySummary.name v)
       (CategorySummary.spend v + AnalyzedItem.spend a)
       (CategorySummary.budget v + AnalyzedItem.budget a)).
Proof.
  unfold entryOk. simpl. intros [Hn [Hs Hb]].
  rewrite itemsOf_snoc, String.eqb_refl, !map_app. cbn [map].
  rewrite !sumOf_snoc. now rewrite Hs, Hb.
Qed.

Lemma updateProperty_twice (a : AnalyzedItem.t) (o : SummaryObject) :
  updateProperty (AnalyzedItem.category a)
    (fun s => CategorySummary.mk (CategorySummary.name s) (CategorySummary.spend s)
                (CategorySummary.budget s + AnalyzedItem.budget a))
    (updateProperty (AnalyzedItem.category a)
       (fun s => CategorySummary.mk (CategorySummary.name s)
                   (CategorySummary.spend s + AnalyzedItem.spend a)
                   (CategorySummary.budget s))
       o)
  = updateProperty (AnalyzedItem.category a)
      (fun s => CategorySummary.mk (CategorySummary.name s)
                  (CategorySummary.spend s + AnalyzedItem.spend a)
                  (CategorySummary.budget s + AnalyzedItem.budget a))
      o.
Proof.
  unfold updateProperty. rewrite map_map. apply map_ext.
  intros [k v]. simpl. destruct (String.eqb k (AnalyzedItem.category a)) eqn:Hk; simpl.
  - now rewrite Hk.
  - now rewrite Hk.
Qed.

Lemma entries_step l a (o : SummaryObject) :
  Forall (entryOk l) o ->
  Forall (entryOk (l ++ [a]))
    (updateProperty (AnalyzedItem.category a)
       (fun s => CategorySummary.mk (CategorySummary.name s)
                   (CategorySummary.spend s + AnalyzedItem.spend a)
                   (CategorySummary.budget s + AnalyzedItem.budget a))
       o).
Proof.
  unfold updateProperty. intros H. apply Forall_map. revert H. apply Forall_impl.
  intros [k v] Hkv. simpl.
  destruct (String.eqb_spec k (AnalyzedItem.category a)) as [-> | Hne].
  - now apply entryOk_step_same.
  - now apply entryOk_step_other.
Qed.

Lemma summaryStep_inv l a o :
  summaryInv l o -> summaryInv (l ++ [a]) (summaryStep o a).
Proof.
  intros [Hkeys Hall]. unfold summaryStep. rewrite updateProperty_twice.
  destruct (getProperty o (AnalyzedItem.category a)) eqn:Hget.
  - assert (Hin : In (AnalyzedItem.category a) (categories l)).
    { apply firstSeen_In. rewrite <- Hkeys.
      destruct (in_dec string_dec (AnalyzedItem.category a) (map fst o)) as [H | H]; [exact H|].
      apply getProperty_None in H. congruence. }
    split.
    + rewrite updateProperty_keys, Hkeys. unfold categories. rewrite map_app. simpl.
      symmetry. now apply firstSeen_snoc_old.
    + now apply entries_step.
  - apply getProperty_None in Hget.
    assert (Hni : ~ In (AnalyzedItem.category a) (categories l)).
    { rewrite <- firstSeen_In, <- Hkeys. exact Hget. }
    split.
    + rewrite updateProperty_keys, map_app, Hkeys. unfold categories. rewrite map_app. simpl.
      symmetry. now apply firstSeen_snoc_new.
    + rewrite updateProperty_app. apply Forall_app. split.
      * now apply entries_step.
      * simpl. rewrite String.eqb_refl. constructor; [|constructor].
        unfold entryOk. simpl.
        rewrite itemsOf_snoc, String.eqb_refl, (itemsOf_absent _ _ Hni). simpl.
        repeat split; reflexivity.
Qed.

Lemma fold_summaryStep_inv (l : list AnalyzedItem.t) :
  summaryInv l (fold_left summaryStep l []).
Proof.
  induction l as [|a l IH] using rev_ind.
  - split; [reflexivity | constructor].
  - rewrite fold_left_app. simpl. now apply summaryStep_inv.
Qed.

(** The aggregator on any list of entries whose categories are categories of
    the classifier. *)
Lemma categorySummary_spec (analyzed : list AnalyzedItem.t) :
  map CategorySummary.name (categorySummary analyzed) = firstSeen (categories analyzed)
  /\ forall s, In s (categorySummary analyzed) ->
       CategorySummary.spend s
       = sumOf (map AnalyzedItem.spend (itemsOf (CategorySummary.name s) analyzed))
       /\ CategorySummary.budget s
          = sumOf (map AnalyzedItem.budget (itemsOf (CategorySummary.name s) analyzed)).
Proof.
  destruct (fold_summaryStep_inv analyzed) as [Hkeys Hall]. unfold categorySummary. split.
  - rewrite <- Hkeys. rewrite map_map. apply map_ext_in.
    intros [k v] Hin. rewrite Forall_forall in Hall. now destruct (Hall _ Hin).
  - intros s Hs. apply in_map_iff in Hs. destruct Hs as [[k v] [<- Hin]].
    rewrite Forall_forall in Hall. destruct (Hall _ Hin) as [Hn [Hsp Hb]].
    simpl in *. now rewrite Hn.
Qed.

Lemma categories_analyzedData toUpperCase (data : list Item.t) :
  categories (analyzedData toUpperCase data)
  = map (fun item => classifyItem toUpperCase (Item.name item)) data.
Proof.
  unfold categories, analyzedData. rewrite map_map. reflexivity.
Qed.

(** C4. The summaries of the analyzed items are one per category that
    occurs among them, each category once, in the order in which the
    categories first occur in the list: nothing is sorted and no category
    without an item gets an entry.  The spend and the budget of a summary
    are the sums of the spends and of the budgets of the items of its
    category, added in the order of the list. *)
Theorem categorySummary_first_seen (toUpperCase : string -> string) (data : list Item.t) :
  let analyzed := analyzedData toUpperCase data in
  let out := categorySummary analyzed in
  map CategorySummary.name out = firstSeen (categories analyzed)
  /\ NoDup (map CategorySummary.name out)
  /\ (forall c, In c (map CategorySummary.name out) <-> In c (categories analyzed))
  /\ (forall i j s t,
        (i < j)%nat -> nth_error out i = Some s -> nth_error out j = Some t ->
        seenBefore (categories analyzed) (CategorySummary.name s) (CategorySummary.name t))
  /\ (forall s, In s out ->
        CategorySummary.spend s
        = sumOf (map AnalyzedItem.spend (itemsOf (CategorySummary.name s) analyzed))
        /\ CategorySummary.budget s
           = sumOf (map AnalyzedItem.budget (itemsOf (CategorySummary.name s) analyzed))).
Proof.
  intros analyzed out.
  destruct (categorySummary_spec analyzed) as [Hnames Hsums]. fold out in Hnames, Hsums.
  split; [exact Hnames|].
  split; [rewrite Hnames; apply firstSeen_NoDup|].
  split; [intros c; rewrite Hnames; apply firstSeen_In|].
  split; [|exact Hsums].
  intros i j s t Hij Hi Hj.
  apply (firstSeen_order _ i j); [exact Hij | |]; rewrite <- Hnames.
  - now apply map_nth_error.
  - now apply map_nth_error.
Qed.

(** C10. The classifier returns one of five values, the four categories of
    the rule table or the default one, so the aggregator never produces more
    than five summaries. *)
Theorem classifyItem_five_categories (toUpperCase : string -> string) :
  (forall name,
     In (classifyItem toUpperCase name)
        ["行銷推廣"; "營運成本"; "人力資源"; "資訊技術"; "其他"])
  /\ (forall data,
        (List.length (categorySummary (analyzedData toUpperCase data)) <= 5)%nat).
Proof.
  assert (Hrange : forall name,
             In (classifyItem toUpperCase name)
                ["行銷推廣"; "營運成本"; "人力資源"; "資訊技術"; "其他"]).
  { intros name. exact (classifyIn_range toUpperCase CATEGORY_RULES name). }
  split; [exact Hrange|].
  intros data.
  destruct (categorySummary_spec (analyzedData toUpperCase data)) as [Hnames _].
  rewrite <- (length_map CategorySummary.name), Hnames.
  change 5%nat with (List.length ["行銷推廣"; "營運成本"; "人力資源"; "資訊技術"; "其他"]).
  apply NoDup_incl_length; [apply firstSeen_NoDup|].
  intros c Hc. apply (proj1 (firstSeen_In _ _)) in Hc.
  rewrite categories_analyzedData in Hc. apply in_map_iff in Hc.
  destruct Hc as [item [<- _]]. apply Hrange.
Qed.

(** Each of the five categories is reached, and five summaries with them. *)
Example five_categories_reached :
  let data :=
    [ Item.mk 1 "seo" 1 1; Item.mk 2 "租金" 1 1; Item.mk 3 "薪資" 1 1;
      Item.mk 4 "aws" 1 1; Item.mk 5 "雜項" 1 1 ] in
  map CategorySummary.name (categorySummary (analyzedData Str.asciiUpperCase data))
  = ["行銷推廣"; "營運成本"; "人力資源"; "資訊技術"; "其他"].
Proof.
  reflexivity.
Qed.

(** ** Numbers: zero, order, and what is not finite *)

Lemma Prim2SF_zero : Prim2SF 0 = S754_zero false.
Proof.
  reflexivity.
Qed.

Lemma SF2Prim_eq (x : float) (s : spec_float) : Prim2SF x = s -> x = SF2Prim s.
Proof.
  intros <-. symmetry. apply SF2Prim_Prim2SF.
Qed.

(** [y == 0]: [y] is one of the two zeros. *)
Lemma eqb_zero_spec (y : float) :
  (y =? 0)%float = true -> exists s, Prim2SF y = S754_zero s.
Proof.
  rewrite eqb_spec, Prim2SF_zero. unfold SFeqb.
  destruct (Prim2SF y) as [s | s | | s m e]; simpl; try discriminate.
  - intros _. now exists s.
  - now destruct s.
  - now destruct s.
Qed.

(** [budget <= 0] excludes [0 < budget]. *)
Lemma leb_zero_not_ltb (b : float) :
  (b <=? 0)%float = true -> (0 <? b)%float = false.
Proof.
  rewrite leb_spec, ltb_spec, Prim2SF_zero. unfold SFleb, SFltb.
  destruct (Prim2SF b) as [s | s | | s m e]; simpl; try reflexivity; try discriminate.
  - now destruct s.
  - now destruct s.
Qed.

Lemma div_by_zero_times_100 (x y : float) :
  (y =? 0)%float = true -> indeterminate (x / y * 100)%float.
Proof.
  intros Hy. destruct (eqb_zero_spec y Hy) as [s Hs].
  assert (H : Prim2SF (x / y * 100)%float = S754_nan
              \/ exists s', Prim2SF (x / y * 100)%float = S754_infinity s').
  { rewrite mul_spec, div_spec, Hs.
    replace (Prim2SF 100) with (S754_finite false 7036874417766400 (-46)) by reflexivity.
    destruct (Prim2SF x) as [sx | sx | | sx mx ex]; simpl; eauto. }
  unfold indeterminate. destruct H as [H | [s' H]]; apply SF2Prim_eq in H; rewrite H.
  - now left.
  - right. destruct s'; simpl; auto.
Qed.

Lemma fold_left_map_add {A : Type} (f : A -> float) (l : list A) (init : float) :
  fold_left (fun sum i => (sum + f i)%float) l init
  = fold_left (fun acc x => (acc + x)%float) (map f l) init.
Proof.
  revert init. induction l as [|a l IH]; intros init; simpl; [reflexivity | apply IH].
Qed.

(** C6. [totalSpend] and [totalBudget] are the plain sums of the spends and
    of the budgets of the analyzed items, and [overallPercentage] is their
    quotient times 100 with no test on the divisor: when the total budget is
    zero the result is no value, [NaN] or an infinity ([NaN] on the empty
    list). *)
Theorem overallPercentage_unguarded (analyzed : list AnalyzedItem.t) :
  totalSpend analyzed = sumOf (map AnalyzedItem.spend analyzed)
  /\ totalBudget analyzed = sumOf (map AnalyzedItem.budget analyzed)
  /\ overallPercentage analyzed
     = (sumOf (map AnalyzedItem.spend analyzed)
        / sumOf (map AnalyzedItem.budget analyzed) * 100)%float
  /\ ((totalBudget analyzed =? 0)%float = true -> indeterminate (overallPercentage analyzed))
  /\ overallPercentage [] = nan.
Proof.
  assert (Hs : totalSpend analyzed = sumOf (map AnalyzedItem.spend analyzed))
    by apply fold_left_map_add.
  assert (Hb : totalBudget analyzed = sumOf (map AnalyzedItem.budget analyzed))
    by apply fold_left_map_add.
  split; [exact Hs|]. split; [exact Hb|].
  split; [unfold overallPercentage; now rewrite Hs, Hb|].
  split; [|reflexivity].
  intros Hz. now apply div_by_zero_times_100.
Qed.

(** A spend against budgets that are all zero. *)
Example overallPercentage_zero_budget :
  let analyzed := analyzedData Str.asciiUpperCase [Item.mk 1 "租金" 500 0; Item.mk 2 "水電" 0 0] in
  totalBudget analyzed = 0%float /\ overallPercentage analyzed = infinity.
Proof.
  cbv zeta. split; reflexivity.
Qed.

(** ** Numbers: digit strings *)

Lemma length_append (a b : string) :
  String.length (a ++ b) = (String.length a + String.length b)%nat.
Proof.
  induction a as [|c a IH]; simpl; [reflexivity | now rewrite IH].
Qed.

Lemma take_drop (n : nat) (s : string) : Str.take n s ++ Str.drop n s = s.
Proof.
  revert s. induction n as [|n IH]; intros [|c s]; simpl; try reflexivity.
  now rewrite IH.
Qed.

Lemma length_drop (n : nat) (s : string) :
  String.length (Str.drop n s) = (String.length s - n)%nat.
Proof.
  revert s. induction n as [|n IH]; intros [|c s]; simpl; try reflexivity. apply IH.
Qed.

Lemma length_repeat (c : ascii) (n : nat) : String.length (Str.repeat c n) = n.
Proof.
  induction n as [|n IH]; simpl; [reflexivity | now rewrite IH].
Qed.

Lemma allDigits_app (a b : string) :
  allDigits (a ++ b) = allDigits a && allDigits b.
Proof.
  induction a as [|c a IH]; simpl; [reflexivity | now rewrite IH, andb_assoc].
Qed.

Lemma allDigits_repeat_0 (n : nat) : allDigits (Str.repeat "0" n) = true.
Proof.
  induction n as [|n IH]; simpl; [reflexivity | exact IH].
Qed.

Lemma valFrom_app (acc : Z) (a b : string) :
  valFrom acc (a ++ b) = valFrom (valFrom acc a) b.
Proof.
  revert acc. induction a as [|c a IH]; intros acc; simpl; [reflexivity | apply IH].
Qed.

Lemma valFrom_repeat_0 (n : nat) : valFrom 0 (Str.repeat "0" n) = 0%Z.
Proof.
  induction n as [|n IH]; simpl; [reflexivity | exact IH].
Qed.

(** A run of digits is read to its end. *)
Lemma digits_run (s rest : string) (acc len : Z) :
  allDigits s = true ->
  match rest with
  | EmptyString => True
  | String c _ => Num.isDigit c = false
  end ->
  Num.digits (s ++ rest) acc len = (valFrom acc s, (len + Z.of_nat (String.length s))%Z, rest).
Proof.
  revert acc len. induction s as [|c s IH]; intros acc len Hs Hrest.
  - simpl. rewrite Z.add_0_r. destruct rest as [|c r]; [reflexivity|].
    simpl. now rewrite Hrest.
  - simpl in Hs. apply andb_true_iff in Hs. destruct Hs as [Hc Hs].
    cbn [append Num.digits valFrom String.length]. rewrite Hc, IH by assumption.
    f_equal. f_equal. lia.
Qed.

Lemma allDigits_uint (d : Decimal.uint) : allDigits (NilEmpty.string_of_uint d) = true.
Proof.
  induction d; simpl; auto.
Qed.

Lemma valFrom_uint_pos (d : Decimal.uint) (p : positive) :
  valFrom (Zpos p) (NilEmpty.string_of_uint d) = Zpos (Pos.of_uint_acc d p).
Proof.
  revert p. induction d; intros p; cbn [NilEmpty.string_of_uint valFrom Pos.of_uint_acc];
    [reflexivity | rewrite <- IHd; f_equal; unfold Num.digitVal ..].
  all: match goal with
       | |- context [Z.of_nat (nat_of_ascii ?c)] =>
           let v := eval vm_compute in (Z.of_nat (nat_of_ascii c)) in
           change (Z.of_nat (nat_of_ascii c)) with v
       end; lia.
Qed.

Lemma valFrom_uint (d : Decimal.uint) :
  valFrom 0 (NilEmpty.string_of_uint d) = Z.of_N (Pos.of_uint d).
Proof.
  induction d; cbn [NilEmpty.string_of_uint valFrom Pos.of_uint];
    [reflexivity | exact IHd | apply (valFrom_uint_pos d) ..].
Qed.

Lemma decimal_allDigits (n : Z) : allDigits (Num.decimal n) = true.
Proof.
  unfold Num.decimal, NilZero.string_of_uint.
  destruct (N.to_uint (Z.to_N n)) eqn:Hd; try reflexivity;
    rewrite <- Hd; apply allDigits_uint.
Qed.

Lemma decimal_value (n : Z) : (0 <= n)%Z -> valFrom 0 (Num.decimal n) = n.
Proof.
  intros Hn. unfold Num.decimal, NilZero.string_of_uint.
  assert (H : Z.of_N (N.of_uint (N.to_uint (Z.to_N n))) = n).
  { rewrite DecimalN.Unsigned.of_to. now apply Z2N.id. }
  unfold N.of_uint in H.
  destruct (N.to_uint (Z.to_N n)) eqn:Hd;
    [exact H | rewrite <- H; apply (valFrom_uint (_ u)) ..].
Qed.

Lemma decimal_nonempty (n : Z) : (1 <= String.length (Num.decimal n))%nat.
Proof.
  unfold Num.decimal, NilZero.string_of_uint.
  destruct (N.to_uint (Z.to_N n)); simpl; lia.
Qed.

Lemma digits_all (s : string) (acc len : Z) :
  allDigits s = true ->
  Num.digits s acc len = (valFrom acc s, (len + Z.of_nat (String.length s))%Z, "").
Proof.
  intros Hs. rewrite <- (append_nil_r s) at 1. now apply digits_run.
Qed.

Lemma digit_cases (c : ascii) :
  Num.isDigit c = true ->
  In c ["0"; "1"; "2"; "3"; "4"; "5"; "6"; "7"; "8"; "9"]%char.
Proof.
  destruct c as [[] [] [] [] [] [] [] []]; vm_compute; intros H;
    try discriminate H; tauto.
Qed.

Lemma whiteSpaceLen_digit (c : ascii) (r : string) :
  Num.isDigit c = true -> Num.whiteSpaceLen (String c r) = 0%nat.
Proof.
  intros Hc. apply digit_cases in Hc. simpl in Hc.
  repeat (destruct Hc as [<- | Hc]; [destruct r as [|c2 [|c3 r]]; reflexivity|]).
  contradiction.
Qed.

Lemma whiteSpaceLen_minus (r : string) : Num.whiteSpaceLen (String "-" r) = 0%nat.
Proof.
  destruct r as [|c2 [|c3 r]]; reflexivity.
Qed.

Lemma trimStart_none (s : string) : Num.whiteSpaceLen s = 0%nat -> Num.trimStart s = s.
Proof.
  intros H. unfold Num.trimStart. destruct (String.length s); simpl; [reflexivity|].
  now rewrite H.
Qed.

(** What [parseFloat] reads in a sign, digits, a point and digits. *)
Lemma parseFloat_fixed (neg : bool) (ip fp : string) :
  allDigits ip = true -> ip <> "" -> allDigits fp = true ->
  Num.parseFloat ((if neg then "-" else "") ++ ip ++ "." ++ fp)
  = Num.ofDecimal neg (valFrom 0 (ip ++ fp)) (- Z.of_nat (String.length fp)).
Proof.
  intros Hip Hne Hfp.
  destruct ip as [|c ip']; [congruence|].
  assert (Hc : Num.isDigit c = true) by (simpl in Hip; now apply andb_true_iff in Hip).
  assert (Hbody : forall u, u = String c ip' ++ "." ++ fp ->
            (if Str.startsWith u "Infinity" then (if neg then neg_infinity else infinity)
             else
               let '(int, ilen, r1) := Num.digits u 0 0 in
               match r1 with
               | String "." r2 =>
                   let '(M, flen, r3) := Num.digits r2 int 0 in
                   if ((ilen =? 0) && (flen =? 0))%Z then nan
                   else Num.ofDecimal neg M (Num.exponentPart r3 - flen)
               | _ =>
                   if (ilen =? 0)%Z then nan else Num.ofDecimal neg int (Num.exponentPart r1)
               end)
            = Num.ofDecimal neg (valFrom 0 (String c ip' ++ fp))
                (- Z.of_nat (String.length fp))).
  { intros u ->.
    assert (Hinf : Str.startsWith (String c ip' ++ "." ++ fp) "Infinity" = false).
    { pose proof (digit_cases c Hc) as Hd. simpl in Hd.
      repeat (destruct Hd as [<- | Hd]; [reflexivity|]). contradiction. }
    rewrite Hinf.
    rewrite (digits_run (String c ip') ("." ++ fp) 0 0 Hip) by reflexivity.
    cbn [append]. rewrite (digits_all fp _ 0 Hfp).
    replace ((0 + Z.of_nat (String.length (String c ip')) =? 0)%Z) with false
      by (symmetry; apply Z.eqb_neq; simpl String.length; lia).
    cbn [andb]. change (String c (ip' ++ fp)) with (String c ip' ++ fp).
    rewrite valFrom_app. f_equal. }
  unfold Num.parseFloat. destruct neg.
  - cbn [append]. rewrite trimStart_none by apply whiteSpaceLen_minus.
    now apply Hbody.
  - cbn [append]. rewrite trimStart_none by now apply whiteSpaceLen_digit.
    pose proof (digit_cases c Hc) as Hd. simpl in Hd.
    repeat (destruct Hd as [<- | Hd]; [now apply Hbody|]). contradiction.
Qed.

Lemma fixedDigits_2_parts (n : Z) :
  (0 <= n)%Z ->
  exists ip fp,
    Num.fixedDigits n 2 = ip ++ "." ++ fp
    /\ allDigits ip = true /\ ip <> "" /\ allDigits fp = true
    /\ String.length fp = 2%nat /\ valFrom 0 (ip ++ fp) = n.
Proof.
  intros Hn. unfold Num.fixedDigits. cbn [Nat.eqb].
  set (ds := Num.decimal n).
  set (ds' := if (String.length ds <=? 2)%nat
              then Str.repeat "0" (2 + 1 - String.length ds) ++ ds else ds).
  assert (Hall : allDigits ds' = true).
  { unfold ds'. destruct (String.length ds <=? 2)%nat.
    - rewrite allDigits_app. apply andb_true_iff.
      split; [apply allDigits_repeat_0 | apply decimal_allDigits].
    - apply decimal_allDigits. }
  assert (Hval : valFrom 0 ds' = n).
  { unfold ds'. destruct (String.length ds <=? 2)%nat.
    - rewrite valFrom_app, valFrom_repeat_0. now apply decimal_value.
    - now apply decimal_value. }
  assert (Hlen : (3 <= String.length ds')%nat).
  { unfold ds'. pose proof (decimal_nonempty n) as H1. fold ds in H1.
    destruct (Nat.leb_spec (String.length ds) 2).
    - rewrite length_append, length_repeat. lia.
    - lia. }
  exists (Str.take (String.length ds' - 2) ds'), (Str.drop (String.length ds' - 2) ds').
  pose proof (take_drop (String.length ds' - 2) ds') as Htd.
  rewrite <- Htd in Hall at 1. rewrite allDigits_app in Hall.
  apply andb_true_iff in Hall. destruct Hall as [Hi Hf].
  assert (Hlf : String.length (Str.drop (String.length ds' - 2) ds') = 2%nat)
    by (rewrite length_drop; lia).
  repeat split; auto.
  - intros Hnil. apply (f_equal String.length) in Htd.
    rewrite length_append, Hnil, Hlf in Htd. simpl in Htd. lia.
  - now rewrite Htd.
Qed.

Lemma roundScaled_nonneg (m : positive) (e f : Z) : (0 <= Num.roundScaled m e f)%Z.
Proof.
  unfold Num.roundScaled. destruct (Z.leb_spec 0 e) as [He | He].
  - apply Z.mul_nonneg_nonneg; [apply Z.mul_nonneg_nonneg|]; try lia;
      apply Z.pow_nonneg; lia.
  - assert (0 <= 10 ^ f)%Z by (apply Z.pow_nonneg; lia).
    assert (0 <= 2 ^ (- e))%Z by (apply Z.pow_nonneg; lia).
    assert (0 < 2 ^ (- e + 1))%Z by (apply Z.pow_pos_nonneg; lia).
    apply Z.div_pos; nia.
Qed.

(** [roundScaled m e f] is the integer nearest to [m × 2^e × 10^f], the
    larger one when two are as near: with [n] for it,
    [n - 1/2 <= m × 2^e × 10^f < n + 1/2]. *)
Lemma roundScaled_nearest (m : positive) (e f : Z) :
  let n := Num.roundScaled m e f in
  ((2 * n - 1) * 2 ^ Z.max (- e) 0 <= 2 * (Zpos m * 2 ^ Z.max e 0 * 10 ^ f)
   < (2 * n + 1) * 2 ^ Z.max (- e) 0)%Z.
Proof.
  unfold Num.roundScaled. destruct (Z.leb_spec 0 e) as [He | He]; cbv zeta.
  - rewrite (Z.max_r (- e) 0), (Z.max_l e 0) by lia. simpl (2 ^ 0)%Z. lia.
  - rewrite (Z.max_l (- e) 0), (Z.max_r e 0) by lia. simpl (2 ^ 0)%Z.
    replace (2 ^ (- e + 1))%Z with (2 * 2 ^ (- e))%Z
      by (rewrite Z.pow_add_r by lia; simpl (2 ^ 1)%Z; lia).
    assert (HD : (0 < 2 ^ (- e))%Z) by (apply Z.pow_pos_nonneg; lia).
    set (D := (2 ^ (- e))%Z) in *. set (A := (2 * Z.pos m * 10 ^ f + D)%Z).
    pose proof (Z.div_mod A (2 * D) ltac:(lia)) as Hdm.
    pose proof (Z.mod_pos_bound A (2 * D) ltac:(lia)) as Hmod.
    unfold A in *. nia.
Qed.

(** The detour of the code through the decimal string is a rounding to two
    decimals. *)
Lemma round2_roundTo2 (x r : float) : roundTo2 x = Some r -> round2 x = r.
Proof.
  unfold roundTo2, round2, Num.toFixed.
  destruct (Prim2SF x) as [s | s | | neg m e] eqn:Hx.
  - intros [= <-]. reflexivity.
  - intros [= <-]. now destruct s.
  - intros [= <-]. reflexivity.
  - destruct (Num.ltPow10 m e 21); [|discriminate]. intros [= <-].
    destruct (fixedDigits_2_parts (Num.roundScaled m e 2) (roundScaled_nonneg m e 2))
      as [ip [fp [Hparts [Hip [Hne [Hfp [Hlen Hval]]]]]]].
    change (Z.of_nat 2) with 2%Z. rewrite Hparts.
    pose proof (parseFloat_fixed neg ip fp Hip Hne Hfp) as Hp.
    rewrite Hval, Hlen in Hp. destruct neg; exact Hp.
Qed.

(** ** The analyzer *)

Lemma round2_zero : round2 0 = 0%float.
Proof.
  reflexivity.
Qed.

Lemma analyzeItem_percentage toUpperCase (item : Item.t) :
  AnalyzedItem.percentage (analyzeItem toUpperCase item)
  = if (0 <? Item.budget item)%float
    then round2 (Item.spend item / Item.budget item * 100)
    else 0%float.
Proof.
  unfold analyzeItem. cbn [AnalyzedItem.percentage].
  destruct (0 <? Item.budget item)%float; reflexivity.
Qed.

Local Open Scope Z_scope.

(** Two items worked out by hand: 32000 of 30000 and 1500 of 1000. *)
Example analyzeItem_facebook :
  let a := analyzeItem Str.asciiUpperCase (Item.mk 3 "Facebook 廣告投放" 32000 30000) in
  AnalyzedItem.category a = "行銷推廣"
  /\ Num.toString (AnalyzedItem.percentage a) = "106.67"
  /\ roundTo2 (32000 / 30000 * 100) = Some (AnalyzedItem.percentage a).
Proof.
  cbv zeta. repeat split; reflexivity.
Qed.

Example analyzeItem_stationery :
  let a := analyzeItem Str.asciiUpperCase (Item.mk 5 "辦公室文具" 1500 1000) in
  AnalyzedItem.category a = "營運成本" /\ AnalyzedItem.percentage a = 150%float.
Proof.
  cbv zeta. split; reflexivity.
Qed.

(** A budget of zero, and one that is no number. *)
Example analyzeItem_no_budget :
  AnalyzedItem.percentage (analyzeItem Str.asciiUpperCase (Item.mk 8 "差旅" 1200 0)) = 0%float
  /\ AnalyzedItem.percentage (analyzeItem Str.asciiUpperCase (Item.mk 9 "差旅" 1200 nan))
     = 0%float.
Proof.
  split; reflexivity.
Qed.

(** ** Numbers: integers are added exactly *)

Lemma digits2_log2 (p : positive) : Zpos (digits2_pos p) = Z.log2 (Zpos p) + 1.
Proof.
  assert (H : forall q, digits2_pos q = Pos.size q).
  { induction q; simpl; congruence. }
  rewrite H. destruct p; simpl; rewrite ?Pos2Z.inj_succ; try lia; reflexivity.
Qed.

Lemma iter_xO (p k : positive) : Zpos (Pos.iter xO p k) = Zpos p * 2 ^ Zpos k.
Proof.
  change (Pos.iter xO p k) with (shift_pos k p).
  rewrite shift_pos_correct, Z.pow_pos_fold. lia.
Qed.

Lemma shr_1_even (m : Z) :
  0 <= m -> shr_1 (Build_shr_record (2 * m) false false) = Build_shr_record m false false.
Proof.
  intros Hm. destruct m as [|q|q]; [reflexivity | reflexivity | lia].
Qed.

Lemma iter_shr_exact (k : positive) (m : Z) :
  0 <= m ->
  iter_pos shr_1 k (Build_shr_record (m * 2 ^ Zpos k) false false)
  = Build_shr_record m false false.
Proof.
  revert m. induction k as [k IH | k IH |]; intros m Hm; cbn [iter_pos].
  - replace (m * 2 ^ Zpos k~1) with (2 * ((m * 2 ^ Zpos k) * 2 ^ Zpos k)).
    + rewrite shr_1_even by (apply Z.mul_nonneg_nonneg; [apply Z.mul_nonneg_nonneg|]; lia).
      rewrite IH by (apply Z.mul_nonneg_nonneg; lia). now apply IH.
    + replace (Zpos k~1) with (Zpos k + Zpos k + 1) by lia.
      rewrite !Z.pow_add_r by lia. change (2 ^ 1) with 2. ring.
  - replace (m * 2 ^ Zpos k~0) with ((m * 2 ^ Zpos k) * 2 ^ Zpos k).
    + rewrite IH by (apply Z.mul_nonneg_nonneg; lia). now apply IH.
    + replace (Zpos k~0) with (Zpos k + Zpos k) by lia.
      rewrite Z.pow_add_r by lia. ring.
  - change (2 ^ 1) with 2. rewrite Z.mul_comm. now apply shr_1_even.
Qed.

Lemma Zdigits2_log2 (z : Z) : 0 < z -> Zdigits2 z = Z.log2 z + 1.
Proof.
  destruct z as [|p|p]; try lia. intros _. apply digits2_log2.
Qed.

Lemma fexp_53 (e : Z) : -1074 <= e -> fexp prec emax (e + 53) = e.
Proof.
  unfold fexp, SpecFloat.emin, prec, emax. lia.
Qed.

(** Shifting out [n] zero bits of a mantissa that has [53 + n] bits is exact. *)
Lemma shr_fexp_exact (m : positive) (e n : Z) :
  0 <= n -> Z.log2 (Zpos m) = 52 -> -1074 <= e + n ->
  shr_fexp prec emax (Zpos m * 2 ^ n) e loc_Exact
  = (Build_shr_record (Zpos m) false false, e + n).
Proof.
  intros Hn Hlog He. unfold shr_fexp.
  assert (Hpos : 0 < Zpos m * 2 ^ n) by (apply Z.mul_pos_pos; [lia | apply Z.pow_pos_nonneg; lia]).
  rewrite Zdigits2_log2 by exact Hpos.
  rewrite Z.log2_mul_pow2, Hlog by lia.
  replace (n + 52 + 1 + e) with (e + n + 53) by lia.
  rewrite fexp_53 by exact He.
  replace (e + n - e) with n by lia.
  cbn [shr_record_of_loc]. unfold shr. destruct n as [|k|k]; [|  | lia].
  - rewrite Z.mul_1_r, Z.add_0_r. reflexivity.
  - rewrite iter_shr_exact by lia. reflexivity.
Qed.

Lemma binary_round_aux_exact (s : bool) (m : positive) (e n : Z) :
  0 <= n -> Z.log2 (Zpos m) = 52 -> -1074 <= e + n <= 971 ->
  binary_round_aux prec emax s (Zpos m * 2 ^ n) e loc_Exact
  = S754_finite s m (e + n).
Proof.
  intros Hn Hlog He. unfold binary_round_aux.
  rewrite shr_fexp_exact by lia.
  cbn [shr_m loc_of_shr_record round_nearest_even].
  replace (Zpos m) with (Zpos m * 2 ^ 0) at 1 by (simpl; lia).
  rewrite shr_fexp_exact by lia.
  cbn [shr_m]. rewrite Z.add_0_r.
  replace (e + n <=? emax - prec) with true; [reflexivity|].
  symmetry. apply Z.leb_le. unfold emax, prec. lia.
Qed.

(** An integer below [2^53], with its bits moved up to fill the mantissa. *)
Lemma canon_mantissa (z : Z) :
  0 < z < 2 ^ 53 ->
  exists m, Zpos m = z * 2 ^ (52 - Z.log2 z) /\ Z.log2 (Zpos m) = 52
            /\ 0 <= Z.log2 z <= 52.
Proof.
  intros Hz.
  assert (Hl : 0 <= Z.log2 z <= 52).
  { split; [apply Z.log2_nonneg|]. apply Z.lt_succ_r, Z.log2_lt_pow2; lia. }
  assert (Hpos : 0 < z * 2 ^ (52 - Z.log2 z))
    by (apply Z.mul_pos_pos; [lia | apply Z.pow_pos_nonneg; lia]).
  exists (Z.to_pos (z * 2 ^ (52 - Z.log2 z))).
  rewrite Z2Pos.id by exact Hpos. split; [reflexivity|]. split; [|exact Hl].
  rewrite Z.log2_mul_pow2 by lia. lia.
Qed.

Lemma binary_normalize_canon (z : Z) :
  0 <= z < 2 ^ 53 -> binary_normalize prec emax z 0 false = canon z.
Proof.
  intros Hz. destruct z as [|p|p]; [reflexivity | | lia].
  destruct (canon_mantissa (Zpos p) ltac:(lia)) as [m [Hm [Hlog Hl]]].
  unfold canon. rewrite <- Hm. cbn [Z.to_pos binary_normalize].
  unfold binary_round.
  rewrite digits2_log2.
  replace (Z.log2 (Zpos p) + 1 + 0) with (Z.log2 (Zpos p) - 52 + 53) by lia.
  rewrite fexp_53 by lia.
  unfold shl_align.
  destruct (Z.log2 (Zpos p) - 52 - 0) as [|k|k] eqn:Hk; [| lia |].
  - assert (Hmp : m = p).
    { apply Pos2Z.inj. rewrite Hm. replace (52 - Z.log2 (Zpos p)) with 0 by lia. simpl; lia. }
    subst m.
    replace (Zpos p) with (Zpos p * 2 ^ 0) at 1 by (simpl; lia).
    rewrite binary_round_aux_exact by lia. f_equal. lia.
  - assert (Hmp : Pos.iter xO p k = m).
    { apply Pos2Z.inj. rewrite iter_xO, Hm. f_equal. f_equal. lia. }
    rewrite Hmp.
    replace (Zpos m) with (Zpos m * 2 ^ 0) at 1 by (simpl; lia).
    rewrite binary_round_aux_exact by lia. f_equal. lia.
Qed.

Lemma binary_normalize_shifted (m : positive) (e n M : Z) :
  0 <= n -> Z.log2 (Zpos m) = 52 -> -1074 <= e + n <= 971 ->
  M = Zpos m * 2 ^ n ->
  binary_normalize prec emax M e false = S754_finite false m (e + n).
Proof.
  intros Hn Hlog He HM.
  assert (Hpos : 0 < M)
    by (rewrite HM; apply Z.mul_pos_pos; [lia | apply Z.pow_pos_nonneg; lia]).
  destruct M as [|p|p]; try lia.
  cbn [binary_normalize]. unfold binary_round.
  rewrite digits2_log2, HM, Z.log2_mul_pow2, Hlog by lia.
  replace (n + 52 + 1 + e) with (e + n + 53) by lia.
  rewrite fexp_53 by lia.
  unfold shl_align. destruct (e + n - e) as [|k|k] eqn:Hk; try lia.
  - rewrite HM. now apply binary_round_aux_exact.
  - rewrite HM. now apply binary_round_aux_exact.
Qed.

Lemma shl_align_value (mx : positive) (ex ez : Z) :
  ez <= ex -> Zpos (fst (shl_align mx ex ez)) = Zpos mx * 2 ^ (ex - ez).
Proof.
  intros Hle. unfold shl_align. destruct (ez - ex) as [|k|k] eqn:Hk; cbn [fst]; try lia.
  - replace (ex - ez) with 0 by lia. simpl. lia.
  - rewrite iter_xO. f_equal. f_equal. lia.
Qed.

(** The sum of two integers, below [2^53], is computed exactly. *)
Lemma SFadd_canon (a b : Z) :
  0 <= a -> 0 <= b -> a + b < 2 ^ 53 ->
  SFadd prec emax (canon a) (canon b) = canon (a + b).
Proof.
  intros Ha Hb Hab.
  destruct a as [|pa|pa]; [destruct b; reflexivity || lia | | lia].
  destruct b as [|pb|pb]; [now rewrite Z.add_0_r | | lia].
  destruct (canon_mantissa (Zpos pa) ltac:(lia)) as [ma [Hma [Hla Hra]]].
  destruct (canon_mantissa (Zpos pb) ltac:(lia)) as [mb [Hmb [Hlb Hrb]]].
  destruct (canon_mantissa (Zpos pa + Zpos pb) ltac:(lia)) as [mc [Hmc [Hlc Hrc]]].
  assert (Hca : Z.log2 (Zpos pa) <= Z.log2 (Zpos pa + Zpos pb)) by (apply Z.log2_le_mono; lia).
  assert (Hcb : Z.log2 (Zpos pb) <= Z.log2 (Zpos pa + Zpos pb)) by (apply Z.log2_le_mono; lia).
  set (la := Z.log2 (Zpos pa)) in *. set (lb := Z.log2 (Zpos pb)) in *.
  set (lc := Z.log2 (Zpos pa + Zpos pb)) in *.
  assert (Hc : canon (Zpos pa + Zpos pb) = S754_finite false mc (lc - 52)).
  { change (Zpos pa + Zpos pb) with (Zpos (pa + pb)) in *. unfold canon.
    fold lc. rewrite <- Hmc. reflexivity. }
  rewrite Hc. unfold canon. fold la lb. rewrite <- Hma, <- Hmb. cbn [Z.to_pos SFadd].
  set (ez := Z.min (la - 52) (lb - 52)).
  rewrite !shl_align_value by (unfold ez; lia).
  cbn [cond_Zopp].
  replace (lc - 52) with (ez + (lc - 52 - ez)) by lia.
  apply binary_normalize_shifted; [unfold ez; lia | exact Hlc | unfold ez; lia |].
  rewrite Hma, Hmb, Hmc.
  rewrite <- !Z.mul_assoc, <- !Z.pow_add_r by (unfold ez; lia).
  replace (52 - la + (la - 52 - ez)) with (- ez) by lia.
  replace (52 - lb + (lb - 52 - ez)) with (- ez) by lia.
  replace (52 - lc + (lc - 52 - ez)) with (- ez) by lia.
  ring.
Qed.

Lemma canon_valid (z : Z) : 0 <= z < 2 ^ 53 -> valid_binary (canon z) = true.
Proof.
  intros Hz. destruct z as [|p|p]; [reflexivity | | lia].
  destruct (canon_mantissa (Zpos p) ltac:(lia)) as [m [Hm [Hlog Hl]]].
  unfold canon. rewrite <- Hm. cbn [Z.to_pos SpecFloat.valid_binary].
  unfold bounded, canonical_mantissa. rewrite digits2_log2, Hlog.
  replace (52 + 1 + (Z.log2 (Zpos p) - 52)) with (Z.log2 (Zpos p) - 52 + 53) by lia.
  rewrite fexp_53 by lia. rewrite Z.eqb_refl. cbn [andb].
  apply Z.leb_le. unfold emax, prec. lia.
Qed.

Lemma Prim2SF_ofInteger (z : Z) : 0 <= z < 2 ^ 53 -> Prim2SF (ofInteger z) = canon z.
Proof.
  intros Hz. unfold ofInteger. rewrite binary_normalize_canon by exact Hz.
  apply Prim2SF_SF2Prim. now apply canon_valid.
Qed.

Lemma add_ofInteger (a b : Z) :
  0 <= a -> 0 <= b -> a + b < 2 ^ 53 ->
  (ofInteger a + ofInteger b)%float = ofInteger (a + b).
Proof.
  intros Ha Hb Hab.
  rewrite <- (SF2Prim_Prim2SF (ofInteger a + ofInteger b)).
  rewrite add_spec, !Prim2SF_ofInteger by lia.
  unfold SF64add. rewrite SFadd_canon by lia.
  unfold ofInteger. now rewrite binary_normalize_canon by lia.
Qed.


Local Close Scope Z_scope.

(** ** Conservation of the sums *)

Lemma toInteger_ofInteger (z : Z) :
  (0 <= z < 2 ^ 53)%Z -> toInteger (ofInteger z) = z.
Proof.
  intros Hz. unfold toInteger. rewrite Prim2SF_ofInteger by exact Hz.
  destruct z as [|p|p]; [reflexivity | | lia].
  destruct (canon_mantissa (Zpos p) ltac:(lia)) as [m [Hm [Hlog Hl]]].
  unfold canon. rewrite <- Hm. cbn [Z.to_pos].
  destruct (Z.leb_spec 0 (Z.log2 (Zpos p) - 52)) as [He | He].
  - rewrite Hm. replace (52 - Z.log2 (Zpos p))%Z with 0%Z by lia.
    replace (Z.log2 (Zpos p) - 52)%Z with 0%Z by lia. simpl; lia.
  - rewrite Hm. replace (- (Z.log2 (Zpos p) - 52))%Z with (52 - Z.log2 (Zpos p))%Z by lia.
    apply Z.div_mul. apply Z.pow_nonzero; lia.
Qed.

Lemma Zsum_app (xs ys : list Z) : Zsum (xs ++ ys) = (Zsum xs + Zsum ys)%Z.
Proof.
  induction xs as [|x xs IH]; simpl; [reflexivity | rewrite IH; lia].
Qed.

Lemma Zsum_nonneg (zs : list Z) : Forall (fun z => 0 <= z)%Z zs -> (0 <= Zsum zs)%Z.
Proof.
  induction 1; simpl; lia.
Qed.

(** Whole amounts whose total is below [2^53] are summed exactly. *)
Lemma fold_add_integers (zs : list Z) (acc : Z) :
  Forall (fun z => 0 <= z)%Z zs -> (0 <= acc)%Z -> (acc + Zsum zs < 2 ^ 53)%Z ->
  fold_left (fun a x => (a + x)%float) (map ofInteger zs) (ofInteger acc)
  = ofInteger (acc + Zsum zs).
Proof.
  intros Hall. revert acc. induction Hall as [|z zs Hz Hall IH]; intros acc Hacc Hlt.
  - simpl. now rewrite Z.add_0_r.
  - simpl in *. pose proof (Zsum_nonneg zs Hall) as Hs.
    rewrite add_ofInteger by lia. rewrite IH by lia. f_equal. lia.
Qed.

Lemma sumOf_integers (zs : list Z) :
  Forall (fun z => 0 <= z)%Z zs -> (Zsum zs < 2 ^ 53)%Z ->
  sumOf (map ofInteger zs) = ofInteger (Zsum zs).
Proof.
  intros Hall Hlt. unfold sumOf.
  change 0%float with (ofInteger 0). now rewrite fold_add_integers.
Qed.

Section Partition.

Variable A : Type.
Variable key : A -> string.
Variable g : A -> Z.

Lemma groupSum_absent (l : list A) (c : string) :
  ~ In c (map key l) -> groupSum key g l c = 0%Z.
Proof.
  unfold groupSum. induction l as [|a l IH]; simpl; intros Hni; [reflexivity|].
  destruct (String.eqb_spec (key a) c) as [Heq | Hne]; [tauto|]. apply IH. tauto.
Qed.

Lemma groupSum_le (l : list A) (c : string) :
  Forall (fun a => 0 <= g a)%Z l -> (0 <= groupSum key g l c <= Zsum (map g l))%Z.
Proof.
  unfold groupSum. induction 1 as [|a l Ha Hall IH]; simpl; [lia|].
  destruct (String.eqb (key a) c); simpl; lia.
Qed.

Lemma split_sum (h : string -> Z) (c0 : string) (fs : list string) :
  NoDup fs -> (~ In c0 fs -> h c0 = 0%Z) ->
  (h c0 + Zsum (map h (filter (fun d => negb (String.eqb d c0)) fs)))%Z = Zsum (map h fs).
Proof.
  induction 1 as [|x fs Hx Hnd IH]; intros Habs; simpl.
  - rewrite Habs by tauto. reflexivity.
  - destruct (String.eqb_spec x c0) as [-> | Hne]; simpl.
    + assert (Hf : filter (fun d => negb (String.eqb d c0)) fs = fs).
      { apply forallb_filter_id. apply forallb_forall. intros d Hd.
        apply negb_true_iff, String.eqb_neq. congruence. }
      now rewrite Hf.
    + rewrite <- IH; [lia|]. intros Hni. apply Habs. intros [Heq | Hin]; congruence.
Qed.

(** The sums of the groups add up to the sum of the list. *)
Lemma groupSum_total (l : list A) :
  Zsum (map (groupSum key g l) (firstSeen (map key l))) = Zsum (map g l).
Proof.
  induction l as [|a l IH]; [reflexivity|].
  cbn [map firstSeen Zsum fold_right].
  assert (Hhd : groupSum key g (a :: l) (key a) = (g a + groupSum key g l (key a))%Z).
  { unfold groupSum. simpl. now rewrite String.eqb_refl. }
  assert (Htl : map (groupSum key g (a :: l))
                  (filter (fun d => negb (String.eqb d (key a))) (firstSeen (map key l)))
                = map (groupSum key g l)
                    (filter (fun d => negb (String.eqb d (key a))) (firstSeen (map key l)))).
  { apply map_ext_in. intros c Hc. apply filter_In in Hc. destruct Hc as [_ Hc].
    apply negb_true_iff, String.eqb_neq in Hc.
    unfold groupSum. simpl.
    destruct (String.eqb_spec (key a) c) as [Heq | _]; [congruence | reflexivity]. }
  fold (Zsum (map (groupSum key g (a :: l))
                (filter (fun d => negb (String.eqb d (key a))) (firstSeen (map key l))))).
  fold (Zsum (map g l)).
  rewrite Hhd, Htl, <- IH, <- Z.add_assoc. f_equal.
  apply split_sum; [apply firstSeen_NoDup|].
  intros Hni. apply groupSum_absent. now rewrite <- firstSeen_In.
Qed.

End Partition.

Section WholeAmounts.

Variable f : AnalyzedItem.t -> float.

Let g (a : AnalyzedItem.t) : Z := toInteger (f a).

Lemma sumOf_whole (l : list AnalyzedItem.t) :
  Forall (fun a => wholeAmount (f a)) l -> (Zsum (map g l) < 2 ^ 53)%Z ->
  sumOf (map f l) = ofInteger (Zsum (map g l)).
Proof.
  intros Hall Hlt.
  assert (Hmap : map f l = map ofInteger (map g l)).
  { rewrite map_map. apply map_ext_in. intros a Ha.
    rewrite Forall_forall in Hall. now destruct (Hall a Ha). }
  rewrite Hmap. apply sumOf_integers; [|exact Hlt].
  apply Forall_map. revert Hall. apply Forall_impl. intros a [Hr _]. unfold g. lia.
Qed.

Lemma whole_nonneg (l : list AnalyzedItem.t) :
  Forall (fun a => wholeAmount (f a)) l -> Forall (fun a => 0 <= g a)%Z l.
Proof.
  apply Forall_impl. intros a [Hr _]. unfold g. lia.
Qed.

Lemma sumOf_group (l : list AnalyzedItem.t) (c : string) :
  Forall (fun a => wholeAmount (f a)) l -> (Zsum (map g l) < 2 ^ 53)%Z ->
  sumOf (map f (itemsOf c l)) = ofInteger (groupSum AnalyzedItem.category g l c).
Proof.
  intros Hall Hlt. unfold groupSum. apply sumOf_whole.
  - unfold itemsOf. rewrite Forall_forall in *. intros a Ha.
    apply filter_In in Ha. now apply Hall.
  - pose proof (groupSum_le _ AnalyzedItem.category g l c (whole_nonneg l Hall)) as Hle.
    unfold groupSum in Hle. unfold itemsOf. lia.
Qed.

Lemma conservation_whole (proj : CategorySummary.t -> float) (l : list AnalyzedItem.t) :
  (forall s, In s (categorySummary l) ->
     proj s = sumOf (map f (itemsOf (CategorySummary.name s) l))) ->
  Forall (fun a => wholeAmount (f a)) l -> (Zsum (map g l) < 2 ^ 53)%Z ->
  sumOf (map proj (categorySummary l)) = sumOf (map f l).
Proof.
  intros Hproj Hall Hlt.
  destruct (categorySummary_spec l) as [Hnames _].
  assert (Hmap : map proj (categorySummary l)
                 = map ofInteger
                     (map (groupSum AnalyzedItem.category g l) (firstSeen (categories l)))).
  { rewrite <- Hnames, !map_map. apply map_ext_in. intros s Hs.
    rewrite (Hproj s Hs). now apply sumOf_group. }
  rewrite Hmap, sumOf_integers.
  - unfold categories. rewrite groupSum_total. symmetry. now apply sumOf_whole.
  - apply Forall_map, Forall_forall. intros c _.
    apply (groupSum_le _ AnalyzedItem.category g l c (whole_nonneg l Hall)).
  - unfold categories. now rewrite groupSum_total.
Qed.

End WholeAmounts.

(** C5, as the code has it.  When every spend and every budget is a whole,
    non-negative amount and the totals stay below [2^53], no addition
    rounds, and the spends of the summaries add up to the spends of the
    items, as do the budgets. *)
Theorem categorySummary_conserves_whole_amounts
    (toUpperCase : string -> string) (data : list Item.t) :
  Forall (fun i => wholeAmount (Item.spend i) /\ wholeAmount (Item.budget i)) data ->
  (Zsum (map (fun i => toInteger (Item.spend i)) data) < 2 ^ 53)%Z ->
  (Zsum (map (fun i => toInteger (Item.budget i)) data) < 2 ^ 53)%Z ->
  let analyzed := analyzedData toUpperCase data in
  sumOf (map CategorySummary.spend (categorySummary analyzed))
  = sumOf (map AnalyzedItem.spend analyzed)
  /\ sumOf (map CategorySummary.budget (categorySummary analyzed))
     = sumOf (map AnalyzedItem.budget analyzed)
  /\ sumOf (map AnalyzedItem.spend analyzed) = totalSpend analyzed
  /\ sumOf (map AnalyzedItem.budget analyzed) = totalBudget analyzed.
Proof.
  intros Hall Hs Hb analyzed.
  destruct (categorySummary_spec analyzed) as [_ Hsums].
  assert (Hws : Forall (fun a => wholeAmount (AnalyzedItem.spend a)) analyzed).
  { apply Forall_map. revert Hall. apply Forall_impl. now intros i [H _]. }
  assert (Hwb : Forall (fun a => wholeAmount (AnalyzedItem.budget a)) analyzed).
  { apply Forall_map. revert Hall. apply Forall_impl. now intros i [_ H]. }
  split; [|split; [|split]].
  - apply (conservation_whole AnalyzedItem.spend); [intros s Hin; now apply Hsums | exact Hws |].
    unfold analyzed, analyzedData. now rewrite map_map.
  - apply (conservation_whole AnalyzedItem.budget); [intros s Hin; now apply Hsums | exact Hwb |].
    unfold analyzed, analyzedData. now rewrite map_map.
  - symmetry. apply fold_left_map_add.
  - symmetry. apply fold_left_map_add.
Qed.

(** The initial items: both sums of the spends are 135800. *)
Lemma categorySummary_conserves_whole_amounts_witness :
  Forall (fun i => wholeAmount (Item.spend i) /\ wholeAmount (Item.budget i)) initialData
  /\ (Zsum (map (fun i => toInteger (Item.spend i)) initialData) < 2 ^ 53)%Z
  /\ (Zsum (map (fun i => toInteger (Item.budget i)) initialData) < 2 ^ 53)%Z
  /\ sumOf (map CategorySummary.spend
              (categorySummary (analyzedData Str.asciiUpperCase initialData)))
     = 135800%float
  /\ sumOf (map AnalyzedItem.spend (analyzedData Str.asciiUpperCase initialData))
     = 135800%float.
Proof.
  assert (Hall : Forall (fun i => wholeAmount (Item.spend i) /\ wholeAmount (Item.budget i))
                   initialData).
  { repeat constructor; vm_compute; congruence. }
  assert (Hs : (Zsum (map (fun i => toInteger (Item.spend i)) initialData) < 2 ^ 53)%Z)
    by (vm_compute; reflexivity).
  assert (Hb : (Zsum (map (fun i => toInteger (Item.budget i)) initialData) < 2 ^ 53)%Z)
    by (vm_compute; reflexivity).
  split; [exact Hall|]. split; [exact Hs|]. split; [exact Hb|].
  destruct (categorySummary_conserves_whole_amounts Str.asciiUpperCase initialData Hall Hs Hb)
    as [Hspend _].
  split; [rewrite Hspend|]; reflexivity.
Defined.

(** C5 as stated fails: the additions are those of binary64 and round.  With
    spends 1, 2^53, 1 and 1 in two categories, the summaries hold 2 and
    2^53, which add up to 2^53 + 2, while the spends of the items, added in
    their order, give 2^53.  Added as integers the two lists do not agree
    either: 2^53 + 2 against 2^53 + 3. *)
Lemma categorySummary_conservation_counterexample :
  let data :=
    [ Item.mk 1 "廣告" 1 1;
      Item.mk 2 "租金" 9007199254740992 9007199254740992;
      Item.mk 3 "廣告" 1 1;
      Item.mk 4 "租金" 1 1 ] in
  let analyzed := analyzedData Str.asciiUpperCase data in
  map CategorySummary.spend (categorySummary analyzed) = [2; 9007199254740992]%float
  /\ sumOf (map CategorySummary.spend (categorySummary analyzed)) = 9007199254740994%float
  /\ sumOf (map AnalyzedItem.spend analyzed) = 9007199254740992%float
  /\ totalSpend analyzed = 9007199254740992%float
  /\ Zsum (map toInteger (map CategorySummary.spend (categorySummary analyzed)))
     = 9007199254740994%Z
  /\ Zsum (map toInteger (map AnalyzedItem.spend analyzed)) = 9007199254740995%Z
  /\ sumOf (map CategorySummary.spend (categorySummary analyzed))
     <> sumOf (map AnalyzedItem.spend analyzed).
Proof.
  cbv zeta. repeat (split; [reflexivity|]).
  intros H. apply (f_equal (fun x => (x =? 9007199254740992)%float)) in H.
  vm_compute in H. discriminate H.
Qed.

(** ** More on the classifier *)

Lemma rule_categories_not_default (c : string) :
  In c (map fst CATEGORY_RULES) -> c <> DEFAULT_CATEGORY.
Proof.
  simpl. intros [<- | [<- | [<- | [<- | []]]]]; discriminate.
Qed.

Lemma rule_categories_NoDup : NoDup (map fst CATEGORY_RULES).
Proof.
  simpl. repeat constructor; simpl; intuition discriminate.
Qed.

Lemma firstHit_category toUpperCase rules name i c :
  firstHit toUpperCase rules name i c -> nth_error (map fst rules) i = Some c.
Proof.
  intros [keywords [Hnth _]]. now rewrite nth_error_map, Hnth.
Qed.

(** X1. The classifier answers the default category exactly for the names
    that no keyword of the table occurs in, and the category of rule [i]
    exactly for the names whose first hit is rule [i]: no rule's category is
    the default one and no two rules share a category, so the answer tells
    which rule, if any, was hit first. *)
Theorem classifyItem_tells_the_rule (toUpperCase : string -> string) (name : string) :
  (classifyItem toUpperCase name = DEFAULT_CATEGORY
   <-> noHit toUpperCase CATEGORY_RULES name)
  /\ (forall i c,
        firstHit toUpperCase CATEGORY_RULES name i c
        <-> classifyItem toUpperCase name = c
            /\ nth_error (map fst CATEGORY_RULES) i = Some c).
Proof.
  split.
  - split; [|apply classifyIn_noHit].
    intros Hd. destruct (classifyIn_cases toUpperCase CATEGORY_RULES name)
      as [[i [c Hhit]] | Hno]; [|exact Hno].
    exfalso. apply (rule_categories_not_default c).
    + eapply nth_error_In. eapply firstHit_category. exact Hhit.
    + rewrite <- Hd. symmetry. eapply classifyIn_firstHit. exact Hhit.
  - intros i c. split.
    + intros Hhit. split; [eapply classifyIn_firstHit; exact Hhit|].
      eapply firstHit_category. exact Hhit.
    + intros [Hc Hnth].
      destruct (classifyIn_cases toUpperCase CATEGORY_RULES name)
        as [[j [c' Hhit]] | Hno].
      * pose proof (classifyIn_firstHit _ _ _ _ _ Hhit) as Hc'.
        fold (classifyItem toUpperCase name) in Hc'. rewrite Hc in Hc'. subst c'.
        pose proof (firstHit_category _ _ _ _ _ Hhit) as Hj.
        assert (Hij : i = j).
        { apply (proj1 (NoDup_nth_error (map fst CATEGORY_RULES)) rule_categories_NoDup).
          - apply nth_error_Some. congruence.
          - congruence. }
        now subst j.
      * exfalso. apply (rule_categories_not_default c).
        -- eapply nth_error_In. exact Hnth.
        -- rewrite <- Hc. now apply classifyIn_noHit.
Qed.

Lemma someKeyword_same_upper toUpperCase n1 n2 keywords :
  toUpperCase n1 = toUpperCase n2 ->
  someKeyword toUpperCase n1 keywords = someKeyword toUpperCase n2 keywords.
Proof.
  intros H. unfold someKeyword. now rewrite H.
Qed.

Lemma asciiUpperCase_idempotent (s : string) :
  Str.asciiUpperCase (Str.asciiUpperCase s) = Str.asciiUpperCase s.
Proof.
  induction s as [|c s IH]; [reflexivity|].
  cbn [Str.asciiUpperCase]. rewrite IH. f_equal.
  unfold Str.upperAscii. cbv zeta.
  destruct ((97 <=? nat_of_ascii c)%nat && (nat_of_ascii c <=? 122)%nat) eqn:Hrange.
  - apply andb_true_iff in Hrange. destruct Hrange as [Hlo Hhi].
    apply Nat.leb_le in Hlo. apply Nat.leb_le in Hhi.
    rewrite nat_ascii_embedding by lia.
    replace (97 <=? nat_of_ascii c - 32)%nat with false
      by (symmetry; apply Nat.leb_gt; lia).
    reflexivity.
  - rewrite Hrange. reflexivity.
Qed.

(** X2. The case of the ASCII letters of a name does not matter: two names
    that are equal once a-z is turned into A-Z get the same category.  The
    upper-casing has to absorb that turn on the two names, as the runtime's
    does; the bare identity does not, and under it [Google] and [google]
    would part.  Letters outside ASCII are not covered: on them the
    runtime's upper-casing is more than a change of case. *)
Theorem classifyItem_ignores_case (toUpperCase : string -> string) (n1 n2 : string) :
  toUpperCase (Str.asciiUpperCase n1) = toUpperCase n1 ->
  toUpperCase (Str.asciiUpperCase n2) = toUpperCase n2 ->
  Str.asciiUpperCase n1 = Str.asciiUpperCase n2 ->
  classifyItem toUpperCase n1 = classifyItem toUpperCase n2.
Proof.
  intros H1 H2 Hsame.
  assert (H : toUpperCase n1 = toUpperCase n2) by (rewrite <- H1, <- H2, Hsame; reflexivity).
  unfold classifyItem.
  induction CATEGORY_RULES as [|[c k] rest IH]; simpl; [reflexivity|].
  now rewrite (someKeyword_same_upper _ _ _ _ H), IH.
Qed.

(** A name in two spellings; without upper-casing they part. *)
Lemma classifyItem_ignores_case_witness :
  Str.asciiUpperCase "Google Ads 2024" = Str.asciiUpperCase "gOOGLE aDS 2024"
  /\ classifyItem Str.asciiUpperCase "Google Ads 2024"
     = classifyItem Str.asciiUpperCase "gOOGLE aDS 2024"
  /\ classifyItem Str.asciiUpperCase "gOOGLE aDS 2024" = "行銷推廣"
  /\ classifyItem (fun s => s) "Google Ads 2024"
     <> classifyItem (fun s => s) "gOOGLE aDS 2024".
Proof.
  split; [reflexivity|]. split; [|split; [reflexivity | vm_compute; discriminate]].
  apply (classifyItem_ignores_case Str.asciiUpperCase);
    [apply asciiUpperCase_idempotent | apply asciiUpperCase_idempotent | reflexivity].
Defined.

Lemma existsb_agree {A : Type} (p q : A -> bool) (l : list A) :
  (forall x, In x l -> p x = q x) -> existsb p l = existsb q l.
Proof.
  induction l as [|x l IH]; intros H; simpl; [reflexivity|].
  rewrite (H x) by now left. rewrite IH; [reflexivity|].
  intros y Hy. apply H. now right.
Qed.

(** The classifier uses the upper-casing on the name and on the keywords
    only. *)
Lemma classifyIn_ext (f g : string -> string) rules name :
  f name = g name -> (forall kw, In kw (allKeywords rules) -> f kw = g kw) ->
  classifyIn f rules name = classifyIn g rules name.
Proof.
  intros Hname. induction rules as [|[c k] rest IH]; intros Hkw; simpl; [reflexivity|].
  assert (Hk : someKeyword f name k = someKeyword g name k).
  { unfold someKeyword. rewrite Hname. apply existsb_agree.
    intros kw Hin. rewrite (Hkw kw); [reflexivity|].
    unfold allKeywords. simpl. apply in_or_app. now left. }
  rewrite Hk, IH; [reflexivity|].
  intros kw Hin. apply Hkw. unfold allKeywords. simpl. apply in_or_app. now right.
Qed.

(** X3. No keyword of the table is shadowed: a name that is just a keyword
    gets the category that lists this keyword, no earlier rule catching it.
    The upper-casing has to treat the keywords as ASCII upper-casing does
    (their letters are ASCII or have no case). *)
Theorem keywords_are_not_shadowed (toUpperCase : string -> string) :
  (forall kw, In kw (allKeywords CATEGORY_RULES) -> toUpperCase kw = Str.asciiUpperCase kw) ->
  forall category keywords kw,
    In (category, keywords) CATEGORY_RULES -> In kw keywords ->
    classifyItem toUpperCase kw = category.
Proof.
  intros Hup category keywords kw Hrule Hkw.
  assert (Hin : In kw (allKeywords CATEGORY_RULES)).
  { unfold allKeywords. apply in_flat_map. now exists (category, keywords). }
  unfold classifyItem.
  rewrite (classifyIn_ext toUpperCase Str.asciiUpperCase) by auto.
  assert (Hall : keywordsKeepTheirCategory Str.asciiUpperCase = true) by (vm_compute; reflexivity).
  unfold keywordsKeepTheirCategory in Hall. rewrite forallb_forall in Hall.
  specialize (Hall _ Hrule). rewrite forallb_forall in Hall.
  specialize (Hall _ Hkw). now apply String.eqb_eq in Hall.
Qed.

(** The keyword IT, under ASCII upper-casing. *)
Lemma keywords_are_not_shadowed_witness :
  (forall kw, In kw (allKeywords CATEGORY_RULES) ->
              Str.asciiUpperCase kw = Str.asciiUpperCase kw)
  /\ classifyItem Str.asciiUpperCase "IT" = "資訊技術".
Proof.
  split; [reflexivity|].
  eapply (keywords_are_not_shadowed Str.asciiUpperCase (fun kw _ => eq_refl)).
  - right. right. right. left. reflexivity.
  - simpl. tauto.
Defined.

Lemma occurs_inside (sub pre s post : string) :
  Str.occurs sub s -> Str.occurs sub (pre ++ s ++ post).
Proof.
  intros [a [b ->]]. exists (pre ++ a), (b ++ post).
  now rewrite !append_assoc.
Qed.

Lemma asciiUpperCase_app (a b : string) :
  Str.asciiUpperCase (a ++ b) = Str.asciiUpperCase a ++ Str.asciiUpperCase b.
Proof.
  induction a as [|c a IH]; simpl; [reflexivity | now rewrite IH].
Qed.

(** X4. Text put before or after a name never takes a hit away: when the
    upper-case form of the longer name is made of the upper-case forms of
    the three pieces (as it is when each piece is a run of whole
    characters), a name whose first hit is rule [i] still hits after the
    addition, at rule [i] or at an earlier one, and so never drops to the
    default category. *)
Theorem classifyIn_longer_name (toUpperCase : string -> string)
    (rules : list (string * list string)) (pre name post : string) (i : nat) (c : string) :
  toUpperCase (pre ++ name ++ post)
    = toUpperCase pre ++ toUpperCase name ++ toUpperCase post ->
  firstHit toUpperCase rules name i c ->
  exists j c',
    (j <= i)%nat
    /\ firstHit toUpperCase rules (pre ++ name ++ post) j c'
    /\ classifyIn toUpperCase rules (pre ++ name ++ post) = c'.
Proof.
  intros Happ [keywords [Hnth [Hhit Hbefore]]].
  assert (Hmono : forall k, hits toUpperCase name k ->
                            hits toUpperCase (pre ++ name ++ post) k).
  { intros k [kw [Hin Hocc]]. exists kw. split; [exact Hin|].
    unfold ci_substring in *. rewrite Happ. now apply occurs_inside. }
  destruct (classifyIn_cases toUpperCase rules (pre ++ name ++ post))
    as [[j [c' Hj]] | Hno].
  - exists j, c'. split; [|split; [exact Hj | now apply (classifyIn_firstHit _ _ _ j)]].
    destruct (Nat.le_gt_cases j i) as [Hle | Hgt]; [exact Hle|].
    exfalso. destruct Hj as [kj [_ [_ Hbj]]].
    apply (Hbj i c keywords Hgt Hnth). now apply Hmono.
  - exfalso. apply (Hno c keywords); [eapply nth_error_In; exact Hnth | now apply Hmono].
Qed.

(** [文具] alone hits the second rule; with [Google] in front the first. *)
Lemma classifyIn_longer_name_witness :
  Str.asciiUpperCase ("google " ++ "文具" ++ " 2024")
    = Str.asciiUpperCase "google " ++ Str.asciiUpperCase "文具" ++ Str.asciiUpperCase " 2024"
  /\ firstHit Str.asciiUpperCase CATEGORY_RULES "文具" 1 "營運成本"
  /\ exists j c',
       (j <= 1)%nat
       /\ firstHit Str.asciiUpperCase CATEGORY_RULES ("google " ++ "文具" ++ " 2024") j c'
       /\ classifyIn Str.asciiUpperCase CATEGORY_RULES ("google " ++ "文具" ++ " 2024") = c'.
Proof.
  assert (Hhit : firstHit Str.asciiUpperCase CATEGORY_RULES "文具" 1 "營運成本").
  { eexists. split; [reflexivity|]. split.
    - exists "文具". split; [simpl; tauto|]. apply includes_spec. vm_compute. reflexivity.
    - intros [|j] c k Hj Hn; [|lia]. injection Hn as <- <-.
      apply someKeyword_false. vm_compute. reflexivity. }
  split; [reflexivity|]. split; [exact Hhit|].
  exact (classifyIn_longer_name Str.asciiUpperCase CATEGORY_RULES "google " "文具" " 2024"
           1 "營運成本" eq_refl Hhit).
Defined.

(** ** More on the item store *)

Lemma handleAddItem_cases (now : Z) (st : State.t) :
  (someFieldEmpty (State.newItem st) /\ handleAddItem now st = st)
  \/ (~ someFieldEmpty (State.newItem st)
      /\ handleAddItem now st
         = State.mk
             (State.data st
              ++ [Item.mk now (NewItem.name (State.newItem st))
                    (Num.parseFloat (NewItem.spend (State.newItem st)))
                    (Num.parseFloat (NewItem.budget (State.newItem st)))])
             NewItem.empty).
Proof.
  unfold handleAddItem.
  destruct (falsy (NewItem.name (State.newItem st))
            || falsy (NewItem.spend (State.newItem st))
            || falsy (NewItem.budget (State.newItem st))) eqn:Hg.
  - left. split; [now apply guard_spec | reflexivity].
  - right. split; [|reflexivity]. intros H. apply guard_spec in H. congruence.
Qed.

(** X5. Submitting twice adds once: after a submit the form is empty or was
    refused, so a second submit, at whatever time, changes nothing. *)
Theorem handleAddItem_twice (t1 t2 : Z) (st : State.t) :
  handleAddItem t2 (handleAddItem t1 st) = handleAddItem t1 st.
Proof.
  destruct (handleAddItem_cases t1 st) as [[He H1] | [Hne H1]]; rewrite H1.
  - destruct (handleAddItem_cases t2 st) as [[_ H2] | [Hne _]]; [exact H2 | contradiction].
  - reflexivity.
Qed.

(** X6. Deleting the id a submit has just used undoes the submit, when no
    older item carries that id: the list is the one before the submit. *)
Theorem handleAddItem_then_deleteItem (now : Z) (st : State.t) :
  ~ In now (ids (State.data st)) ->
  State.data (deleteItem now (handleAddItem now st)) = State.data st.
Proof.
  intros Hfresh.
  destruct (handleAddItem_cases now st) as [[_ H1] | [_ H1]]; rewrite H1;
    unfold deleteItem; cbn [State.data].
  - now apply filter_id_absent.
  - rewrite filter_app, filter_id_absent by exact Hfresh.
    cbn [filter Item.id]. rewrite Z.eqb_refl. apply app_nil_r.
Qed.

(** An item typed in, added at a new clock reading and deleted again. *)
Lemma handleAddItem_then_deleteItem_witness :
  let st := State.mk initialData (NewItem.mk "培訓課程" "4200" "5000") in
  ~ In 1700000000000%Z (ids (State.data st))
  /\ List.length (State.data (handleAddItem 1700000000000 st)) = 8%nat
  /\ State.data (deleteItem 1700000000000 (handleAddItem 1700000000000 st)) = initialData.
Proof.
  cbv zeta.
  assert (Hfresh : ~ In 1700000000000%Z
                     (ids (State.data (State.mk initialData (NewItem.mk "培訓課程" "4200" "5000"))))).
  { simpl. intuition discriminate. }
  split; [exact Hfresh|]. split; [reflexivity|].
  exact (handleAddItem_then_deleteItem 1700000000000 _ Hfresh).
Defined.

Lemma filter_id_twice (a b : Z) (data : list Item.t) :
  filter (fun i => negb (Item.id i =? a)%Z) (filter (fun i => negb (Item.id i =? b)%Z) data)
  = filter (fun i => negb (Item.id i =? b)%Z) (filter (fun i => negb (Item.id i =? a)%Z) data).
Proof.
  induction data as [|x data IH]; simpl; [reflexivity|].
  destruct (Item.id x =? a)%Z eqn:Ha, (Item.id x =? b)%Z eqn:Hb; simpl;
    rewrite ?Ha, ?Hb; simpl; now rewrite IH.
Qed.

(** X7. After [deleteItem id] no item carries [id]; deleting the same id
    again changes nothing, two deletions can be done in either order, the
    list never grows, and ids that were unique stay unique. *)
Theorem deleteItem_laws (a b : Z) (st : State.t) :
  ~ In a (ids (State.data (deleteItem a st)))
  /\ deleteItem a (deleteItem a st) = deleteItem a st
  /\ deleteItem a (deleteItem b st) = deleteItem b (deleteItem a st)
  /\ (List.length (State.data (deleteItem a st)) <= List.length (State.data st))%nat
  /\ (NoDup (ids (State.data st)) -> NoDup (ids (State.data (deleteItem a st)))).
Proof.
  destruct st as [data newItem]. unfold deleteItem. cbn [State.data State.newItem].
  assert (Hgone : ~ In a (ids (filter (fun i => negb (Item.id i =? a)%Z) data))).
  { unfold ids. rewrite in_map_iff. intros [x [Hx Hin]].
    apply filter_In in Hin. destruct Hin as [_ Hin].
    apply negb_true_iff, Z.eqb_neq in Hin. contradiction. }
  split; [exact Hgone|].
  split; [f_equal; now apply filter_id_absent|].
  split; [f_equal; apply filter_id_twice|].
  split; [apply filter_length_le|].
  unfold ids. induction data as [|x data IH]; simpl; intros Hnd; [constructor|].
  inversion Hnd as [|? ? Hx Hnd']; subst.
  destruct (Item.id x =? a)%Z; simpl.
  - apply IH; [|exact Hnd'].
    unfold ids. rewrite in_map_iff. intros [y [Hy Hin]].
    apply filter_In in Hin. destruct Hin as [_ Hin].
    apply negb_true_iff, Z.eqb_neq in Hin. contradiction.
  - constructor.
    + intros Hin. apply Hx. apply in_map_iff in Hin. destruct Hin as [y [Hy Hin]].
      apply filter_In in Hin. apply in_map_iff. exists y. tauto.
    + apply IH; [|exact Hnd'].
      unfold ids. rewrite in_map_iff. intros [y [Hy Hin]].
      apply filter_In in Hin. destruct Hin as [_ Hin].
      apply negb_true_iff, Z.eqb_neq in Hin. contradiction.
Qed.

(** X8. Filling the form and submitting: the three [onChange] callbacks
    leave the list alone and can come in any order; with three values that
    are not empty the submit appends exactly the item typed, with the clock
    reading for its id, and clears the form; with the budget left out of an
    empty form the submit does nothing. *)
Theorem form_workflow (now : Z) (n s b : string) (st : State.t) :
  n <> "" -> s <> "" -> b <> "" ->
  State.data (onChangeBudget b (onChangeSpend s (onChangeName n st))) = State.data st
  /\ onChangeBudget b (onChangeSpend s (onChangeName n st))
     = onChangeName n (onChangeSpend s (onChangeBudget b st))
  /\ handleAddItem now (onChangeBudget b (onChangeSpend s (onChangeName n st)))
     = State.mk (State.data st ++ [Item.mk now n (Num.parseFloat s) (Num.parseFloat b)])
         NewItem.empty
  /\ (State.newItem st = NewItem.empty ->
      handleAddItem now (onChangeSpend s (onChangeName n st))
      = onChangeSpend s (onChangeName n st)).
Proof.
  intros Hn Hs Hb. destruct st as [data newItem].
  split; [reflexivity|]. split; [reflexivity|]. split.
  - unfold handleAddItem, onChangeBudget, onChangeSpend, onChangeName.
    cbn [State.newItem State.data NewItem.name NewItem.spend NewItem.budget].
    destruct n, s, b; try congruence. reflexivity.
  - cbn [State.newItem]. intros ->.
    unfold handleAddItem, onChangeSpend, onChangeName.
    cbn [State.newItem State.data NewItem.name NewItem.spend NewItem.budget NewItem.empty falsy].
    now rewrite orb_true_r.
Qed.

(** A row typed into the empty form of the initial state. *)
Lemma form_workflow_witness :
  "清潔服務" <> "" /\ "3200" <> "" /\ "3000" <> ""
  /\ handleAddItem 1700000000000
       (onChangeBudget "3000" (onChangeSpend "3200" (onChangeName "清潔服務" initialState)))
     = State.mk (initialData ++ [Item.mk 1700000000000 "清潔服務" 3200 3000]) NewItem.empty.
Proof.
  assert (H1 : "清潔服務" <> "") by discriminate.
  assert (H2 : "3200" <> "") by discriminate.
  assert (H3 : "3000" <> "") by discriminate.
  split; [exact H1|]. split; [exact H2|]. split; [exact H3|].
  destruct (form_workflow 1700000000000 "清潔服務" "3200" "3000" initialState H1 H2 H3)
    as [_ [_ [Hadd _]]].
  exact Hadd.
Defined.

(** ** More on the export *)

Lemma rowLines_app (l1 l2 : list AnalyzedItem.t) :
  rowLines (l1 ++ l2) = rowLines l1 ++ rowLines l2.
Proof.
  induction l1 as [|a l1 IH]; cbn [app rowLines]; [reflexivity|].
  rewrite IH. symmetry. apply append_assoc.
Qed.

Lemma handleDownloadCSV_some (today : string) (analyzed : list AnalyzedItem.t) :
  analyzed <> [] ->
  handleDownloadCSV today analyzed
  = Some (mkDownload (BOM ++ headerRow ++ rowLines analyzed) "text/csv;charset=utf-8;"
            ("財務分析報告_" ++ today ++ ".csv")).
Proof.
  intros Hne. unfold handleDownloadCSV. destruct analyzed as [|a rest]; [congruence|].
  cbn [List.length Nat.eqb]. now rewrite join_rows.
Qed.

Lemma handleDownloadCSV_content (today : string) (analyzed : list AnalyzedItem.t)
    (d : Download) :
  handleDownloadCSV today analyzed = Some d ->
  analyzed <> [] /\ csvContent d = BOM ++ headerRow ++ rowLines analyzed.
Proof.
  intros H. destruct analyzed as [|a rest]; [discriminate H|].
  split; [discriminate|].
  rewrite handleDownloadCSV_some in H by discriminate. injection H as <-. reflexivity.
Qed.

(** X9. The file is written line by line, each line from its own item: the
    export of a list around an item [x] is the export of the items before,
    the line of [x], and the lines of the items after.  So adding an item
    appends one line to the file, and deleting [x] takes out its line and
    nothing else. *)
Theorem export_line_by_line (toUpperCase : string -> string) (today : string)
    (l1 l2 : list Item.t) (x : Item.t) :
  (exists d,
     handleDownloadCSV today (analyzedData toUpperCase (l1 ++ x :: l2)) = Some d
     /\ csvContent d
        = BOM ++ headerRow ++ rowLines (analyzedData toUpperCase l1)
          ++ rowLine (analyzeItem toUpperCase x) ++ rowLines (analyzedData toUpperCase l2))
  /\ (forall d0 d1,
        handleDownloadCSV today (analyzedData toUpperCase l1) = Some d0 ->
        handleDownloadCSV today (analyzedData toUpperCase (l1 ++ [x])) = Some d1 ->
        csvContent d1 = csvContent d0 ++ rowLine (analyzeItem toUpperCase x))
  /\ (forall d,
        handleDownloadCSV today (analyzedData toUpperCase (l1 ++ l2)) = Some d ->
        csvContent d
        = BOM ++ headerRow ++ rowLines (analyzedData toUpperCase l1)
          ++ rowLines (analyzedData toUpperCase l2)).
Proof.
  unfold analyzedData. split; [|split].
  - eexists. split.
    + apply handleDownloadCSV_some. rewrite map_app. simpl. now destruct (map _ l1).
    + cbn [csvContent]. rewrite map_app, rowLines_app. reflexivity.
  - intros d0 d1 H0 H1.
    apply handleDownloadCSV_content in H0, H1.
    destruct H0 as [_ H0]. destruct H1 as [_ H1].
    rewrite H1, H0, map_app, rowLines_app. cbn [map rowLines].
    now rewrite append_nil_r, !append_assoc.
  - intros d Hd. apply handleDownloadCSV_content in Hd. destruct Hd as [_ Hd].
    now rewrite Hd, map_app, rowLines_app.
Qed.

(** ** More on the aggregator *)

Lemma summary_eq (s t : CategorySummary.t) :
  CategorySummary.name s = CategorySummary.name t ->
  CategorySummary.spend s = CategorySummary.spend t ->
  CategorySummary.budget s = CategorySummary.budget t -> s = t.
Proof.
  destruct s, t. simpl. congruence.
Qed.

(** The aggregator on a list with one more item at its end. *)
Lemma categorySummary_snoc (l : list AnalyzedItem.t) (a : AnalyzedItem.t) :
  let c := AnalyzedItem.category a in
  map CategorySummary.name (categorySummary (l ++ [a]))
  = (map CategorySummary.name (categorySummary l)
     ++ if in_dec string_dec c (categories l) then [] else [c])%list
  /\ (forall s, In s (categorySummary l) -> CategorySummary.name s <> c ->
                In s (categorySummary (l ++ [a])))
  /\ (exists s,
        In s (categorySummary (l ++ [a]))
        /\ CategorySummary.name s = c
        /\ CategorySummary.spend s
           = (sumOf (map AnalyzedItem.spend (itemsOf c l)) + AnalyzedItem.spend a)%float
        /\ CategorySummary.budget s
           = (sumOf (map AnalyzedItem.budget (itemsOf c l)) + AnalyzedItem.budget a)%float).
Proof.
  intros c.
  destruct (categorySummary_spec l) as [Hn Hs].
  destruct (categorySummary_spec (l ++ [a])) as [Hn' Hs'].
  assert (Hcats : categories (l ++ [a]) = (categories l ++ [c])%list)
    by (unfold categories; now rewrite map_app).
  split; [|split].
  - rewrite Hn', Hn, Hcats. apply firstSeen_snoc.
  - intros s Hin Hne.
    assert (Hname : In (CategorySummary.name s) (map CategorySummary.name (categorySummary (l ++ [a])))).
    { rewrite Hn', Hcats, firstSeen_snoc. apply in_or_app. left.
      rewrite <- Hn. now apply in_map. }
    apply in_map_iff in Hname. destruct Hname as [t [Ht Hint]].
    destruct (Hs s Hin) as [Hsp Hbu]. destruct (Hs' t Hint) as [Hsp' Hbu'].
    rewrite Ht, itemsOf_snoc in Hsp', Hbu'.
    destruct (String.eqb_spec (AnalyzedItem.category a) (CategorySummary.name s)) as [Heq | _];
      [now elim Hne|].
    rewrite app_nil_r in Hsp', Hbu'.
    replace s with t; [exact Hint|]. apply summary_eq; congruence.
  - assert (Hname : In c (map CategorySummary.name (categorySummary (l ++ [a])))).
    { rewrite Hn'. apply firstSeen_In. rewrite Hcats. apply in_or_app. right. now left. }
    apply in_map_iff in Hname. destruct Hname as [t [Ht Hint]].
    exists t. split; [exact Hint|]. split; [exact Ht|].
    destruct (Hs' t Hint) as [Hsp' Hbu']. rewrite Ht, itemsOf_snoc in Hsp', Hbu'.
    unfold c in Hsp', Hbu'. rewrite String.eqb_refl, map_app in Hsp', Hbu'.
    cbn [map] in Hsp', Hbu'. rewrite sumOf_snoc in Hsp', Hbu'. now split.
Qed.

(** X10. Adding an item touches one summary only.  The summaries keep their
    order; the category of the new item gets a summary at the end when it is
    new; every summary of another category stays as it was; and the summary
    of the item's category holds the old sums plus the item's spend and
    budget. *)
Theorem categorySummary_after_add (toUpperCase : string -> string)
    (data : list Item.t) (item : Item.t) :
  let analyzed := analyzedData toUpperCase data in
  let a := analyzeItem toUpperCase item in
  let c := AnalyzedItem.category a in
  let after := categorySummary (analyzedData toUpperCase (data ++ [item])) in
  map CategorySummary.name after
  = (map CategorySummary.name (categorySummary analyzed)
     ++ if in_dec string_dec c (categories analyzed) then [] else [c])%list
  /\ (forall s, In s (categorySummary analyzed) -> CategorySummary.name s <> c -> In s after)
  /\ (exists s,
        In s after /\ CategorySummary.name s = c
        /\ CategorySummary.spend s
           = (sumOf (map AnalyzedItem.spend (itemsOf c analyzed)) + Item.spend item)%float
        /\ CategorySummary.budget s
           = (sumOf (map AnalyzedItem.budget (itemsOf c analyzed)) + Item.budget item)%float).
Proof.
  cbv zeta. unfold analyzedData. rewrite map_app. cbn [map].
  apply (categorySummary_snoc (map (analyzeItem toUpperCase) data) (analyzeItem toUpperCase item)).
Qed.

(** ** The colours of the chart *)

Lemma summaries_at_most_five (toUpperCase : string -> string) (data : list Item.t) :
  (List.length (categorySummary (analyzedData toUpperCase data)) <= 5)%nat.
Proof.
  destruct (categorySummary_spec (analyzedData toUpperCase data)) as [Hnames _].
  rewrite <- (length_map CategorySummary.name), Hnames.
  change 5%nat with (List.length (map fst CATEGORY_RULES ++ [DEFAULT_CATEGORY])).
  apply NoDup_incl_length; [apply firstSeen_NoDup|].
  intros c Hc. apply (proj1 (firstSeen_In _ _)) in Hc.
  rewrite categories_analyzedData in Hc. apply in_map_iff in Hc.
  destruct Hc as [item [<- _]]. apply classifyIn_range.
Qed.

(** X11. The cells of the pie never share a colour: there are at most five
    summaries and five colours, so [index % COLORS.length] never wraps; cell
    [i] gets colour [i] and every cell has one. *)
Theorem cellFills_distinct (toUpperCase : string -> string) (data : list Item.t) :
  let summaries := categorySummary (analyzedData toUpperCase data) in
  cellFills summaries = map Some (firstn (List.length summaries) COLORS)
  /\ NoDup (cellFills summaries)
  /\ ~ In None (cellFills summaries).
Proof.
  cbv zeta. pose proof (summaries_at_most_five toUpperCase data) as Hle.
  unfold cellFills.
  set (n := List.length (categorySummary (analyzedData toUpperCase data))) in *.
  clearbody n.
  do 6 (destruct n as [|n];
        [split; [reflexivity|]; split;
         [repeat constructor; simpl; intuition discriminate
         | simpl; intuition discriminate] |]).
  lia.
Qed.

(** ** Numbers: the order *)

Lemma SFcompare_antisym (x y : spec_float) :
  SFcompare y x = option_map CompOpp (SFcompare x y).
Proof.
  destruct x as [sx | sx | | sx mx ex], y as [sy | sy | | sy my ey]; simpl;
    try reflexivity; try (destruct sx; reflexivity); try (destruct sy; reflexivity);
    try (destruct sx, sy; reflexivity).
  destruct sx, sy; simpl; try reflexivity;
    rewrite (Z.compare_antisym ex ey); destruct (ex ?= ey)%Z; simpl; try reflexivity;
    change (Pos.compare_cont Eq my mx) with (Pos.compare my mx);
    change (Pos.compare_cont Eq mx my) with (Pos.compare mx my);
    rewrite (Pos.compare_antisym mx my); destruct (mx ?= my)%positive; reflexivity.
Qed.

Lemma SFcompare_refl (x : spec_float) : x <> S754_nan -> SFcompare x x = Some Eq.
Proof.
  destruct x as [s | s | | s m e]; simpl; intros H; try congruence.
  - now destruct s.
  - destruct s; rewrite Z.compare_refl, Pos.compare_cont_refl; reflexivity.
Qed.

Lemma is_nan_false (x : float) : is_nan x = false <-> Prim2SF x <> S754_nan.
Proof.
  unfold is_nan. rewrite eqb_spec. unfold SFeqb. split.
  - intros H E. rewrite E in H. discriminate H.
  - intros H. now rewrite SFcompare_refl.
Qed.

Lemma is_nan_true (x : float) : is_nan x = true -> x = nan.
Proof.
  intros H. change nan with (SF2Prim S754_nan). apply SF2Prim_eq.
  destruct (Prim2SF x) eqn:E; try reflexivity;
    assert (Hf : is_nan x = false) by (apply is_nan_false; congruence); congruence.
Qed.

Lemma ltb_true (x y : float) :
  (x <? y)%float = true ->
  is_nan x = false /\ is_nan y = false /\ (y <? x)%float = false /\ (x =? y)%float = false.
Proof.
  rewrite !ltb_spec, eqb_spec, !is_nan_false. unfold SFltb, SFeqb.
  rewrite (SFcompare_antisym (Prim2SF x) (Prim2SF y)).
  destruct (SFcompare (Prim2SF x) (Prim2SF y)) as [[| |]|] eqn:Hc; try discriminate.
  intros _. repeat split; try reflexivity; intros E; rewrite E in Hc;
    [|destruct (Prim2SF x)]; discriminate Hc.
Qed.

Lemma Prim2SF_100 : Prim2SF 100 = S754_finite false 7036874417766400 (-46).
Proof.
  reflexivity.
Qed.

(** [p == 100] only for the Number 100. *)
Lemma eqb_100 (p : float) : (p =? 100)%float = true -> p = 100%float.
Proof.
  rewrite eqb_spec, Prim2SF_100. unfold SFeqb. intros H.
  apply Prim2SF_inj. rewrite Prim2SF_100.
  destruct (Prim2SF p) as [s | s | | s m e]; cbn [SFcompare] in H;
    try discriminate H; try (destruct s; discriminate H).
  destruct s; [discriminate H|].
  destruct (e ?= -46)%Z eqn:He; try discriminate H.
  apply Z.compare_eq in He. subst e.
  destruct (Pos.compare_cont Eq m 7036874417766400) eqn:Hm; try discriminate H.
  apply Pos.compare_eq in Hm. now subst m.
Qed.

Lemma between_is_100 (p : float) :
  is_nan p = false -> (p <? 100)%float = false -> (100 <? p)%float = false ->
  p = 100%float.
Proof.
  intros Hn Hlt Hgt. apply eqb_100. apply is_nan_false in Hn.
  rewrite ltb_spec in Hlt, Hgt. rewrite eqb_spec. unfold SFltb, SFeqb in *.
  rewrite (SFcompare_antisym (Prim2SF p) (Prim2SF 100)) in Hgt.
  destruct (SFcompare (Prim2SF p) (Prim2SF 100)) as [[| |]|] eqn:Hc;
    try reflexivity; try discriminate.
  exfalso. rewrite Prim2SF_100 in Hc.
  destruct (Prim2SF p); try congruence; cbn [SFcompare] in Hc; discriminate Hc.
Qed.

(** ** What a row shows *)

Lemma Math_min_over (p : float) : (100 <? p)%float = true -> Math_min p 100 = 100%float.
Proof.
  intros H. destruct (ltb_true _ _ H) as [_ [Hn [Hlt _]]].
  unfold Math_min. rewrite Hn, Hlt, H. reflexivity.
Qed.

Lemma Math_min_under (p : float) : (p <? 100)%float = true -> Math_min p 100 = p.
Proof.
  intros H. destruct (ltb_true _ _ H) as [Hn _].
  unfold Math_min. now rewrite Hn, H.
Qed.

(** X13. What a row shows follows from one comparison with 100.  Above 100:
    the alert icon, a red bar, red text, and a bar width capped at "100%".
    At 100: the check icon, an amber bar of width "100%" and grey text.
    Below 100: no icon, grey text, a bar as wide as the percentage, amber
    above 85 and green otherwise.  [NaN]: no icon, a green bar of width
    "NaN%".  One of the four always is the case. *)
Theorem row_status (p : float) :
  ((100 <? p)%float = true ->
   statusIcon p = Some AlertTriangle
   /\ barClass p = "h-full rounded-full bg-red-500"
   /\ barWidth p = "100%"
   /\ percentageClass p = "text-sm font-bold text-red-500")
  /\ ((p =? 100)%float = true ->
      statusIcon p = Some CheckCircle2
      /\ barClass p = "h-full rounded-full bg-amber-500"
      /\ barWidth p = "100%"
      /\ percentageClass p = "text-sm font-bold text-slate-500")
  /\ ((p <? 100)%float = true ->
      statusIcon p = None
      /\ barClass p
         = "h-full rounded-full "
           ++ (if (85 <? p)%float then "bg-amber-500" else "bg-emerald-500")
      /\ barWidth p = Num.toString p ++ "%"
      /\ percentageClass p = "text-sm font-bold text-slate-500")
  /\ (is_nan p = true ->
      statusIcon p = None
      /\ barClass p = "h-full rounded-full bg-emerald-500"
      /\ barWidth p = "NaN%"
      /\ percentageClass p = "text-sm font-bold text-slate-500")
  /\ ((100 <? p)%float = true \/ (p =? 100)%float = true
      \/ (p <? 100)%float = true \/ is_nan p = true).
Proof.
  split; [|split; [|split; [|split]]].
  - intros H. unfold statusIcon, barClass, barWidth, percentageClass.
    rewrite (Math_min_over p H), H. repeat split; reflexivity.
  - intros H. apply eqb_100 in H. subst p. repeat split; reflexivity.
  - intros H. destruct (ltb_true _ _ H) as [_ [_ [Hgt Heq]]].
    unfold statusIcon, barClass, barWidth, percentageClass.
    rewrite (Math_min_under p H), Hgt, Heq. repeat split; reflexivity.
  - intros H. apply is_nan_true in H. subst p. repeat split; reflexivity.
  - destruct (is_nan p) eqn:Hn; [tauto|].
    destruct (100 <? p)%float eqn:Hgt; [tauto|].
    destruct (p <? 100)%float eqn:Hlt; [tauto|].
    right. left. rewrite (between_is_100 p Hn Hlt Hgt). reflexivity.
Qed.

(** ** What the header shows *)

(** X12. With a total budget of zero the header shows no rate: its text is
    "NaN%" or "-Infinity%" in green, or "Infinity%" in red. *)
Theorem header_without_budget (analyzed : list AnalyzedItem.t) :
  (totalBudget analyzed =? 0)%float = true ->
  (overallText analyzed = "NaN%"
   /\ overallClass analyzed = "text-lg font-semibold text-emerald-500")
  \/ (overallText analyzed = "Infinity%"
      /\ overallClass analyzed = "text-lg font-semibold text-red-500")
  \/ (overallText analyzed = "-Infinity%"
      /\ overallClass analyzed = "text-lg font-semibold text-emerald-500").
Proof.
  intros Hz. unfold overallText, overallClass.
  pose proof (div_by_zero_times_100 (totalSpend analyzed) (totalBudget analyzed) Hz) as Hind.
  fold (overallPercentage analyzed) in Hind.
  destruct Hind as [-> | [-> | ->]]; [left | right; left | right; right];
    split; reflexivity.
Qed.

(** The dashboard with no item, and with a spend against no budget. *)
Lemma header_without_budget_witness :
  (totalBudget [] =? 0)%float = true
  /\ overallText [] = "NaN%"
  /\ overallText (analyzedData Str.asciiUpperCase [Item.mk 1 "租金" 500 0]) = "Infinity%".
Proof.
  assert (H : (totalBudget [] =? 0)%float = true) by reflexivity.
  split; [exact H|].
  split; [|reflexivity].
  destruct (header_without_budget [] H) as [[Ht _] | [[Ht _] | [Ht _]]];
    [exact Ht | discriminate Ht | discriminate Ht].
Defined.

(** ** More on the analyzer *)

Lemma zero_of_positive (s y : float) :
  (s =? 0)%float = true -> (0 <? y)%float = true ->
  exists b, Prim2SF (s / y * 100)%float = S754_zero b.
Proof.
  intros Hs Hy. destruct (eqb_zero_spec s Hs) as [bs Hbs].
  rewrite ltb_spec, Prim2SF_zero in Hy. unfold SFltb in Hy.
  rewrite mul_spec, div_spec, Hbs.
  replace (Prim2SF 100) with (S754_finite false 7036874417766400 (-46)) by reflexivity.
  unfold SF64mul, SF64div.
  destruct (Prim2SF y) as [sy | sy | | sy my ey]; cbn [SFcompare] in Hy;
    try discriminate Hy; cbn [SFdiv SFmul]; eauto.
Qed.

(** X14. An item on which nothing was spent shows 0, whatever its budget:
    its percentage is 0 and its row has no icon and a green bar of width
    "0%". *)
Theorem zero_spend_percentage (toUpperCase : string -> string) (item : Item.t) :
  (Item.spend item =? 0)%float = true ->
  let p := AnalyzedItem.percentage (analyzeItem toUpperCase item) in
  p = 0%float
  /\ statusIcon p = None
  /\ barClass p = "h-full rounded-full bg-emerald-500"
  /\ barWidth p = "0%".
Proof.
  intros Hs. cbv zeta.
  assert (Hp : AnalyzedItem.percentage (analyzeItem toUpperCase item) = 0%float).
  { rewrite analyzeItem_percentage.
    destruct (0 <? Item.budget item)%float eqn:Hb; [|reflexivity].
    destruct (zero_of_positive _ _ Hs Hb) as [b Hz].
    apply SF2Prim_eq in Hz. rewrite Hz. now destruct b. }
  rewrite Hp. repeat split; reflexivity.
Qed.

(** A budget line not yet drawn on, and one with no budget either. *)
Lemma zero_spend_percentage_witness :
  (Item.spend (Item.mk 8 "雲端備份" 0 5000) =? 0)%float = true
  /\ AnalyzedItem.percentage (analyzeItem Str.asciiUpperCase (Item.mk 8 "雲端備份" 0 5000))
     = 0%float
  /\ barWidth (AnalyzedItem.percentage
                 (analyzeItem Str.asciiUpperCase (Item.mk 9 "雲端備份" 0 0))) = "0%".
Proof.
  assert (H : (Item.spend (Item.mk 8 "雲端備份" 0 5000) =? 0)%float = true) by reflexivity.
  split; [exact H|]. split; [|reflexivity].
  destruct (zero_spend_percentage Str.asciiUpperCase (Item.mk 8 "雲端備份" 0 5000) H)
    as [Hp _].
  exact Hp.
Defined.

(** ** Whole amounts in the store *)

Lemma digitVal_range (c : ascii) : Num.isDigit c = true -> (0 <= Num.digitVal c <= 9)%Z.
Proof.
  unfold Num.isDigit, Num.digitVal. intros H. apply andb_true_iff in H.
  destruct H as [H1 H2]. apply Nat.leb_le in H1. apply Nat.leb_le in H2.
  set (n := nat_of_ascii c) in *. clearbody n. lia.
Qed.

Lemma valFrom_nonneg (s : string) (acc : Z) :
  allDigits s = true -> (0 <= acc)%Z -> (0 <= valFrom acc s)%Z.
Proof.
  revert acc. induction s as [|c s IH]; intros acc Hs Hacc; cbn [valFrom]; [exact Hacc|].
  cbn [allDigits] in Hs. apply andb_true_iff in Hs. destruct Hs as [Hc Hs].
  apply IH; [exact Hs|]. pose proof (digitVal_range c Hc). lia.
Qed.

Lemma ofDecimal_integer (z : Z) : (0 <= z)%Z -> Num.ofDecimal false z 0 = ofInteger z.
Proof.
  intros Hz. destruct z as [|p|p]; [reflexivity | | lia].
  unfold Num.ofDecimal, ofInteger. cbn [Z.leb Z.compare cond_Zopp].
  change (10 ^ 0)%Z with 1%Z. now rewrite Z.mul_1_r.
Qed.

(** [parseFloat] on a string of digits reads the integer they spell. *)
Lemma parseFloat_digits (s : string) :
  allDigits s = true -> s <> "" -> Num.parseFloat s = ofInteger (valFrom 0 s).
Proof.
  intros Hs Hne. destruct s as [|c s']; [congruence|].
  assert (Hc : Num.isDigit c = true) by (simpl in Hs; now apply andb_true_iff in Hs).
  rewrite <- ofDecimal_integer by (apply valFrom_nonneg; [exact Hs | lia]).
  assert (Hbody : forall u, u = String c s' ->
            (if Str.startsWith u "Infinity" then infinity
             else
               let '(int, ilen, r1) := Num.digits u 0 0 in
               match r1 with
               | String "." r2 =>
                   let '(M, flen, r3) := Num.digits r2 int 0 in
                   if ((ilen =? 0) && (flen =? 0))%Z then nan
                   else Num.ofDecimal false M (Num.exponentPart r3 - flen)
               | _ =>
                   if (ilen =? 0)%Z then nan
                   else Num.ofDecimal false int (Num.exponentPart r1)
               end)
            = Num.ofDecimal false (valFrom 0 (String c s')) 0).
  { intros u ->.
    assert (Hinf : Str.startsWith (String c s') "Infinity" = false).
    { pose proof (digit_cases c Hc) as Hd. simpl in Hd.
      repeat (destruct Hd as [<- | Hd]; [reflexivity|]). contradiction. }
    rewrite Hinf, (digits_all (String c s') 0 0 Hs).
    replace ((0 + Z.of_nat (String.length (String c s')) =? 0)%Z) with false
      by (symmetry; apply Z.eqb_neq; simpl String.length; lia).
    reflexivity. }
  unfold Num.parseFloat. rewrite trimStart_none by now apply whiteSpaceLen_digit.
  pose proof (digit_cases c Hc) as Hd. simpl in Hd.
  repeat (destruct Hd as [<- | Hd]; [now apply Hbody|]). contradiction.
Qed.

Lemma wholeAmount_ofInteger (z : Z) : (0 <= z < 2 ^ 53)%Z -> wholeAmount (ofInteger z).
Proof.
  intros Hz. unfold wholeAmount. now rewrite toInteger_ofInteger.
Qed.

(** X15. Whole amounts stay whole.  When every item of the list has a whole,
    non-negative spend and budget below [2^53], this is still so after any
    deletion, and after a submit of a form whose two number fields hold
    digits of a value below [2^53]; the item the submit stores has exactly
    the integers the digits spell. *)
Theorem store_keeps_whole_amounts (st : State.t) :
  wholeData (State.data st) ->
  (forall id, wholeData (State.data (deleteItem id st)))
  /\ (forall now, wholeFields (State.newItem st) ->
        wholeData (State.data (handleAddItem now st))
        /\ (~ someFieldEmpty (State.newItem st) ->
            State.data (handleAddItem now st)
            = (State.data st
               ++ [Item.mk now (NewItem.name (State.newItem st))
                     (ofInteger (valFrom 0 (NewItem.spend (State.newItem st))))
                     (ofInteger (valFrom 0 (NewItem.budget (State.newItem st))))])%list)).
Proof.
  intros Hw. split.
  - intros id. unfold deleteItem, wholeData in *. cbn [State.data].
    rewrite Forall_forall in *. intros x Hx. apply filter_In in Hx. now apply Hw.
  - intros now [Hs [Hb [Hsv Hbv]]].
    assert (Hadd : ~ someFieldEmpty (State.newItem st) ->
              State.data (handleAddItem now st)
              = (State.data st
                 ++ [Item.mk now (NewItem.name (State.newItem st))
                       (ofInteger (valFrom 0 (NewItem.spend (State.newItem st))))
                       (ofInteger (valFrom 0 (NewItem.budget (State.newItem st))))])%list).
    { intros Hne. unfold handleAddItem.
      assert (Hg : falsy (NewItem.name (State.newItem st))
                   || falsy (NewItem.spend (State.newItem st))
                   || falsy (NewItem.budget (State.newItem st)) = false).
      { rewrite <- guard_spec in Hne. now destruct (_ || _ || _). }
      rewrite Hg. cbn [State.data].
      unfold someFieldEmpty in Hne.
      rewrite !parseFloat_digits by tauto. reflexivity. }
    split; [|exact Hadd].
    destruct (guard_spec (State.newItem st)) as [Hg1 Hg2].
    unfold handleAddItem in *.
    destruct (falsy (NewItem.name (State.newItem st))
              || falsy (NewItem.spend (State.newItem st))
              || falsy (NewItem.budget (State.newItem st))) eqn:Hg; [exact Hw|].
    rewrite Hadd by (intros H; apply Hg2 in H; discriminate H).
    unfold wholeData. apply Forall_app. split; [exact Hw|].
    constructor; [|constructor]. cbn [Item.spend Item.budget].
    split; apply wholeAmount_ofInteger; split; try assumption;
      apply valFrom_nonneg; (assumption || lia).
Qed.

(** The initial list, and a submit of whole numbers on it. *)
Lemma store_keeps_whole_amounts_witness :
  let st := State.mk initialData (NewItem.mk "差旅費" "8400" "10000") in
  wholeData (State.data st)
  /\ wholeFields (State.newItem st)
  /\ wholeData (State.data (handleAddItem 1700000000000 st))
  /\ wholeData (State.data (deleteItem 3 st)).
Proof.
  cbv zeta.
  assert (Hw : wholeData (State.data (State.mk initialData (NewItem.mk "差旅費" "8400" "10000")))).
  { repeat constructor; vm_compute; congruence. }
  assert (Hf : wholeFields (State.newItem (State.mk initialData (NewItem.mk "差旅費" "8400" "10000")))).
  { repeat split; vm_compute; reflexivity. }
  destruct (store_keeps_whole_amounts _ Hw) as [Hdel Hadd].
  split; [exact Hw|]. split; [exact Hf|].
  split; [exact (proj1 (Hadd 1700000000000%Z Hf)) | exact (Hdel 3%Z)].
Defined.

(** ** An item exactly on budget *)

Lemma new_location_zero (nb : Z) : new_location nb 0 = loc_Exact.
Proof.
  unfold new_location, new_location_even, new_location_odd.
  destruct (Z.even nb); reflexivity.
Qed.

Lemma div_eucl_exact (m : positive) (k : Z) :
  (0 <= k)%Z -> Z.div_eucl (Z.shiftl (Zpos m) k) (Zpos m) = ((2 ^ k)%Z, 0%Z).
Proof.
  intros Hk. rewrite Z.shiftl_mul_pow2 by exact Hk.
  pose proof (Z.div_mul (2 ^ k) (Zpos m) ltac:(lia)) as Hq.
  pose proof (Z.mod_mul (2 ^ k) (Zpos m) ltac:(lia)) as Hr.
  unfold Z.div, Z.modulo in Hq, Hr.
  replace (Zpos m * 2 ^ k)%Z with (2 ^ k * Zpos m)%Z by lia.
  destruct (Z.div_eucl (2 ^ k * Zpos m) (Zpos m)) as [q r]. simpl in Hq, Hr. congruence.
Qed.

(** A finite Number divided by itself is 1. *)
Lemma SFdiv_self (m : positive) (e : Z) :
  SFdiv prec emax (S754_finite false m e) (S754_finite false m e)
  = S754_finite false 4503599627370496 (-52).
Proof.
  unfold SFdiv, SFdiv_core_binary.
  replace (Zdigits2 (Zpos m) + e - (Zdigits2 (Zpos m) + e))%Z with 0%Z by lia.
  replace (e - e)%Z with 0%Z by lia.
  change (Z.min (fexp prec emax 0) 0) with (-53)%Z.
  change (0 - -53)%Z with 53%Z. cbv beta iota zeta.
  rewrite (div_eucl_exact m 53) by lia.
  rewrite new_location_zero. cbn [xorb].
  change (2 ^ 53)%Z with (Zpos 4503599627370496 * 2 ^ 1)%Z.
  rewrite binary_round_aux_exact; [reflexivity | lia | reflexivity | lia].
Qed.

Lemma positive_finite (b : float) :
  (0 <? b)%float = true -> (b <? infinity)%float = true ->
  exists m e, Prim2SF b = S754_finite false m e.
Proof.
  rewrite !ltb_spec, Prim2SF_zero. unfold SFltb.
  replace (Prim2SF infinity) with (S754_infinity false) by reflexivity.
  destruct (Prim2SF b) as [s | s | | s m e]; cbn [SFcompare]; intros H0 Hinf;
    try discriminate H0; try (destruct s; discriminate).
  destruct s; [discriminate H0|]. now exists m, e.
Qed.

Lemma div_self (b : float) :
  (0 <? b)%float = true -> (b <? infinity)%float = true -> (b / b)%float = 1%float.
Proof.
  intros H0 Hinf. destruct (positive_finite b H0 Hinf) as [m [e Hb]].
  apply Prim2SF_inj. rewrite div_spec, Hb. unfold SF64div. rewrite SFdiv_self. reflexivity.
Qed.

(** X16. An item whose spend equals its budget, a positive finite Number,
    is at exactly 100: the division gives 1 without rounding, the percentage
    is 100, and the row shows the check icon with an amber bar of width
    "100%". *)
Theorem on_budget_percentage (toUpperCase : string -> string) (item : Item.t) :
  (0 <? Item.budget item)%float = true ->
  (Item.budget item <? infinity)%float = true ->
  Item.spend item = Item.budget item ->
  let p := AnalyzedItem.percentage (analyzeItem toUpperCase item) in
  p = 100%float
  /\ statusIcon p = Some CheckCircle2
  /\ barClass p = "h-full rounded-full bg-amber-500"
  /\ barWidth p = "100%".
Proof.
  intros H0 Hinf Heq. cbv zeta.
  assert (Hp : AnalyzedItem.percentage (analyzeItem toUpperCase item) = 100%float).
  { rewrite analyzeItem_percentage, H0, Heq, (div_self _ H0 Hinf). reflexivity. }
  rewrite Hp. repeat split; reflexivity.
Qed.

(** The first of the initial items: 50000 of 50000. *)
Lemma on_budget_percentage_witness :
  let item := Item.mk 1 "辦公室租金" 50000 50000 in
  (0 <? Item.budget item)%float = true
  /\ (Item.budget item <? infinity)%float = true
  /\ Item.spend item = Item.budget item
  /\ AnalyzedItem.percentage (analyzeItem Str.asciiUpperCase item) = 100%float.
Proof.
  cbv zeta.
  assert (H0 : (0 <? Item.budget (Item.mk 1 "辦公室租金" 50000 50000))%float = true)
    by reflexivity.
  assert (H1 : (Item.budget (Item.mk 1 "辦公室租金" 50000 50000) <? infinity)%float = true)
    by reflexivity.
  assert (H2 : Item.spend (Item.mk 1 "辦公室租金" 50000 50000)
               = Item.budget (Item.mk 1 "辦公室租金" 50000 50000)) by reflexivity.
  split; [exact H0|]. split; [exact H1|]. split; [exact H2|].
  destruct (on_budget_percentage Str.asciiUpperCase
              (Item.mk 1 "辦公室租金" 50000 50000) H0 H1 H2) as [Hp _].
  exact Hp.
Defined.

(** ** Rounding to two decimals

    [parseFloat(x.toFixed(2))] goes through a decimal string.  Below, it is
    shown to be the rounding to two decimals of [roundedTo2], for every
    Number: below [10^21] through the digits of [toFixed], from [10^21] on
    through the digits of Number::toString, which give a whole Number
    back. *)

Local Open Scope Z_scope.

Lemma nearestHundredths_unique m e n n' :
  nearestHundredths m e n -> nearestHundredths m e n' -> n = n'.
Proof.
  unfold nearestHundredths. intros [H1 H2] [H3 H4].
  assert (HD : 0 < 2 ^ Z.max (- e) 0) by (apply Z.pow_pos_nonneg; lia).
  nia.
Qed.

Lemma roundScaled_hundredths m e : nearestHundredths m e (Num.roundScaled m e 2).
Proof.
  pose proof (roundScaled_nearest m e 2) as H. cbv zeta in H.
  change (10 ^ 2) with 100 in H. unfold nearestHundredths. lia.
Qed.

Lemma ofDecimal_hundredths neg n : Num.ofDecimal neg n (-2) = nearestQuotient neg n 100.
Proof.
  destruct n; reflexivity.
Qed.

(** What a finite Number is made of. *)
Lemma finite_valid (x : float) neg m e :
  Prim2SF x = S754_finite neg m e ->
  -1074 <= e <= 971 /\ Z.log2 (Zpos m) <= 52 /\ (-1074 < e -> Z.log2 (Zpos m) = 52).
Proof.
  intros Hx. pose proof (Prim2SF_valid x) as Hv. rewrite Hx in Hv.
  cbn [valid_binary] in Hv. unfold bounded, canonical_mantissa in Hv.
  apply andb_true_iff in Hv. destruct Hv as [Hc He].
  apply Z.eqb_eq in Hc. apply Z.leb_le in He.
  rewrite digits2_log2 in Hc. unfold fexp, SpecFloat.emin, prec, emax in *.
  lia.
Qed.

Lemma finite_big (x : float) neg m e :
  Prim2SF x = S754_finite neg m e -> Num.ltPow10 m e 21 = false ->
  17 <= e <= 971 /\ Z.log2 (Zpos m) = 52 /\ 10 ^ 21 <= Zpos m * 2 ^ e.
Proof.
  intros Hx Hbig. destruct (finite_valid x neg m e Hx) as [He [Hlog Hcan]].
  unfold Num.ltPow10 in Hbig. apply Z.ltb_ge in Hbig.
  change (Z.max (- (21)) 0) with 0 in Hbig. change (Z.max 21 0) with 21 in Hbig.
  change (10 ^ 0) with 1 in Hbig. rewrite Z.mul_1_r in Hbig.
  assert (Hm : Zpos m < 2 ^ 53).
  { apply Z.log2_lt_pow2; lia. }
  destruct (Z.le_gt_cases 0 e) as [H0 | H0].
  - rewrite (Z.max_l e 0), (Z.max_r (- e) 0) in Hbig by lia.
    change (2 ^ 0) with 1 in Hbig. rewrite Z.mul_1_r in Hbig.
    assert (17 <= e).
    { destruct (Z.le_gt_cases 17 e) as [|Hlt]; [assumption|exfalso].
      assert (2 ^ e <= 2 ^ 16) by (apply Z.pow_le_mono_r; lia).
      assert (Zpos m * 2 ^ e < 2 ^ 53 * 2 ^ 16).
      { assert (0 < 2 ^ e) by (apply Z.pow_pos_nonneg; lia). nia. }
      change (2 ^ 53 * 2 ^ 16) with 590295810358705651712 in *.
      change (10 ^ 21) with 1000000000000000000000 in *. lia. }
    repeat split; lia.
  - exfalso. rewrite (Z.max_r e 0), (Z.max_l (- e) 0) in Hbig by lia.
    change (2 ^ 0) with 1 in Hbig. rewrite Z.mul_1_r in Hbig.
    assert (1 <= 2 ^ (- e)) by (apply (Z.pow_le_mono_r 2 0 (- e)); lia).
    change (10 ^ 21) with 1000000000000000000000 in *.
    change (2 ^ 53) with 9007199254740992 in *. nia.
Qed.

(** The number of digits before the point. *)
Lemma magnitudeFrom_spec (m : positive) (e : Z) (fuel : nat) (lo hi : Z) :
  lo <= hi < lo + Z.of_nat fuel -> Num.ltPow10 m e hi = true ->
  let N := Num.magnitudeFrom fuel m e lo in
  lo <= N <= hi /\ Num.ltPow10 m e N = true
  /\ forall n, lo <= n < N -> Num.ltPow10 m e n = false.
Proof.
  revert lo. induction fuel as [|fuel IH]; intros lo Hhi Hlt; [lia|].
  cbn [Num.magnitudeFrom]. destruct (Num.ltPow10 m e lo) eqn:Hlo.
  - cbv zeta. repeat split; try lia. exact Hlo.
  - assert (Hne : lo <> hi) by (intros ->; congruence).
    destruct (IH (lo + 1)) as [H1 [H2 H3]]; [lia | exact Hlt |].
    cbv zeta. repeat split; try lia; [exact H2|].
    intros n Hn. destruct (Z.eq_dec n lo) as [-> | Hd]; [exact Hlo | apply H3; lia].
Qed.

Lemma magnitude_big (x : float) neg m e :
  Prim2SF x = S754_finite neg m e -> Num.ltPow10 m e 21 = false ->
  let N := Num.magnitude m e in
  22 <= N <= 309 /\ 10 ^ (N - 1) <= Zpos m * 2 ^ e < 10 ^ N.
Proof.
  intros Hx Hbig. destruct (finite_big x neg m e Hx Hbig) as [He [Hlog H21]].
  assert (Hm : Zpos m < 2 ^ 53) by (apply Z.log2_lt_pow2; lia).
  assert (Hlt : forall n, 0 <= n ->
            Num.ltPow10 m e n = (Zpos m * 2 ^ e <? 10 ^ n)).
  { intros n Hn. unfold Num.ltPow10.
    rewrite (Z.max_l e 0), (Z.max_r (- e) 0), (Z.max_r (- n) 0), (Z.max_l n 0) by lia.
    change (2 ^ 0) with 1. change (10 ^ 0) with 1. now rewrite !Z.mul_1_r. }
  assert (H309 : Num.ltPow10 m e 309 = true).
  { rewrite Hlt by lia. apply Z.ltb_lt.
    assert (2 ^ e <= 2 ^ 971) by (apply Z.pow_le_mono_r; lia).
    assert (0 < 2 ^ e) by (apply Z.pow_pos_nonneg; lia).
    assert (Zpos m * 2 ^ e < 2 ^ 53 * 2 ^ 971) by nia.
    assert (2 ^ 53 * 2 ^ 971 < 10 ^ 309) by (apply Z.ltb_lt; vm_compute; reflexivity).
    lia. }
  destruct (magnitudeFrom_spec m e 640 (-324) 309 ltac:(lia) H309) as [H1 [H2 H3]].
  fold (Num.magnitude m e) in H1, H2, H3. cbv zeta.
  set (N := Num.magnitude m e) in *.
  assert (HN : 22 <= N).
  { destruct (Z.le_gt_cases 22 N) as [|Hsmall]; [assumption|exfalso].
    destruct (Z.le_gt_cases 0 N) as [Hpos | Hneg].
    - rewrite Hlt in H2 by lia. apply Z.ltb_lt in H2.
      assert (10 ^ N <= 10 ^ 21) by (apply Z.pow_le_mono_r; lia). lia.
    - unfold Num.ltPow10 in H2. apply Z.ltb_lt in H2.
      rewrite (Z.max_l e 0), (Z.max_r (- e) 0), (Z.max_l (- N) 0), (Z.max_r N 0) in H2 by lia.
      change (2 ^ 0) with 1 in H2. change (10 ^ 0) with 1 in H2.
      assert (0 < 10 ^ (- N)) by (apply Z.pow_pos_nonneg; lia).
      assert (0 < 2 ^ e) by (apply Z.pow_pos_nonneg; lia). nia. }
  split; [lia|]. split.
  - specialize (H3 (N - 1) ltac:(lia)). rewrite Hlt in H3 by lia. now apply Z.ltb_ge in H3.
  - rewrite Hlt in H2 by lia. now apply Z.ltb_lt in H2.
Qed.

Lemma floorScaled_whole (m : positive) (e p : Z) :
  0 <= e -> 0 <= p -> Num.floorScaled m e p = (Zpos m * 2 ^ e) / 10 ^ p.
Proof.
  intros He Hp. unfold Num.floorScaled.
  rewrite (Z.max_l e 0), (Z.max_r (- e) 0), (Z.max_r (- p) 0), (Z.max_l p 0) by lia.
  change (2 ^ 0) with 1. change (10 ^ 0) with 1. now rewrite Z.mul_1_r, Z.mul_1_l.
Qed.

Lemma ofDecimal_whole (neg : bool) (M E : Z) :
  0 < M -> 0 <= E ->
  Num.ofDecimal neg M E
  = SF2Prim (binary_normalize prec emax (cond_Zopp neg (M * 10 ^ E)) 0 false).
Proof.
  intros HM HE. unfold Num.ofDecimal. destruct M as [|p|p]; try lia.
  replace (0 <=? E) with true by (symmetry; apply Z.leb_le; lia). reflexivity.
Qed.

(** The digits of a whole Number give it back. *)
Lemma ofDecimal_own_digits (y : float) (m : positive) (e : Z) :
  Prim2SF y = S754_finite false m e -> 0 <= e ->
  Num.ofDecimal false (Zpos m * 2 ^ e) 0 = y.
Proof.
  intros Hy He. destruct (finite_valid y false m e Hy) as [Hr [_ Hlog]].
  assert (Hpos : 0 < Zpos m * 2 ^ e)
    by (apply Z.mul_pos_pos; [lia | apply Z.pow_pos_nonneg; lia]).
  rewrite ofDecimal_whole by lia. cbn [cond_Zopp].
  change (10 ^ 0) with 1. rewrite Z.mul_1_r.
  rewrite (binary_normalize_shifted m 0 e) by (try reflexivity; try lia).
  rewrite Z.add_0_l, <- Hy. apply SF2Prim_Prim2SF.
Qed.

Lemma shortestWith_sound (y : float) (m : positive) (e k s n : Z) :
  Num.shortestWith y m e k = Some (s, n) ->
  let N := Num.magnitude m e in
  exists c,
    (c = Num.floorScaled m e (N - k) \/ c = Num.floorScaled m e (N - k) + 1)
    /\ Num.ofDecimal false c (N - k) = y
    /\ (s, n) = if c =? 10 ^ k then (10 ^ (k - 1), N + 1) else (c, N).
Proof.
  unfold Num.shortestWith. cbv zeta.
  set (N := Num.magnitude m e). set (lo := Num.floorScaled m e (N - k)).
  destruct (Leibniz.eqb (Num.ofDecimal false lo (N - k)) y) eqn:Hlo;
    destruct (Leibniz.eqb (Num.ofDecimal false (lo + 1) (N - k)) y) eqn:Hhi;
    try apply Leibniz.eqb_spec in Hlo; try apply Leibniz.eqb_spec in Hhi.
  - destruct (Z.compare _ _); [destruct (Z.even lo)| |]; intros [= <-];
      eexists; (split; [|split; [|reflexivity]]); auto.
  - intros [= <-]. exists lo. auto.
  - intros [= <-]. exists (lo + 1). auto.
  - discriminate.
Qed.

Lemma shortestWith_own_digits (y : float) (m : positive) (e : Z) :
  Prim2SF y = S754_finite false m e -> 0 <= e ->
  Num.shortestWith y m e (Num.magnitude m e) <> None.
Proof.
  intros Hy He. unfold Num.shortestWith. cbv zeta.
  replace (Num.magnitude m e - Num.magnitude m e) with 0 by lia.
  rewrite floorScaled_whole by lia. change (10 ^ 0) with 1. rewrite Z.div_1_r.
  rewrite (ofDecimal_own_digits y m e Hy He).
  replace (Leibniz.eqb y y) with true by (symmetry; now apply Leibniz.eqb_spec).
  destruct (Leibniz.eqb _ y); [|discriminate].
  destruct (Z.compare _ _); discriminate.
Qed.

Lemma shortestFrom_finds (y : float) (m : positive) (e : Z) (fuel : nat) (k k' : Z) :
  k <= k' < k + Z.of_nat fuel -> Num.shortestWith y m e k' <> None ->
  exists k0 s n,
    Num.shortestFrom fuel y m e k = (k0, s, n)
    /\ k <= k0 <= k' /\ Num.shortestWith y m e k0 = Some (s, n).
Proof.
  revert k. induction fuel as [|fuel IH]; intros k Hk Hsome; [lia|].
  cbn [Num.shortestFrom]. destruct (Num.shortestWith y m e k) as [[s n]|] eqn:Hw.
  - exists k, s, n. repeat split; try lia. exact Hw.
  - assert (Hne : k <> k') by (intros ->; congruence).
    destruct (IH (k + 1)) as [k0 [s [n [H1 [H2 H3]]]]]; [lia | exact Hsome |].
    exists k0, s, n. repeat split; try lia; assumption.
Qed.

(** The digits of a Number from [10^21] on: [k] of them, [s], with
    [s × 10^(n-k)] giving the Number back. *)
Lemma shortest_big (y : float) (m : positive) (e : Z) :
  Prim2SF y = S754_finite false m e -> Num.ltPow10 m e 21 = false ->
  exists k s n,
    Num.shortestFrom 310 y m e 1 = (k, s, n)
    /\ 1 <= k <= n /\ 22 <= n /\ 10 ^ (k - 1) <= s < 10 ^ k
    /\ Num.ofDecimal false s (n - k) = y.
Proof.
  intros Hy Hbig.
  destruct (finite_big y false m e Hy Hbig) as [He [Hlog H21]].
  destruct (magnitude_big y false m e Hy Hbig) as [HN HX].
  set (N := Num.magnitude m e) in *. set (X := Zpos m * 2 ^ e) in *.
  destruct (shortestFrom_finds y m e 310 1 N ltac:(lia)
              (shortestWith_own_digits y m e Hy ltac:(lia)))
    as [k [s [n [Hfrom [Hk Hwith]]]]].
  exists k, s, n. split; [exact Hfrom|].
  destruct (shortestWith_sound y m e k s n Hwith) as [c [Hc [Hback Hsn]]].
  fold N in Hc, Hback, Hsn.
  rewrite floorScaled_whole in Hc by lia. fold X in Hc.
  assert (Hp : 0 < 10 ^ (N - k)) by (apply Z.pow_pos_nonneg; lia).
  assert (Hlo : 10 ^ (k - 1) <= X / 10 ^ (N - k) < 10 ^ k).
  { split.
    - apply Z.div_le_lower_bound; [exact Hp|].
      rewrite <- Z.pow_add_r by lia. replace (N - k + (k - 1)) with (N - 1) by lia. lia.
    - apply Z.div_lt_upper_bound; [exact Hp|].
      rewrite <- Z.pow_add_r by lia. replace (N - k + k) with N by lia. lia. }
  assert (H1 : 0 < 10 ^ (k - 1)) by (apply Z.pow_pos_nonneg; lia).
  assert (Hcr : 10 ^ (k - 1) <= c <= 10 ^ k) by (destruct Hc as [-> | ->]; lia).
  destruct (Z.eqb_spec c (10 ^ k)) as [Heq | Hne]; injection Hsn as -> ->.
  - assert (10 ^ (k - 1) < 10 ^ k) by (apply Z.pow_lt_mono_r; lia).
    split; [lia|]. split; [lia|]. split; [lia|].
    rewrite <- Hback, Heq, !ofDecimal_whole
      by (try lia; apply Z.pow_pos_nonneg; lia).
    rewrite <- !Z.pow_add_r by lia. do 4 f_equal. lia.
  - split; [lia|]. split; [lia|]. split; [lia|]. exact Hback.
Qed.

(** ** How many digits *)

Lemma valFrom_split (s : string) (acc : Z) :
  valFrom acc s = acc * 10 ^ Z.of_nat (String.length s) + valFrom 0 s.
Proof.
  revert acc. induction s as [|c s IH]; intros acc.
  - simpl. lia.
  - cbn [valFrom String.length]. rewrite (IH (10 * acc + Num.digitVal c)), (IH (10 * 0 + Num.digitVal c)).
    rewrite Nat2Z.inj_succ, Z.pow_succ_r by lia. lia.
Qed.

Lemma valFrom_lt (s : string) :
  allDigits s = true -> 0 <= valFrom 0 s < 10 ^ Z.of_nat (String.length s).
Proof.
  induction s as [|c s IH]; intros Hs.
  - simpl. lia.
  - cbn [allDigits] in Hs. apply andb_true_iff in Hs. destruct Hs as [Hc Hs].
    cbn [valFrom String.length]. rewrite valFrom_split.
    rewrite Nat2Z.inj_succ, Z.pow_succ_r by lia.
    pose proof (digitVal_range c Hc). specialize (IH Hs). nia.
Qed.

Lemma nzhead_head (u : Decimal.uint) :
  match Decimal.nzhead u with Decimal.D0 _ => False | _ => True end.
Proof.
  induction u; simpl; auto.
Qed.

Lemma to_uint_head (p : positive) :
  match Pos.to_uint p with Decimal.Nil | Decimal.D0 _ => False | _ => True end.
Proof.
  pose proof (Unsigned.to_of (Pos.to_uint p)) as H.
  rewrite Unsigned.of_to in H. cbn [N.to_uint] in H.
  pose proof (Unsigned.to_uint_nonzero p) as Hnz.
  pose proof (Unsigned.to_uint_nonnil p) as Hnn.
  destruct (Pos.to_uint p) as [|u|u|u|u|u|u|u|u|u|u] eqn:Hd; auto.
  rewrite DecimalFacts.unorm_D0 in H. unfold Decimal.unorm in H.
  pose proof (nzhead_head u) as Hh.
  destruct (Decimal.nzhead u) eqn:Hu; try discriminate H; try contradiction.
Qed.

(** The decimal of a positive integer starts with a digit that is not 0. *)
Lemma decimal_head (n : Z) :
  0 < n -> exists c r, Num.decimal n = String c r /\ 1 <= Num.digitVal c.
Proof.
  intros Hn. unfold Num.decimal. destruct n as [|p|p]; try lia.
  cbn [Z.to_N N.to_uint]. pose proof (to_uint_head p) as Hh.
  destruct (Pos.to_uint p); try contradiction;
    cbn [NilZero.string_of_uint NilEmpty.string_of_uint];
    eexists; eexists; (split; [reflexivity | vm_compute; discriminate]).
Qed.

Lemma decimal_length (s k : Z) :
  1 <= k -> 10 ^ (k - 1) <= s < 10 ^ k ->
  String.length (Num.decimal s) = Z.to_nat k.
Proof.
  intros Hk Hs.
  assert (Hpos : 0 < s) by (assert (0 < 10 ^ (k - 1)) by (apply Z.pow_pos_nonneg; lia); lia).
  destruct (decimal_head s Hpos) as [c [r [Hd Hc]]].
  pose proof (decimal_allDigits s) as Hall. pose proof (decimal_value s ltac:(lia)) as Hval.
  rewrite Hd in *. cbn [allDigits] in Hall. apply andb_true_iff in Hall.
  destruct Hall as [Hcd Hr]. cbn [valFrom] in Hval. rewrite valFrom_split in Hval.
  pose proof (valFrom_lt r Hr) as Hlt. pose proof (digitVal_range c Hcd) as Hrange.
  cbn [String.length].
  set (L := Z.of_nat (String.length r)) in *.
  assert (HL : 0 <= L) by (unfold L; lia).
  assert (HP : 0 < 10 ^ L) by (apply Z.pow_pos_nonneg; lia).
  assert (Hlow : 10 ^ L <= s) by nia.
  assert (Hhigh : s < 10 ^ (L + 1)) by (rewrite Z.pow_add_r by lia; change (10 ^ 1) with 10; nia).
  assert (L + 1 = k).
  { destruct (Z.lt_trichotomy (L + 1) k) as [Hlt' | [Heq | Hgt]]; [exfalso | exact Heq | exfalso].
    - assert (10 ^ (L + 1) <= 10 ^ (k - 1)) by (apply Z.pow_le_mono_r; lia). lia.
    - assert (10 ^ k <= 10 ^ L) by (apply Z.pow_le_mono_r; lia). lia. }
  unfold L in *. lia.
Qed.

(** ** Reading a literal with an exponent *)

Lemma whiteSpaceLen_point (r : string) : Num.whiteSpaceLen (String "." r) = 0%nat.
Proof.
  destruct r as [|c2 [|c3 r]]; reflexivity.
Qed.

(** [parseFloat] behind the sign, when a digit or a point comes first. *)
Lemma parseFloat_signed (neg : bool) (c : ascii) (r : string) :
  Num.isDigit c = true \/ c = "."%char ->
  Num.parseFloat ((if neg then "-" else "") ++ String c r)
  = let '(int, ilen, r1) := Num.digits (String c r) 0 0 in
    match r1 with
    | String "." r2 =>
        let '(M, flen, r3) := Num.digits r2 int 0 in
        if ((ilen =? 0) && (flen =? 0))%Z then nan
        else Num.ofDecimal neg M (Num.exponentPart r3 - flen)
    | _ =>
        if (ilen =? 0)%Z then nan else Num.ofDecimal neg int (Num.exponentPart r1)
    end.
Proof.
  intros Hc.
  assert (Hcases : In c ["0"; "1"; "2"; "3"; "4"; "5"; "6"; "7"; "8"; "9"; "."]%char).
  { destruct Hc as [Hc | ->]; [|simpl; tauto].
    pose proof (digit_cases c Hc) as Hd. simpl in Hd. simpl. tauto. }
  assert (Hws : Num.whiteSpaceLen (String c r) = 0%nat).
  { destruct Hc as [Hc | ->]; [now apply whiteSpaceLen_digit | apply whiteSpaceLen_point]. }
  unfold Num.parseFloat. destruct neg.
  - cbn [append]. rewrite trimStart_none by apply whiteSpaceLen_minus.
    simpl in Hcases.
    repeat (destruct Hcases as [<- | Hcases]; [reflexivity|]). contradiction.
  - cbn [append]. rewrite trimStart_none by exact Hws.
    simpl in Hcases.
    repeat (destruct Hcases as [<- | Hcases]; [reflexivity|]). contradiction.
Qed.

Lemma parseFloat_point (neg : bool) (ip fp rest : string) :
  allDigits ip = true -> allDigits fp = true -> ip <> "" \/ fp <> "" ->
  noDigitHead rest ->
  Num.parseFloat ((if neg then "-" else "") ++ ip ++ "." ++ fp ++ rest)
  = Num.ofDecimal neg (valFrom 0 (ip ++ fp))
      (Num.exponentPart rest - Z.of_nat (String.length fp)).
Proof.
  intros Hip Hfp Hne Hrest.
  assert (Hhead : exists c r, ip ++ "." ++ fp ++ rest = String c r
                              /\ (Num.isDigit c = true \/ c = "."%char)).
  { destruct ip as [|c ip'].
    - eexists; eexists. split; [reflexivity | now right].
    - eexists; eexists. split; [reflexivity | left].
      cbn [allDigits] in Hip. now apply andb_true_iff in Hip. }
  destruct Hhead as [c [r [Hu Hc]]]. rewrite Hu, parseFloat_signed by exact Hc.
  rewrite <- Hu.
  rewrite (digits_run ip ("." ++ fp ++ rest) 0 0 Hip) by reflexivity.
  cbn [append]. rewrite (digits_run fp rest _ 0 Hfp) by exact Hrest.
  replace ((0 + Z.of_nat (String.length ip) =? 0) && (0 + Z.of_nat (String.length fp) =? 0))
    with false.
  - rewrite valFrom_app. reflexivity.
  - symmetry. apply andb_false_iff.
    destruct Hne as [Hn | Hn]; [left | right]; apply Z.eqb_neq;
      [destruct ip | destruct fp]; try congruence; cbn [String.length]; lia.
Qed.

Lemma parseFloat_whole (neg : bool) (ip rest : string) :
  allDigits ip = true -> ip <> "" ->
  match rest with
  | EmptyString => True
  | String c _ => Num.isDigit c = false /\ c <> "."%char
  end ->
  Num.parseFloat ((if neg then "-" else "") ++ ip ++ rest)
  = Num.ofDecimal neg (valFrom 0 ip) (Num.exponentPart rest).
Proof.
  intros Hip Hne Hrest.
  destruct ip as [|c ip'] eqn:Hipe; [congruence|]. rewrite <- Hipe in *.
  assert (Hc : Num.isDigit c = true).
  { rewrite Hipe in Hip. cbn [allDigits] in Hip. now apply andb_true_iff in Hip. }
  assert (Hu : ip ++ rest = String c (ip' ++ rest)) by (rewrite Hipe; reflexivity).
  rewrite Hu, parseFloat_signed by now left. rewrite <- Hu.
  rewrite (digits_run ip rest 0 0 Hip)
    by (destruct rest; [exact I | apply Hrest]).
  replace (0 + Z.of_nat (String.length ip) =? 0) with false
    by (symmetry; apply Z.eqb_neq; rewrite Hipe; cbn [String.length]; lia).
  destruct rest as [|c' rest']; [reflexivity|].
  destruct Hrest as [_ Hnp].
  destruct (Ascii.eqb_spec c' "."%char) as [-> | _]; [congruence|].
  destruct c' as [[] [] [] [] [] [] [] []]; try reflexivity; congruence.
Qed.

Lemma exponentPart_plus (E : Z) :
  0 <= E -> Num.exponentPart ("e+" ++ Num.decimal E) = E.
Proof.
  intros HE. cbn [append Num.exponentPart Ascii.eqb Bool.eqb orb].
  rewrite (digits_all _ 0 0 (decimal_allDigits E)), (decimal_value E HE).
  pose proof (decimal_nonempty E) as Hl.
  replace (0 + Z.of_nat (String.length (Num.decimal E)) =? 0) with false
    by (symmetry; apply Z.eqb_neq; lia).
  reflexivity.
Qed.

(** ** The sign *)

Lemma abs_finite (x : float) neg m e :
  Prim2SF x = S754_finite neg m e -> Prim2SF (abs x) = S754_finite false m e.
Proof.
  intros Hx. now rewrite abs_spec, Hx.
Qed.

Lemma abs_positive (y : float) m e : Prim2SF y = S754_finite false m e -> abs y = y.
Proof.
  intros Hy. apply Prim2SF_inj. now rewrite (abs_finite y false m e Hy).
Qed.

Lemma opp_abs_negative (x : float) m e :
  Prim2SF x = S754_finite true m e -> (- abs x)%float = x.
Proof.
  intros Hx. apply Prim2SF_inj. now rewrite opp_spec, abs_spec, Hx.
Qed.

Lemma binary_round_aux_sign (M E : Z) (l : location) :
  SF2Prim (binary_round_aux prec emax true M E l)
  = (- SF2Prim (binary_round_aux prec emax false M E l))%float.
Proof.
  unfold binary_round_aux.
  destruct (shr_fexp prec emax M E l) as [mrs' e'].
  destruct (shr_fexp prec emax _ e' loc_Exact) as [mrs'' e''].
  destruct (shr_m mrs'') as [|p|p]; try reflexivity.
  destruct (e'' <=? emax - prec); reflexivity.
Qed.

Lemma binary_normalize_sign (z : Z) :
  0 < z ->
  SF2Prim (binary_normalize prec emax (- z) 0 false)
  = (- SF2Prim (binary_normalize prec emax z 0 false))%float.
Proof.
  intros Hz. destruct z as [|p|p]; try lia.
  cbn [Z.opp binary_normalize]. unfold binary_round.
  destruct (shl_align _ _ _) as [mz ez]. apply binary_round_aux_sign.
Qed.

(** The digits that give [|x|] back give [x] back behind its sign. *)
Lemma ofDecimal_signed (x : float) (neg : bool) (m : positive) (e s E : Z) :
  Prim2SF x = S754_finite neg m e -> 0 < s -> 0 <= E ->
  Num.ofDecimal false s E = abs x -> Num.ofDecimal neg s E = x.
Proof.
  intros Hx Hs HE Hback. destruct neg.
  - rewrite ofDecimal_whole in * by assumption. cbn [cond_Zopp] in *.
    assert (Hp : 0 < s * 10 ^ E) by (apply Z.mul_pos_pos; [lia | apply Z.pow_pos_nonneg; lia]).
    rewrite binary_normalize_sign by exact Hp. rewrite Hback.
    now apply (opp_abs_negative x m e).
  - rewrite Hback. now apply (abs_positive x m e).
Qed.

(** ** From [10^21] on, [toFixed] and [parseFloat] give the Number back *)

Lemma toString_big (y : float) (m : positive) (e : Z) :
  Prim2SF y = S754_finite false m e -> Num.ltPow10 m e 21 = false ->
  exists k s n,
    1 <= k <= n /\ 22 <= n /\ 10 ^ (k - 1) <= s < 10 ^ k
    /\ Num.ofDecimal false s (n - k) = y
    /\ Num.toString y
       = if k =? 1 then Num.decimal s ++ "e+" ++ Num.decimal (n - 1)
         else Str.take 1 (Num.decimal s) ++ "." ++ Str.drop 1 (Num.decimal s)
              ++ "e+" ++ Num.decimal (n - 1).
Proof.
  intros Hy Hbig.
  destruct (shortest_big y m e Hy Hbig) as [k [s [n [Hfrom [Hk [Hn [Hs Hback]]]]]]].
  exists k, s, n. repeat (split; [assumption|]).
  unfold Num.toString. rewrite Hy, (abs_positive y m e Hy), Hfrom.
  replace (n <=? 21) with false by (symmetry; apply Z.leb_gt; lia).
  rewrite !andb_false_r.
  replace (n <=? 0) with false by (symmetry; apply Z.leb_gt; lia).
  rewrite !andb_false_r.
  replace (n - 1 <? 0) with false by (symmetry; apply Z.ltb_ge; lia).
  rewrite Z.abs_eq by lia.
  destruct (k =? 1); reflexivity.
Qed.

Lemma round2_big (x : float) (neg : bool) (m : positive) (e : Z) :
  Prim2SF x = S754_finite neg m e -> Num.ltPow10 m e 21 = false -> round2 x = x.
Proof.
  intros Hx Hbig. unfold round2, Num.toFixed. rewrite Hx, Hbig.
  pose proof (abs_finite x neg m e Hx) as Hy.
  destruct (toString_big (abs x) m e Hy Hbig) as [k [s [n [Hk [Hn [Hs [Hback Hstr]]]]]]].
  rewrite Hstr.
  assert (Hpos : 0 < s) by (assert (0 < 10 ^ (k - 1)) by (apply Z.pow_pos_nonneg; lia); lia).
  pose proof (decimal_length s k ltac:(lia) Hs) as Hlen.
  pose proof (decimal_allDigits s) as Hall.
  pose proof (decimal_value s ltac:(lia)) as Hval.
  assert (Hgoal : forall t,
            t = (if k =? 1 then Num.decimal s ++ "e+" ++ Num.decimal (n - 1)
                 else Str.take 1 (Num.decimal s) ++ "." ++ Str.drop 1 (Num.decimal s)
                      ++ "e+" ++ Num.decimal (n - 1)) ->
            Num.parseFloat ((if neg then "-" else "") ++ t) = x).
  { intros t ->. destruct (Z.eqb_spec k 1) as [Hk1 | Hk1].
    - rewrite parseFloat_whole;
        [| exact Hall | intros Hnil; rewrite Hnil in Hlen; simpl in Hlen; lia
         | split; [reflexivity | discriminate]].
      rewrite exponentPart_plus, Hval by lia.
      apply (ofDecimal_signed x neg m e); try assumption; try lia.
      now replace (n - 1) with (n - k) by lia.
    - pose proof (take_drop 1 (Num.decimal s)) as Htd.
      rewrite <- Htd in Hall. rewrite allDigits_app in Hall.
      apply andb_true_iff in Hall. destruct Hall as [Hi Hf].
      rewrite parseFloat_point; [| exact Hi | exact Hf | | reflexivity].
      + rewrite Htd, Hval, exponentPart_plus, length_drop, Hlen by lia.
        apply (ofDecimal_signed x neg m e); try assumption; try lia.
        now replace (n - 1 - Z.of_nat (Z.to_nat k - 1)) with (n - k) by lia.
      + left. intros Hnil. apply (f_equal String.length) in Htd.
        rewrite length_append, Hnil, length_drop, Hlen in Htd. simpl in Htd. lia. }
  destruct neg; now apply Hgoal.
Qed.

(** ** The nearest hundredth of a whole Number is the Number *)

Lemma nearestQuotient_whole (x : float) (neg : bool) (m : positive) (e : Z) :
  Prim2SF x = S754_finite neg m e -> Num.ltPow10 m e 21 = false ->
  nearestQuotient neg (100 * (Zpos m * 2 ^ e)) 100 = x.
Proof.
  intros Hx Hbig. destruct (finite_big x neg m e Hx Hbig) as [He [Hlog H21]].
  set (X := Zpos m * 2 ^ e) in *.
  assert (HX : 0 < X) by (change (10 ^ 21) with 1000000000000000000000 in H21; lia).
  destruct (100 * X) as [|P|P] eqn:HP; try lia.
  unfold nearestQuotient, SFdiv, SFdiv_core_binary.
  rewrite Zdigits2_log2 by lia.
  assert (Hl : 76 <= Z.log2 (Zpos P)).
  { apply Z.log2_le_pow2; [lia|]. rewrite <- HP.
    change (10 ^ 21) with 1000000000000000000000 in H21.
    change (2 ^ 76) with 75557863725914323419136. lia. }
  change (Zdigits2 100) with 7.
  replace (Z.min (fexp prec emax (Z.log2 (Zpos P) + 1 + 0 - (7 + 0))) (0 - 0)) with 0
    by (unfold fexp, SpecFloat.emin, prec, emax; lia).
  cbv beta iota zeta. change (0 - 0 - 0) with 0. cbv beta iota.
  assert (Hdiv : Z.div_eucl (Zpos P) 100 = (X, 0)).
  { pose proof (Z.div_mul X 100 ltac:(lia)) as Hq.
    pose proof (Z.mod_mul X 100 ltac:(lia)) as Hr.
    rewrite <- HP. replace (100 * X) with (X * 100) by lia.
    unfold Z.div, Z.modulo in Hq, Hr.
    destruct (Z.div_eucl (X * 100) 100) as [q r]. simpl in Hq, Hr. congruence. }
  rewrite Hdiv, new_location_zero, xorb_false_r.
  unfold X. rewrite binary_round_aux_exact by lia.
  rewrite Z.add_0_l, <- Hx. apply SF2Prim_Prim2SF.
Qed.

(** ** [parseFloat(x.toFixed(2))] rounds to two decimals, whatever [x] *)

Lemma round2_roundedTo2 (x : float) : roundedTo2 x (round2 x).
Proof.
  unfold roundedTo2.
  destruct (Prim2SF x) as [s | s | | neg m e] eqn:Hx.
  - apply round2_roundTo2. unfold roundTo2. now rewrite Hx.
  - apply round2_roundTo2. unfold roundTo2. now rewrite Hx.
  - apply round2_roundTo2. unfold roundTo2. now rewrite Hx.
  - destruct (Num.ltPow10 m e 21) eqn:Hbig.
    + exists (Num.roundScaled m e 2). split; [apply roundScaled_hundredths|].
      rewrite <- ofDecimal_hundredths.
      apply round2_roundTo2. unfold roundTo2. now rewrite Hx, Hbig.
    + destruct (finite_big x neg m e Hx Hbig) as [He _].
      exists (100 * (Zpos m * 2 ^ e)). split.
      * unfold nearestHundredths.
        rewrite (Z.max_l e 0), (Z.max_r (- e) 0) by lia. change (2 ^ 0) with 1. lia.
      * rewrite (nearestQuotient_whole x neg m e Hx Hbig).
        now apply (round2_big x neg m e).
Qed.

(** ** A quotient of integers is a quotient of Numbers *)

Lemma div_eucl_scaled (a b c : Z) :
  0 < b -> 0 < c ->
  Z.div_eucl (a * c) (b * c) = (fst (Z.div_eucl a b), snd (Z.div_eucl a b) * c).
Proof.
  intros Hb Hc.
  pose proof (Z.div_mul_cancel_r a b c ltac:(lia) ltac:(lia)) as Hq.
  pose proof (Z.mul_mod_distr_r a b c ltac:(lia) ltac:(lia)) as Hr.
  unfold Z.div, Z.modulo in Hq, Hr.
  destruct (Z.div_eucl (a * c) (b * c)) as [q r].
  destruct (Z.div_eucl a b) as [q' r']. simpl in *. congruence.
Qed.

Lemma new_location_scaled (r c : Z) :
  0 < c -> Z.even c = true ->
  new_location (100 * c) (r * c) = new_location 100 r.
Proof.
  intros Hc Hev. unfold new_location.
  rewrite Z.even_mul, Hev. cbn [Z.even orb].
  unfold new_location_even.
  destruct (Z.eqb_spec r 0) as [-> | Hr].
  - reflexivity.
  - replace (r * c =? 0) with false by (symmetry; apply Z.eqb_neq; nia).
    f_equal. replace (2 * (r * c)) with (2 * r * c) by lia.
    destruct (Z.compare_spec (2 * r * c) (100 * c));
      destruct (Z.compare_spec (2 * r) 100); try reflexivity; nia.
Qed.

(** For an integer below [2^53] the nearest Number to [n / 100] is the
    Number [n] divided by the Number 100. *)
Lemma SFdiv_integers (s : bool) (p : positive) :
  Zpos p < 2 ^ 53 ->
  SFdiv prec emax (S754_finite s p 0) (S754_finite false 100 0)
  = SFdiv prec emax
      (S754_finite s (Z.to_pos (Zpos p * 2 ^ (52 - Z.log2 (Zpos p)))) (Z.log2 (Zpos p) - 52))
      (S754_finite false 7036874417766400 (-46)).
Proof.
  intros Hp.
  destruct (canon_mantissa (Zpos p) ltac:(lia)) as [mc [Hmc [Hlog HL]]].
  rewrite <- Hmc. cbn [Z.to_pos].
  set (L := Z.log2 (Zpos p)) in *.
  unfold SFdiv, SFdiv_core_binary.
  rewrite !Zdigits2_log2 by lia. fold L. rewrite Hlog.
  change (Z.log2 100) with 6. change (Z.log2 7036874417766400) with 52.
  replace (Z.min (fexp prec emax (L + 1 + 0 - (6 + 1 + 0))) (0 - 0)) with (L - 59)
    by (unfold fexp, SpecFloat.emin, prec, emax; lia).
  replace (Z.min (fexp prec emax (52 + 1 + (L - 52) - (52 + 1 + -46))) (L - 52 - -46))
    with (L - 59) by (unfold fexp, SpecFloat.emin, prec, emax; lia).
  replace (0 - 0 - (L - 59)) with (59 - L) by lia.
  replace (L - 52 - -46 - (L - 59)) with 53 by lia.
  destruct (59 - L) as [|k|k] eqn:Hk; try lia.
  cbv beta iota zeta.
  rewrite !Z.shiftl_mul_pow2 by lia. rewrite <- Hk.
  replace (Zpos mc * 2 ^ 53) with (Zpos p * 2 ^ (59 - L) * 2 ^ 46).
  2:{ rewrite Hmc, <- !Z.mul_assoc, <- !Z.pow_add_r by lia. do 2 f_equal. lia. }
  change 7036874417766400 with (100 * 2 ^ 46).
  rewrite div_eucl_scaled by (try lia; reflexivity).
  destruct (Z.div_eucl (Zpos p * 2 ^ (59 - L)) 100) as [q r]. cbn [fst snd].
  rewrite new_location_scaled by reflexivity. reflexivity.
Qed.

Lemma SFdiv_sign (p d : positive) :
  SF2Prim (SFdiv prec emax (S754_finite true p 0) (S754_finite false d 0))
  = (- SF2Prim (SFdiv prec emax (S754_finite false p 0) (S754_finite false d 0)))%float.
Proof.
  unfold SFdiv. destruct (SFdiv_core_binary _ _ _ _ _ _) as [[mz ez] lz].
  cbn [xorb]. apply binary_round_aux_sign.
Qed.

(** For an integer [n] below [2^53] the Number nearest to [n / 100] is the
    Number [n] divided by the Number 100. *)
Lemma nearestQuotient_division (neg : bool) (n : Z) :
  0 < n < 2 ^ 53 ->
  nearestQuotient neg n 100
  = if neg then (- (ofInteger n / 100))%float else (ofInteger n / 100)%float.
Proof.
  intros Hn. destruct n as [|p|p]; try lia.
  assert (Hq : SF2Prim (SFdiv prec emax (S754_finite false p 0) (S754_finite false 100 0))
               = (ofInteger (Zpos p) / 100)%float).
  { rewrite (SF2Prim_eq (ofInteger (Zpos p) / 100)
               (SFdiv prec emax (canon (Zpos p)) (S754_finite false 7036874417766400 (-46)))).
    - rewrite SFdiv_integers by lia. reflexivity.
    - rewrite div_spec, Prim2SF_ofInteger, Prim2SF_100 by lia. reflexivity. }
  unfold nearestQuotient. destruct neg; [rewrite SFdiv_sign|]; now rewrite Hq.
Qed.

(** C2. The analyzer keeps the order and the number of the items and copies
    their fields; the category of each is that of the classifier on its
    name.  When the budget is above 0 the percentage is spend / budget × 100
    rounded to two decimals: the code's [parseFloat] of [toFixed(2)] is, for
    every quotient, the Number nearest to [n / 100], where [n] is the
    integer nearest to a hundred times the quotient (the larger one of
    two), and below [2^53] that is the Number [n] divided by 100.  When the
    budget is 0 or below the percentage is 0, as it is whenever the test
    [budget > 0] fails. *)
Theorem analyzedData_percentage (toUpperCase : string -> string) (data : list Item.t) :
  List.length (analyzedData toUpperCase data) = List.length data
  /\ forall i item,
       nth_error data i = Some item ->
       exists a,
         nth_error (analyzedData toUpperCase data) i = Some a
         /\ AnalyzedItem.id a = Item.id item
         /\ AnalyzedItem.name a = Item.name item
         /\ AnalyzedItem.spend a = Item.spend item
         /\ AnalyzedItem.budget a = Item.budget item
         /\ AnalyzedItem.category a = classifyItem toUpperCase (Item.name item)
         /\ ((0 <? Item.budget item)%float = true ->
             AnalyzedItem.percentage a
             = round2 (Item.spend item / Item.budget item * 100)
             /\ roundedTo2 (Item.spend item / Item.budget item * 100)
                  (AnalyzedItem.percentage a)
             /\ (forall neg m e n,
                   Prim2SF (Item.spend item / Item.budget item * 100) = S754_finite neg m e ->
                   nearestHundredths m e n -> 0 < n < 2 ^ 53 ->
                   AnalyzedItem.percentage a
                   = if neg then (- (ofInteger n / 100))%float
                     else (ofInteger n / 100)%float)
             /\ forall r,
                  roundTo2 (Item.spend item / Item.budget item * 100) = Some r ->
                  AnalyzedItem.percentage a = r)
         /\ ((Item.budget item <=? 0)%float = true ->
             AnalyzedItem.percentage a = 0%float)
         /\ ((0 <? Item.budget item)%float = false ->
             AnalyzedItem.percentage a = 0%float).
Proof.
  split; [apply length_map|].
  intros i item Hi. exists (analyzeItem toUpperCase item).
  split; [now apply map_nth_error|].
  repeat (split; [reflexivity|]).
  rewrite analyzeItem_percentage.
  split; [|split].
  - intros Hpos. rewrite Hpos. split; [reflexivity|].
    split; [apply round2_roundedTo2|]. split.
    + intros neg m e n Hx Hn Hrange.
      pose proof (round2_roundedTo2 (Item.spend item / Item.budget item * 100)) as Hr.
      unfold roundedTo2 in Hr. rewrite Hx in Hr. destruct Hr as [n' [Hn' Hr]].
      rewrite (nearestHundredths_unique m e n n' Hn Hn'), Hr.
      apply nearestQuotient_division.
      now rewrite <- (nearestHundredths_unique m e n n' Hn Hn').
    + intros r Hr. now apply round2_roundTo2.
  - intros Hle. now rewrite (leb_zero_not_ltb _ Hle).
  - intros Hnot. now rewrite Hnot.
Qed.

(** 32000 of 30000: the nearest hundredth of 106.666... is 10667/100. *)
Example analyzeItem_rounding :
  let a := analyzeItem Str.asciiUpperCase (Item.mk 3 "Facebook" 32000 30000) in
  exists m e,
    Prim2SF (32000 / 30000 * 100) = S754_finite false m e
    /\ nearestHundredths m e 10667
    /\ AnalyzedItem.percentage a = (10667 / 100)%float
    /\ Num.toString (AnalyzedItem.percentage a) = "106.67".
Proof.
  cbv zeta. eexists. eexists. split; [reflexivity|].
  split; [unfold nearestHundredths; split; vm_compute; congruence|].
  split; reflexivity.
Qed.

(** A spend of 10^25 on a budget of 1: the percentage is beyond [10^21],
    where [toFixed] writes the Number with an exponent, and stays as it is. *)
Example analyzeItem_huge :
  let x := (10000000000000000905969664 / 1 * 100)%float in
  roundTo2 x = None
  /\ round2 x = x
  /\ AnalyzedItem.percentage
       (analyzeItem Str.asciiUpperCase (Item.mk 8 "x" 10000000000000000905969664 1)) = x.
Proof.
  cbv zeta.
  assert (Hx : Prim2SF (10000000000000000905969664 / 1 * 100)
               = S754_finite false 7275957614183427 37) by reflexivity.
  assert (Hr : round2 (10000000000000000905969664 / 1 * 100)
               = (10000000000000000905969664 / 1 * 100)%float)
    by (apply (round2_big _ _ _ _ Hx); reflexivity).
  split; [reflexivity|]. split; [exact Hr|].
  rewrite analyzeItem_percentage. cbn [Item.budget Item.spend].
  replace (0 <? 1)%float with true by reflexivity. exact Hr.
Qed.

(** ** The form: what reaches the handler *)

Lemma shr_1_nonneg (mrs : shr_record) : 0 <= shr_m mrs -> 0 <= shr_m (shr_1 mrs).
Proof.
  destruct mrs as [m r s]. cbn [shr_m]. intros Hm.
  destruct m as [|[p|p|]|p]; cbn [shr_1 shr_m]; lia.
Qed.

Lemma iter_shr_1_nonneg (p : positive) (mrs : shr_record) :
  0 <= shr_m mrs -> 0 <= shr_m (iter_pos shr_1 p mrs).
Proof.
  revert mrs. induction p as [p IH | p IH |]; intros mrs Hm; cbn [iter_pos].
  - now apply IH, IH, shr_1_nonneg.
  - now apply IH, IH.
  - now apply shr_1_nonneg.
Qed.

Lemma shr_fexp_nonneg (m e : Z) (l : location) :
  0 <= m -> 0 <= shr_m (fst (shr_fexp prec emax m e l)).
Proof.
  intros Hm. unfold shr_fexp, shr.
  assert (H0 : 0 <= shr_m (shr_record_of_loc m l)) by (destruct l as [|[]]; exact Hm).
  destruct (fexp prec emax (Zdigits2 m + e) - e); cbn [fst]; auto.
  now apply iter_shr_1_nonneg.
Qed.

Lemma round_nearest_even_nonneg (m : Z) (l : location) :
  0 <= m -> 0 <= round_nearest_even m l.
Proof.
  intros Hm. unfold round_nearest_even.
  destruct l as [|[]]; try lia. destruct (Z.even m); lia.
Qed.

Lemma binary_round_aux_not_nan (s : bool) (m e : Z) (l : location) :
  0 <= m -> binary_round_aux prec emax s m e l <> S754_nan.
Proof.
  intros Hm. unfold binary_round_aux.
  pose proof (shr_fexp_nonneg m e l Hm) as H1.
  destruct (shr_fexp prec emax m e l) as [mrs' e']. cbn [fst] in H1.
  pose proof (shr_fexp_nonneg _ e' loc_Exact
                (round_nearest_even_nonneg _ (loc_of_shr_record mrs') H1)) as H2.
  destruct (shr_fexp prec emax _ e' loc_Exact) as [mrs'' e'']. cbn [fst] in H2.
  destruct (shr_m mrs'') as [|p|p]; try lia; try discriminate.
  destruct (e'' <=? emax - prec); discriminate.
Qed.

Lemma binary_round_not_nan (s : bool) (m : positive) (e : Z) :
  binary_round prec emax s m e <> S754_nan.
Proof.
  unfold binary_round. destruct (shl_align _ _ _) as [mz ez].
  apply binary_round_aux_not_nan. lia.
Qed.

Lemma SF2Prim_not_nan (sf : spec_float) :
  sf <> S754_nan -> Prim2SF (SF2Prim sf) <> S754_nan.
Proof.
  destruct sf as [[] | [] | | s m e]; intros Hsf; try discriminate; try congruence.
  cbn [SF2Prim].
  assert (Hf : Prim2SF (Z.ldexp (of_uint63 (Uint63Axioms.of_Z (Zpos m))) e) <> S754_nan).
  { rewrite Z_ldexp_spec, of_uint63_spec.
    pose proof (Uint63.to_Z_bounded (Uint63Axioms.of_Z (Zpos m))) as Hb.
    destruct (Uint63Axioms.to_Z (Uint63Axioms.of_Z (Zpos m))) as [|q|q]; try lia.
    - discriminate.
    - cbn [binary_normalize]. unfold SFldexp.
      pose proof (binary_round_not_nan false q 0) as Hq.
      destruct (binary_round prec emax false q 0); try discriminate; try congruence.
      apply binary_round_not_nan. }
  destruct s; [|exact Hf].
  rewrite opp_spec. destruct (Prim2SF _); try discriminate; congruence.
Qed.

(** A decimal is never read as [NaN]. *)
Lemma ofDecimal_not_nan (neg : bool) (M E : Z) :
  Prim2SF (Num.ofDecimal neg M E) <> S754_nan.
Proof.
  unfold Num.ofDecimal. destruct M as [|p|p]; try (destruct neg; discriminate).
  destruct (0 <=? E).
  - apply SF2Prim_not_nan.
    assert (Hp : 0 < Zpos p * 10 ^ E \/ Zpos p * 10 ^ E = 0).
    { assert (0 <= 10 ^ E) by (apply Z.pow_nonneg; lia). nia. }
    destruct neg; cbn [cond_Zopp];
      destruct (Zpos p * 10 ^ E) as [|q|q]; try lia; cbn [Z.opp binary_normalize];
      try discriminate; apply binary_round_not_nan.
  - apply SF2Prim_not_nan. unfold SFdiv, SFdiv_core_binary.
    cbv zeta.
    set (m' := match _ with 0 => Zpos p | Zpos _ => _ | Zneg _ => 0 end).
    assert (Hm' : 0 <= m').
    { unfold m'. destruct (_ - _ - _) as [|k|k]; try lia.
      rewrite Z.shiftl_mul_pow2 by lia.
      assert (0 <= 2 ^ Zpos k) by (apply Z.pow_nonneg; lia). nia. }
    pose proof (Z.div_pos m' (Zpos (Z.to_pos (10 ^ (- E)))) Hm' ltac:(lia)) as Hq.
    unfold Z.div in Hq.
    destruct (Z.div_eucl m' (Zpos (Z.to_pos (10 ^ (- E))))) as [q r]. cbn [fst] in Hq.
    now apply binary_round_aux_not_nan.
Qed.

(** ** What a number input hands over is a number *)

Lemma digits_split (s : string) :
  exists run rest, s = run ++ rest /\ allDigits run = true /\ noDigitHead rest.
Proof.
  induction s as [|c s [run [rest [Hs [Hrun Hrest]]]]].
  - exists "", "". repeat split.
  - destruct (Num.isDigit c) eqn:Hc.
    + exists (String c run), rest. cbn [append allDigits]. rewrite Hc, Hrun, <- Hs.
      repeat split. exact Hrest.
    + exists "", (String c s). repeat split. exact Hc.
Qed.

Lemma valid_unsigned (neg : bool) (u : string) :
  (let '(_, ilen, r1) := Num.digits u 0 0 in
   match r1 with
   | String "." r2 =>
       let '(_, flen, r3) := Num.digits r2 0 0 in
       negb (flen =? 0) && Html.exponentOk r3
   | _ => negb (ilen =? 0) && Html.exponentOk r1
   end) = true ->
  exists M E, Num.parseFloat ((if neg then "-" else "") ++ u) = Num.ofDecimal neg M E.
Proof.
  destruct (digits_split u) as [ip [r1 [-> [Hip Hr1]]]].
  rewrite (digits_run ip r1 0 0 Hip) by exact Hr1.
  destruct r1 as [|c r2].
  - rewrite andb_true_r. intros Hlen.
    eexists; eexists. apply parseFloat_whole; [exact Hip | | exact I].
    intros ->. discriminate Hlen.
  - destruct (Ascii.eqb_spec c "."%char) as [-> | Hc].
    + destruct (digits_split r2) as [fp [r3 [-> [Hfp Hr3]]]].
      rewrite (digits_run fp r3 0 0 Hfp) by exact Hr3.
      intros Hv. apply andb_true_iff in Hv. destruct Hv as [Hlen _].
      eexists; eexists. apply parseFloat_point; [exact Hip | exact Hfp | | exact Hr3].
      right. intros ->. discriminate Hlen.
    + assert (Hw : ip <> "" ->
                   exists M E, Num.parseFloat ((if neg then "-" else "") ++ ip ++ String c r2)
                               = Num.ofDecimal neg M E).
      { intros Hne. eexists; eexists.
        apply parseFloat_whole; [exact Hip | exact Hne | split; assumption]. }
      intros Hv. apply Hw. intros ->.
      destruct c as [[] [] [] [] [] [] [] []]; try congruence; discriminate Hv.
Qed.

Lemma valid_parses (s : string) :
  Html.validFloatingPointNumber s = true ->
  exists neg M E, Num.parseFloat s = Num.ofDecimal neg M E.
Proof.
  unfold Html.validFloatingPointNumber. cbv zeta.
  destruct s as [|c r].
  - discriminate.
  - destruct (Ascii.eqb_spec c "-"%char) as [-> | Hc].
    + intros Hv. exists true. apply (valid_unsigned true r Hv).
    + intros Hv. exists false. apply (valid_unsigned false (String c r)).
      destruct c as [[] [] [] [] [] [] [] []]; try congruence; exact Hv.
Qed.

(** What [parseFloat] cannot read, a number input does not hand over. *)
Lemma numberInputValue_unparseable (typed : string) :
  Prim2SF (Num.parseFloat typed) = S754_nan -> Html.numberInputValue typed = "".
Proof.
  intros Hnan. unfold Html.numberInputValue.
  destruct (Html.validFloatingPointNumber typed) eqn:Hv; [exfalso | reflexivity].
  destruct (valid_parses typed Hv) as [neg [M [E Hp]]].
  rewrite Hp in Hnan. now apply (ofDecimal_not_nan neg M E).
Qed.

Lemma numberInputValue_empty : Html.numberInputValue "" = "".
Proof.
  reflexivity.
Qed.

Lemma numberInputValue_cases (typed : string) :
  (Html.validFloatingPointNumber typed = true /\ Html.numberInputValue typed = typed
   /\ typed <> "" /\ Prim2SF (Num.parseFloat typed) <> S754_nan)
  \/ (Html.validFloatingPointNumber typed = false /\ Html.numberInputValue typed = "").
Proof.
  unfold Html.numberInputValue.
  destruct (Html.validFloatingPointNumber typed) eqn:Hv; [left | right; auto].
  split; [reflexivity|]. split; [reflexivity|]. split.
  - intros ->. discriminate Hv.
  - destruct (valid_parses typed Hv) as [neg [M [E Hp]]]. rewrite Hp.
    apply ofDecimal_not_nan.
Qed.

Lemma unparseable_not_valid (text : string) :
  unparseable text -> Html.numberInputValue text = "".
Proof.
  intros [-> | Hnan]; [reflexivity | now apply numberInputValue_unparseable].
Qed.

Lemma fillForm_fields (name spend budget : string) (st : State.t) :
  State.data (fillForm name spend budget st) = State.data st
  /\ State.newItem (fillForm name spend budget st)
     = NewItem.mk name (Html.numberInputValue spend) (Html.numberInputValue budget).
Proof.
  split; reflexivity.
Qed.

(** C3.  add(name, spend, budget) leaves the list as it is and creates no
    item whenever the name is missing or the spend or the budget is missing
    or unparseable as a number: such a text reaches the handler as the empty
    string, and the handler returns at its guard.  Otherwise it appends
    exactly one item at the end of the list, with the name, the spend and
    the budget as numbers (never [NaN]), and clears the form.  The id of the
    new item is the clock's reading: it is fresh exactly when no item of the
    list carries that reading already.  The first two parts are the handler
    on any form state: it skips when a field is the empty string, and
    appends otherwise. *)
Theorem handleAddItem_appends_or_skips (now : Z) (st : State.t) :
  (someFieldEmpty (State.newItem st) -> handleAddItem now st = st)
  /\ (~ someFieldEmpty (State.newItem st) ->
      State.data (handleAddItem now st)
      = (State.data st
         ++ [Item.mk now (NewItem.name (State.newItem st))
               (Num.parseFloat (NewItem.spend (State.newItem st)))
               (Num.parseFloat (NewItem.budget (State.newItem st)))])%list
      /\ List.length (State.data (handleAddItem now st)) = S (List.length (State.data st))
      /\ State.newItem (handleAddItem now st) = NewItem.empty
      /\ (NoDup (ids (State.data (handleAddItem now st)))
          <-> NoDup (ids (State.data st)) /\ ~ In now (ids (State.data st))))
  /\ forall name spend budget,
       (name = "" \/ unparseable spend \/ unparseable budget
        \/ Html.validFloatingPointNumber spend = false
        \/ Html.validFloatingPointNumber budget = false ->
        addItem now name spend budget st = fillForm name spend budget st
        /\ State.data (addItem now name spend budget st) = State.data st)
       /\ (name <> "" ->
           Html.validFloatingPointNumber spend = true ->
           Html.validFloatingPointNumber budget = true ->
           State.data (addItem now name spend budget st)
           = (State.data st
              ++ [Item.mk now name (Num.parseFloat spend) (Num.parseFloat budget)])%list
           /\ Prim2SF (Num.parseFloat spend) <> S754_nan
           /\ Prim2SF (Num.parseFloat budget) <> S754_nan
           /\ State.newItem (addItem now name spend budget st) = NewItem.empty
           /\ (NoDup (ids (State.data (addItem now name spend budget st)))
               <-> NoDup (ids (State.data st)) /\ ~ In now (ids (State.data st)))).
Proof.
  assert (Hhandler : forall s : State.t,
    (someFieldEmpty (State.newItem s) -> handleAddItem now s = s)
    /\ (~ someFieldEmpty (State.newItem s) ->
        State.data (handleAddItem now s)
        = (State.data s
           ++ [Item.mk now (NewItem.name (State.newItem s))
                 (Num.parseFloat (NewItem.spend (State.newItem s)))
                 (Num.parseFloat (NewItem.budget (State.newItem s)))])%list
        /\ List.length (State.data (handleAddItem now s)) = S (List.length (State.data s))
        /\ State.newItem (handleAddItem now s) = NewItem.empty
        /\ (NoDup (ids (State.data (handleAddItem now s)))
            <-> NoDup (ids (State.data s)) /\ ~ In now (ids (State.data s))))).
  { intros s. unfold handleAddItem. split; intros H.
    - apply guard_spec in H. now rewrite H.
    - assert (Hg : falsy (NewItem.name (State.newItem s))
                   || falsy (NewItem.spend (State.newItem s))
                   || falsy (NewItem.budget (State.newItem s)) = false).
      { rewrite <- guard_spec in H. now destruct (_ || _ || _). }
      rewrite Hg. simpl. split; [reflexivity|].
      split; [rewrite length_app; simpl; lia|].
      split; [reflexivity|].
      unfold ids. rewrite map_app. simpl. split.
      + intros Hnd. apply NoDup_remove in Hnd. rewrite app_nil_r in Hnd. exact Hnd.
      + intros [Hnd Hni]. apply NoDup_rev in Hnd. rewrite <- (rev_involutive (_ ++ _)).
        apply NoDup_rev. rewrite rev_app_distr. simpl. constructor; auto.
        now rewrite <- in_rev. }
  destruct (Hhandler st) as [Hskip Happend].
  split; [exact Hskip|]. split; [exact Happend|].
  intros name spend budget.
  destruct (fillForm_fields name spend budget st) as [Hdata Hform].
  destruct (Hhandler (fillForm name spend budget st)) as [Hs Ha].
  rewrite Hform, Hdata in Ha. rewrite Hform in Hs.
  unfold someFieldEmpty in Hs, Ha. cbn [NewItem.name NewItem.spend NewItem.budget] in Hs, Ha.
  fold (addItem now name spend budget st) in Hs, Ha.
  split.
  - intros Hbad.
    assert (Hempty : name = "" \/ Html.numberInputValue spend = ""
                     \/ Html.numberInputValue budget = "").
    { destruct Hbad as [H | [H | [H | [H | H]]]].
      - now left.
      - right; left. now apply unparseable_not_valid.
      - right; right. now apply unparseable_not_valid.
      - right; left. unfold Html.numberInputValue. now rewrite H.
      - right; right. unfold Html.numberInputValue. now rewrite H. }
    rewrite (Hs Hempty). split; [reflexivity | exact Hdata].
  - intros Hname Hspend Hbudget.
    destruct (numberInputValue_cases spend) as [[_ [Hvs [Hns Hps]]] | [Hv _]]; [|congruence].
    destruct (numberInputValue_cases budget) as [[_ [Hvb [Hnb Hpb]]] | [Hv _]]; [|congruence].
    rewrite Hvs, Hvb in Ha.
    assert (Hfull : ~ (name = "" \/ spend = "" \/ budget = "")) by tauto.
    destruct (Ha Hfull) as [Ha1 [_ [Ha3 Ha4]]].
    split; [exact Ha1|]. split; [exact Hps|]. split; [exact Hpb|].
    split; [exact Ha3 | exact Ha4].
Qed.

(** C3 as stated fails on the id: it is the clock's reading, and two adds at
    the same reading give two items one id, in a list whose ids were
    distinct. *)
Lemma handleAddItem_counterexample :
  let T := 1700000000000%Z in
  let st1 := addItem T "午餐" "120" "100" initialState in
  let st2 := addItem T "文具" "80" "100" st1 in
  NoDup (ids (State.data initialState))
  /\ List.length (State.data st2) = S (S (List.length (State.data initialState)))
  /\ ids (State.data st2) = (ids (State.data initialState) ++ [T; T])%list
  /\ ~ NoDup (ids (State.data st2)).
Proof.
  cbv zeta. split; [|split; [reflexivity|split; [reflexivity|]]].
  - unfold ids. simpl. repeat constructor; simpl; lia.
  - intros Hnd.
    change (ids (State.data
              (addItem 1700000000000 "文具" "80" "100"
                 (addItem 1700000000000 "午餐" "120" "100" initialState))))
      with (ids (State.data initialState) ++ [1700000000000; 1700000000000]%Z)%list in Hnd.
    apply NoDup_remove_2 in Hnd. apply Hnd. apply in_or_app. right. now left.
Qed.

Local Close Scope Z_scope.
